(** * im_xiaoxiang: client-side request, session, transport and sync core

    A shallow embedding of the four TypeScript services the specification
    talks about, and the properties checked against them:

    - [ApiClient]  (src/services/DatabaseService.ts, class ApiClient)
    - [JWTAuth]    (class JWTAuthService), continued in [JWTAuthSession]
    - [WebSocket]  (src/services/WebSocketService.ts, class WebSocketService)
    - [Sync]       (class OfflineFirstSyncService, over StorageService)

    and of their collaborators:

    - [Logger]         (class Logger)
    - [SecureStorage]  (class SecureStorageService)
    - [Storage]        (class StorageService)
    - [DataService]    (src/services/DatabaseService.ts, class DataService:
                        offline support)

    Conventions.  Wall-clock readings ([Date.now()]) and random suffixes
    ([Math.random()]) are inputs of the functions that use them.  A timer
    set with [setTimeout]/[setInterval] is recorded in the state; it fires
    when the environment delivers the matching event.  Listener fan-out
    ([emitEvent]) is recorded as a log of emitted events.  The collaborators
    (AsyncStorage, SecureStore, SQLite) are finite maps that do not fail. *)

From Stdlib Require Import ZArith String Ascii List Lia Bool Sorted.
From stdpp Require Import gmap strings list fin_maps pretty.

Open Scope string_scope.

(* ===================================================================== *)
(** * Resilient request client *)
(* ===================================================================== *)

Module ApiClient.

(** [enum ApiErrorCode]: the members are their own string values. *)
Definition INVALID_REQUEST : string := "INVALID_REQUEST".
Definition VALIDATION_ERROR : string := "VALIDATION_ERROR".
Definition UNAUTHORIZED : string := "UNAUTHORIZED".
Definition TOKEN_EXPIRED : string := "TOKEN_EXPIRED".
Definition FORBIDDEN : string := "FORBIDDEN".
Definition NOT_FOUND : string := "NOT_FOUND".
Definition RATE_LIMITED : string := "RATE_LIMITED".
Definition SERVER_ERROR : string := "SERVER_ERROR".
Definition SERVICE_UNAVAILABLE : string := "SERVICE_UNAVAILABLE".
Definition NETWORK_ERROR : string := "NETWORK_ERROR".
Definition TIMEOUT_ERROR : string := "TIMEOUT_ERROR".

(** A value caught by the [catch] of [request]: an [Error], or the
    [ApiError] object thrown by [parseResponse].  Only the properties the
    client reads are kept; an absent string property is the empty string
    (both are falsy and differ from every constant they are compared to). *)
Record JsError := mkJsError {
  response : option Z;   (* status of [error.response], when there is one *)
  code : string;         (* [error.code] *)
  message : string       (* [error.message] *)
}.

(** [interface ApiError], without [details], [requestId] and [timestamp]
    (the last two are drawn from the clock and the random generator). *)
Record ApiError := mkApiError {
  api_code : string;
  api_message : string
}.

Inductive HttpMethod := GET | POST | PUT | DELETE | PATCH.

Record RequestOptions := mkRequestOptions {
  method : HttpMethod;
  url : string;
  data : option string;
  headers : gmap string string;
  timeout : Z                      (* 0 when not given *)
}.

(** The parsed body of a response ([response.json()]). *)
Record ErrorEnvelope := mkErrorEnvelope {
  env_code : string;
  env_message : string
}.

Inductive Body :=
| BodyUnparseable (msg : string)    (* [response.json()] rejects *)
| BodyNotObject                     (* a JSON scalar or [null] *)
| BodyEnvelope (success : option bool) (payload : option string)
               (error : option ErrorEnvelope).

(** What one call of [fetch] does. *)
Inductive FetchOutcome :=
| FetchRejects (msg : string)       (* no connectivity: [fetch] throws *)
| FetchAborted                      (* the timeout fired [controller.abort()] *)
| FetchResponds (status : Z) (statusText : string) (body : Body).

Record RawResponse := mkRawResponse {
  raw_status : Z;
  raw_statusText : string;
  raw_data : Body
}.

(** [interface ApiResponse], as [parseResponse] returns it. *)
Record ApiResponse := mkApiResponse {
  resp_success : option bool;
  resp_data : option string
}.

(** [interface ApiClientConfig]; its optional callbacks [onRequest],
    [onResponse] and [onError] are not set by the defaults and return
    nothing to [request]. *)
Record ApiClientConfig := mkConfig {
  baseURL : string;
  cfg_timeout : Z;
  maxRetries : nat;
  retryDelay : Z;
  retryCondition : JsError -> bool
}.

(** [DEFAULT_CONFIG.retryCondition] *)
Definition default_retryCondition (error : JsError) : bool :=
  negb (bool_decide (is_Some (response error)))
  || match response error with
     | Some status => (500 <=? status)%Z && (status <? 600)%Z
     | None => false
     end
  || String.eqb (code error) "NETWORK_ERROR"
  || String.eqb (code error) "TIMEOUT".

Definition DEFAULT_CONFIG (apiBaseUrl : string) : ApiClientConfig :=
  {| baseURL := apiBaseUrl;
     cfg_timeout := 30000;
     maxRetries := 3;
     retryDelay := 1000;
     retryCondition := default_retryCondition |}.

Record Client := mkClient {
  config : ApiClientConfig;
  requestInterceptors : list (RequestOptions -> JsError + RequestOptions);
  responseInterceptors : list (RawResponse -> JsError + RawResponse);
  errorInterceptors : list (ApiError -> ApiError)
}.

(** [new ApiClient()] *)
Definition new (apiBaseUrl : string) : Client :=
  {| config := DEFAULT_CONFIG apiBaseUrl;
     requestInterceptors := [];
     responseInterceptors := [];
     errorInterceptors := [] |}.

(** [calculateRetryDelay]: [Math.min(retryDelay * Math.pow(2, attempt - 1), 30000)].
    [request] calls it with [attempt >= 1] only. *)
Definition calculateRetryDelay (cfg : ApiClientConfig) (attempt : Z) : Z :=
  Z.min (retryDelay cfg * 2 ^ (attempt - 1)) 30000.

(** [response.ok] *)
Definition ok (status : Z) : bool := (200 <=? status)%Z && (status <=? 299)%Z.

(** [performRequest], given what [fetch] does. *)
Definition performRequest (o : FetchOutcome) : JsError + RawResponse :=
  match o with
  | FetchRejects msg => inl (mkJsError None "" msg)
  | FetchAborted => inl (mkJsError None "" "Request timeout")
  | FetchResponds status statusText body =>
      if ok status then
        match body with
        | BodyUnparseable msg => inl (mkJsError None "" msg)
        | _ => inr (mkRawResponse status statusText body)
        end
      else inl (mkJsError None "" ("HTTP " +:+ pretty status +:+ ": " +:+ statusText))
  end.

(** [a || b] on strings. *)
Definition or_else (a b : string) : string := if String.eqb a "" then b else a.

(** [parseResponse] *)
Definition parseResponse (r : RawResponse) : JsError + ApiResponse :=
  match raw_data r with
  | BodyUnparseable _ | BodyNotObject =>
      inl (mkJsError None "" "Invalid response format")
  | BodyEnvelope (Some false) _ err =>
      inl (mkJsError None
             (or_else (from_option env_code "" err) SERVER_ERROR)
             (or_else (from_option env_message "" err) "Unknown error"))
  | BodyEnvelope success payload _ => inr (mkApiResponse success payload)
  end.

(** Threading a value through a chain of interceptors, stopping at the
    first one that throws. *)
Fixpoint run_chain {A : Type} (chain : list (A -> JsError + A)) (a : A) : JsError + A :=
  match chain with
  | [] => inr a
  | f :: rest => match f a with
                 | inl e => inl e
                 | inr a' => run_chain rest a'
                 end
  end.

(** One pass through the [try] block of [request]. *)
Definition try_once (c : Client) (net : nat -> RequestOptions -> FetchOutcome)
    (attempt : nat) (requestConfig : RequestOptions) : JsError + ApiResponse :=
  match run_chain (requestInterceptors c) requestConfig with
  | inl e => inl e
  | inr processedConfig =>
      match performRequest (net attempt processedConfig) with
      | inl e => inl e
      | inr resp =>
          match run_chain (responseInterceptors c) resp with
          | inl e => inl e
          | inr processedResponse => parseResponse processedResponse
          end
      end
  end.

(** What the retry loop leaves behind. *)
Record LoopResult := mkLoopResult {
  result : JsError + ApiResponse;   (* [lastError], or the value returned *)
  attempts : nat;                   (* passes through the [try] block *)
  slept : list Z                    (* the delays handed to [sleep], in order *)
}.

(** The [while (attempt <= maxRetries)] loop.  [fuel] bounds the number of
    passes; [request] supplies [maxRetries + 1], which always suffices
    ([request_loop_total]). *)
Fixpoint request_loop (c : Client) (net : nat -> RequestOptions -> FetchOutcome)
    (requestConfig : RequestOptions) (fuel attempt : nat) (delays : list Z)
    : option LoopResult :=
  match fuel with
  | O => None
  | S fuel' =>
      match try_once c net attempt requestConfig with
      | inr r => Some (mkLoopResult (inr r) (S attempt) delays)
      | inl error =>
          let attempt' := S attempt in
          if (attempt' <=? maxRetries (config c))%nat && retryCondition (config c) error
          then
            let delay := calculateRetryDelay (config c) (Z.of_nat attempt') in
            request_loop c net requestConfig fuel' attempt' (delays ++ [delay])
          else Some (mkLoopResult (inl error) attempt' delays)
      end
  end.

(** The regular expression [/HTTP (\\d+)/] as the source spells it: the
    letters HTTP, a space, one backslash, then one or more letters [d].  The
    capture is the backslash with the run of [d]s; [None] when no position
    of the text matches. *)
Fixpoint take_ds (s : string) : string :=
  match s with
  | String "d" rest => String "d" (take_ds rest)
  | _ => ""
  end.

Fixpoint match_http_status (s : string) : option string :=
  match s with
  | "" => None
  | String _ rest =>
      if String.prefix "HTTP \d" s
      then Some ("\" +:+ take_ds (String.substring 6 (String.length s - 6) s))
      else match_http_status rest
  end.

(** [parseInt] on the two shapes of text it is given here: a run of decimal
    digits, or a capture that starts with a backslash.  [None] is NaN. *)
Definition is_digit (a : ascii) : bool :=
  (48 <=? nat_of_ascii a)%nat && (nat_of_ascii a <=? 57)%nat.

Fixpoint digits_value (s : string) (acc : option Z) : option Z :=
  match s with
  | String a rest =>
      if is_digit a
      then digits_value rest
             (Some (from_option id 0%Z acc * 10 + Z.of_nat (nat_of_ascii a - 48))%Z)
      else acc
  | "" => acc
  end.

Definition parseInt (s : string) : option Z := digits_value s None.

(** [normalizeError] *)
Definition normalizeError (error : JsError) : ApiError :=
  if negb (String.eqb (code error) "") && negb (String.eqb (message error) "")
  then mkApiError (code error) (message error)
  else if String.eqb (message error) "Request timeout"
  then mkApiError TIMEOUT_ERROR "请求超时，请检查网络连接"
  else if String.eqb (message error) "Failed to fetch"
          || String.eqb (code error) "NETWORK_ERROR"
  then mkApiError NETWORK_ERROR "网络连接失败，请检查网络设置"
  else if String.prefix "HTTP " (message error)
  then
    let status := parseInt (from_option id "500" (match_http_status (message error))) in
    match status with
    | Some 400%Z => mkApiError INVALID_REQUEST "请求格式错误"
    | Some 401%Z => mkApiError UNAUTHORIZED "未授权访问，请重新登录"
    | Some 403%Z => mkApiError FORBIDDEN "禁止访问该资源"
    | Some 404%Z => mkApiError NOT_FOUND "请求的资源不存在"
    | Some 429%Z => mkApiError RATE_LIMITED "请求过于频繁，请稍后重试"
    | Some 503%Z => mkApiError SERVICE_UNAVAILABLE "服务暂时不可用，请稍后重试"
    | _ => mkApiError SERVER_ERROR "服务器内部错误"
    end
  else mkApiError SERVER_ERROR (or_else (message error) "未知错误").

(** What [request] hands back to its caller. *)
Inductive Settled :=
| Resolved (r : ApiResponse)
| Rejected (e : ApiError).

Record RequestRun := mkRequestRun {
  settled : Settled;
  run_attempts : nat;
  run_slept : list Z
}.

(** [request] *)
Definition request (c : Client) (net : nat -> RequestOptions -> FetchOutcome)
    (options : RequestOptions) : option RequestRun :=
  let requestConfig :=
    {| method := method options;
       url := url options;
       data := data options;
       headers := headers options ∪ {[ "Content-Type" := "application/json" ]};
       timeout := if (timeout options =? 0)%Z then cfg_timeout (config c)
                  else timeout options |} in
  match request_loop c net requestConfig (S (maxRetries (config c))) 0 [] with
  | None => None
  | Some lr =>
      match result lr with
      | inr r => Some (mkRequestRun (Resolved r) (attempts lr) (slept lr))
      | inl lastError =>
          let apiError := normalizeError lastError in
          let processedError :=
            fold_left (fun e f => f e) (errorInterceptors c) apiError in
          Some (mkRequestRun (Rejected processedError) (attempts lr) (slept lr))
      end
  end.

(** [get] *)
Definition get (c : Client) (net : nat -> RequestOptions -> FetchOutcome)
    (u : string) : option RequestRun :=
  request c net (mkRequestOptions GET u None ∅ 0).

(** ** Auxiliary definitions for the properties below *)

(** A server that answers every request with 404 Not Found. *)
Definition always_404 (_ : nat) (_ : RequestOptions) : FetchOutcome :=
  FetchResponds 404 "Not Found"
    (BodyEnvelope (Some false) None
       (Some (mkErrorEnvelope "NOT_FOUND" "no such user"))).

Definition get_user_1 : option RequestRun :=
  get (new "https://api.xiaoxiang.com") always_404 "/users/1".

End ApiClient.

(* ===================================================================== *)
(** * Auth session manager *)
(* ===================================================================== *)

Module JWTAuth.

(** [interface JWTTokenInfo] *)
Module JWTTokenInfo.
Record t := mk {
  accessToken : string;
  refreshToken : string;
  expiresIn : Z;         (* seconds *)
  expiresAt : Z;         (* epoch milliseconds *)
  tokenType : string
}.
End JWTTokenInfo.

(** [interface AuthState] *)
Module AuthState.
Record t := mk {
  isAuthenticated : bool;
  user : option string;
  tokenInfo : option JWTTokenInfo.t;
  lastRefreshTime : Z
}.
End AuthState.

(** [enum AuthEvent] *)
Inductive AuthEvent :=
| LOGIN_SUCCESS | LOGIN_FAILED | LOGOUT
| TOKEN_REFRESHED | TOKEN_REFRESH_FAILED | AUTHENTICATION_REQUIRED.

(** [interface AuthTokens]: the item kept under ['auth_tokens'] by
    SecureStorageService. *)
Record AuthTokens := mkAuthTokens {
  stored_accessToken : string;
  stored_refreshToken : string;
  stored_expiresAt : Z
}.

(** [interface LoginRequest] and [interface LoginResponse] *)
Record LoginRequest := mkLoginRequest {
  email : string;
  password : string
}.

Record LoginResponse := mkLoginResponse {
  lr_accessToken : string;
  lr_refreshToken : string;
  lr_expiresIn : Z;
  lr_user : string
}.

(** What [await this.apiClient.post<LoginResponse>(...)] yields. *)
Record ApiResponse := mkApiResponse {
  success : bool;
  data : option LoginResponse
}.

Inductive PostOutcome :=
| PostResolves (r : ApiResponse)
| PostRejects (e : ApiClient.ApiError).

(** The promise returned by [performTokenRefresh()]: its identity, and
    whether it is suspended at [await this.apiClient.post(...)] (otherwise
    it has already resolved to [false] without a request). *)
Record RefreshPromise := mkRefreshPromise {
  pid : nat;
  awaitsPost : bool
}.

(** The fields of [class JWTAuthService], with the secure store, the
    emitted events, the requests posted to [/auth/refresh] and a counter
    that names the promises. *)
Record Service := mkService {
  authState : AuthState.t;
  refreshPromise : option RefreshPromise;
  refreshTimer : option Z;             (* delay of the pending [setTimeout] *)
  secureStorage : option AuthTokens;
  emitted : list AuthEvent;
  posted : list string;                (* [refreshToken] of each POST /auth/refresh *)
  nextPromise : nat
}.

Definition with_authState (a : AuthState.t) (s : Service) : Service :=
  mkService a (refreshPromise s) (refreshTimer s) (secureStorage s) (emitted s)
            (posted s) (nextPromise s).
Definition with_refreshPromise (p : option RefreshPromise) (s : Service) : Service :=
  mkService (authState s) p (refreshTimer s) (secureStorage s) (emitted s)
            (posted s) (nextPromise s).
Definition with_refreshTimer (t : option Z) (s : Service) : Service :=
  mkService (authState s) (refreshPromise s) t (secureStorage s) (emitted s)
            (posted s) (nextPromise s).
Definition with_secureStorage (k : option AuthTokens) (s : Service) : Service :=
  mkService (authState s) (refreshPromise s) (refreshTimer s) k (emitted s)
            (posted s) (nextPromise s).
Definition emitEvent (e : AuthEvent) (s : Service) : Service :=
  mkService (authState s) (refreshPromise s) (refreshTimer s) (secureStorage s)
            (emitted s ++ [e]) (posted s) (nextPromise s).
Definition post_refresh (token : string) (s : Service) : Service :=
  mkService (authState s) (refreshPromise s) (refreshTimer s) (secureStorage s)
            (emitted s) (posted s ++ [token]) (nextPromise s).
Definition fresh_promise (s : Service) : Service :=
  mkService (authState s) (refreshPromise s) (refreshTimer s) (secureStorage s)
            (emitted s) (posted s) (S (nextPromise s)).

(** The constructor. *)
Definition new : Service :=
  {| authState := AuthState.mk false None None 0;
     refreshPromise := None;
     refreshTimer := None;
     secureStorage := None;
     emitted := [];
     posted := [];
     nextPromise := 0 |}.

(** [isTokenValid] *)
Definition bufferTime : Z := 5 * 60 * 1000.

Definition isTokenValid (now : Z) (tokenInfo : JWTTokenInfo.t) : bool :=
  (now + bufferTime <? JWTTokenInfo.expiresAt tokenInfo)%Z.

(** [isCurrentTokenValid] *)
Definition isCurrentTokenValid (now : Z) (s : Service) : bool :=
  match AuthState.tokenInfo (authState s) with
  | Some tokenInfo => isTokenValid now tokenInfo
  | None => false
  end.

(** [isAuthenticated] *)
Definition isAuthenticated (now : Z) (s : Service) : bool :=
  AuthState.isAuthenticated (authState s) && isCurrentTokenValid now s.

(** [getAccessToken]: [tokenInfo?.accessToken || null] turns an empty token
    into [null]. *)
Definition getAccessToken (now : Z) (s : Service) : option string :=
  if negb (isAuthenticated now s) then None
  else match AuthState.tokenInfo (authState s) with
       | Some tokenInfo =>
           if String.eqb (JWTTokenInfo.accessToken tokenInfo) "" then None
           else Some (JWTTokenInfo.accessToken tokenInfo)
       | None => None
       end.

(** [isAuthError] *)
Definition isAuthError (error : ApiClient.ApiError) : bool :=
  String.eqb (ApiClient.api_code error) ApiClient.UNAUTHORIZED
  || String.eqb (ApiClient.api_code error) ApiClient.TOKEN_EXPIRED.

(** [saveTokenToStorage] *)
Definition saveTokenToStorage (tokenInfo : JWTTokenInfo.t) (s : Service) : Service :=
  with_secureStorage
    (Some (mkAuthTokens (JWTTokenInfo.accessToken tokenInfo)
                        (JWTTokenInfo.refreshToken tokenInfo)
                        (JWTTokenInfo.expiresAt tokenInfo))) s.

(** [clearAuthState] *)
Definition clearAuthState (s : Service) : Service :=
  let s := with_refreshTimer None s in
  let s := with_authState (AuthState.mk false None None 0) s in
  with_secureStorage None s.

(** The [catch] block of [performTokenRefresh]; [error] is [None] for the
    [Error] thrown locally, which has no [code]. *)
Definition refresh_failed (error : option ApiClient.ApiError) (s : Service)
    : Service * bool :=
  if from_option isAuthError false error
  then (emitEvent AUTHENTICATION_REQUIRED (clearAuthState s), false)
  else (emitEvent TOKEN_REFRESH_FAILED s, false).

(** [performTokenRefresh] up to its [await this.apiClient.post(...)]:
    the new state and whether the request was issued. *)
Definition performTokenRefresh_begin (s : Service) : Service * bool :=
  match AuthState.tokenInfo (authState s) with
  | Some currentTokenInfo =>
      if String.eqb (JWTTokenInfo.refreshToken currentTokenInfo) "" then (s, false)
      else (post_refresh (JWTTokenInfo.refreshToken currentTokenInfo) s, true)
  | None => (s, false)
  end.

(** A call of [refreshToken()], up to its first suspension: either it
    returns the promise already stored, or it starts the refresh. *)
Inductive RefreshCall :=
| Joined (p : RefreshPromise)
| Started (p : RefreshPromise).

Definition awaited (c : RefreshCall) : RefreshPromise :=
  match c with Joined p | Started p => p end.

Definition refreshToken_begin (s : Service) : Service * RefreshCall :=
  match refreshPromise s with
  | Some p => (s, Joined p)
  | None =>
      let '(s1, issued) := performTokenRefresh_begin s in
      let p := mkRefreshPromise (nextPromise s1) issued in
      (with_refreshPromise (Some p) (fresh_promise s1), Started p)
  end.

(** [scheduleTokenRefresh]: a timer when the token has more than ten
    minutes left, otherwise [refreshTokenSilently()] at once, which is a
    call of [refreshToken()] whose result is dropped. *)
Definition scheduleTokenRefresh (now : Z) (s : Service) : Service :=
  let s := with_refreshTimer None s in
  match AuthState.tokenInfo (authState s) with
  | None => s
  | Some tokenInfo =>
      let refreshTime := (JWTTokenInfo.expiresAt tokenInfo - now - 10 * 60 * 1000)%Z in
      if (0 <? refreshTime)%Z then with_refreshTimer (Some refreshTime) s
      else fst (refreshToken_begin s)
  end.

(** [performTokenRefresh] from the point where the request has settled. *)
Definition performTokenRefresh_end (now : Z) (outcome : PostOutcome) (s : Service)
    : Service * bool :=
  match outcome with
  | PostRejects error => refresh_failed (Some error) s
  | PostResolves response =>
      match success response, data response with
      | true, Some refreshData =>
          let newTokenInfo :=
            JWTTokenInfo.mk (lr_accessToken refreshData) (lr_refreshToken refreshData)
                            (lr_expiresIn refreshData)
                            (now + lr_expiresIn refreshData * 1000)%Z "Bearer" in
          let s := with_authState
                     (AuthState.mk (AuthState.isAuthenticated (authState s))
                                   (Some (lr_user refreshData))
                                   (Some newTokenInfo) now) s in
          let s := saveTokenToStorage newTokenInfo s in
          let s := scheduleTokenRefresh now s in
          (emitEvent TOKEN_REFRESHED s, true)
      | _, _ => refresh_failed None s
      end
  end.


(** The promise [p] settles: [performTokenRefresh] runs to its end and the
    [finally] of the call that started it clears [refreshPromise].  The
    boolean is what every call awaiting [p] resolves with. *)
Definition refreshToken_settle (now : Z) (p : RefreshPromise) (outcome : PostOutcome)
    (s : Service) : Service * bool :=
  let '(s1, r) := if awaitsPost p then performTokenRefresh_end now outcome s
                  else (s, false) in
  (with_refreshPromise None s1, r).

(** [refreshToken()] run without interruption; [None] when it can only
    wait for a refresh started elsewhere. *)
Definition refreshToken (now : Z) (outcome : PostOutcome) (s : Service)
    : option (Service * bool) :=
  match refreshToken_begin s with
  | (s1, Started p) => Some (refreshToken_settle now p outcome s1)
  | (_, Joined _) => None
  end.

(** [forceRefreshToken()], up to its first suspension. *)
Definition forceRefreshToken_begin (s : Service) : Service * RefreshCall :=
  refreshToken_begin (with_refreshPromise None s).

(** [n] calls of [refreshToken()] in a row, none of them resumed yet. *)
Fixpoint refresh_calls (n : nat) (s : Service) : Service * list RefreshCall :=
  match n with
  | O => (s, [])
  | S n' =>
      let '(s1, c) := refreshToken_begin s in
      let '(s2, cs) := refresh_calls n' s1 in
      (s2, c :: cs)
  end.

(** ASCII white space, for [\s] in the e-mail pattern. *)
Definition is_space (a : ascii) : bool :=
  let n := nat_of_ascii a in
  (n =? 32)%nat || ((9 <=? n)%nat && (n <=? 13)%nat).

(** [[^\s@]+] over the whole of [s] *)
Fixpoint plain (s : string) : bool :=
  match s with
  | "" => true
  | String a rest => negb (is_space a) && negb (Ascii.eqb a "@") && plain rest
  end.

Definition plain1 (s : string) : bool := negb (String.eqb s "") && plain s.

(** [[^\s@]+\.[^\s@]+] over the whole of [s]: some dot has a non-empty
    plain text on both sides. *)
Fixpoint dotted (before s : string) : bool :=
  match s with
  | "" => false
  | String a rest =>
      (Ascii.eqb a "." && plain1 before && plain1 rest)
      || dotted (before +:+ String a "") rest
  end.

(** [/^[^\s@]+@[^\s@]+\.[^\s@]+$/.test(s)] *)
Fixpoint emailRegex_from (before s : string) : bool :=
  match s with
  | "" => false
  | String a rest =>
      if Ascii.eqb a "@" then plain1 before && dotted "" rest
      else emailRegex_from (before +:+ String a "") rest
  end.

Definition emailRegex (s : string) : bool := emailRegex_from "" s.

(** [validateLoginRequest]: the message of the [Error] it throws, if any.
    Lengths are counted in bytes, as JavaScript counts them on ASCII text. *)
Definition validateLoginRequest (request : LoginRequest) : option string :=
  if String.eqb (email request) "" || String.eqb (password request) ""
  then Some "Email and password are required"
  else if negb (emailRegex (email request))
  then Some "Invalid email format"
  else if (String.length (password request) <? 6)%nat
  then Some "Password must be at least 6 characters long"
  else None.

(** [login]; [true] when it returns the login data, [false] when it throws. *)
Definition login (now : Z) (request : LoginRequest) (outcome : PostOutcome)
    (s : Service) : Service * bool :=
  match validateLoginRequest request with
  | Some _ => (emitEvent LOGIN_FAILED s, false)
  | None =>
      match outcome with
      | PostRejects _ => (emitEvent LOGIN_FAILED s, false)
      | PostResolves response =>
          match success response, data response with
          | true, Some loginData =>
              let tokenInfo :=
                JWTTokenInfo.mk (lr_accessToken loginData) (lr_refreshToken loginData)
                                (lr_expiresIn loginData)
                                (now + lr_expiresIn loginData * 1000)%Z "Bearer" in
              let s := with_authState
                         (AuthState.mk true (Some (lr_user loginData))
                                       (Some tokenInfo) now) s in
              let s := saveTokenToStorage tokenInfo s in
              let s := scheduleTokenRefresh now s in
              (emitEvent LOGIN_SUCCESS s, true)
          | _, _ => (emitEvent LOGIN_FAILED s, false)
          end
      end
  end.

(** [logout]: the reply of POST /auth/logout does not influence it. *)
Definition logout (s : Service) : Service :=
  emitEvent LOGOUT (clearAuthState s).

(** ** Auxiliary definitions for the properties below *)

Definition signed_in : Service :=
  fst (login 0 (mkLoginRequest "demo@xiaoxiang.com" "demo123")
         (PostResolves (mkApiResponse true
            (Some (mkLoginResponse "access-1" "refresh-1" 3600 "demo"))))
         new).

(** A session in which [logout()] runs while a refresh is in flight, and
    the refresh then succeeds. *)
Definition refreshed_after_logout : Service :=
  let '(s1, c) := refreshToken_begin signed_in in
  let s2 := logout s1 in
  fst (refreshToken_settle 1000 (awaited c)
         (PostResolves (mkApiResponse true
            (Some (mkLoginResponse "access-2" "refresh-2" 3600 "demo"))))
         s2).

End JWTAuth.

(* ===================================================================== *)
(** * Realtime transport *)
(* ===================================================================== *)

Module WebSocket.

(** [enum WebSocketState] *)
Inductive WebSocketState :=
| CONNECTING | CONNECTED | DISCONNECTED | RECONNECTING | ERROR.

(** [enum WebSocketEvent] *)
Inductive WebSocketEvent :=
| NEW_MESSAGE | MESSAGE_READ | USER_STATUS | TYPING | HEARTBEAT | ERROR_EVENT.

(** [interface WebSocketMessage] *)
Record WebSocketMessage := mkMessage {
  type : string;
  event : WebSocketEvent;
  data : string;
  requestId : option string
}.

(** [interface WebSocketConfig] *)
Record WebSocketConfig := mkConfig {
  url : string;
  reconnectInterval : Z;
  maxReconnectAttempts : nat;
  heartbeatInterval : Z;
  connectionTimeout : Z
}.

(** What the transport reads from its collaborators during one handler:
    [authService.isAuthenticated()], [networkManager.isConnected()],
    whether [new WebSocket(...)] throws, and whether [ws.send] accepts a
    frame. *)
Record Env := mkEnv {
  authenticated : bool;
  online : bool;
  socketThrows : bool;
  transmits : WebSocketMessage -> bool
}.

(** The result of the promise returned by [send]. *)
Inductive SendResult :=
| ResolvesUndefined                   (* [resolve(undefined)] *)
| Rejects                             (* [reject(error)] from [ws.send] *)
| AwaitsResponse (requestId : string) (* left to a response or the 10 s timeout *).

(** The fields of [class WebSocketService], with the frames handed to
    [ws.send], the sockets created, the response timeouts armed and the
    events dispatched to listeners. *)
Record Service := mkService {
  config : WebSocketConfig;
  ws : option nat;
  state : WebSocketState;
  reconnectAttempts : nat;
  reconnectTimer : option Z;            (* delay of the pending [setTimeout] *)
  heartbeatTimer : bool;
  connectionTimer : bool;
  messageQueue : list WebSocketMessage;
  requestCallbacks : gset string;       (* keys of the pending callbacks *)
  transmitted : list WebSocketMessage;
  socketsCreated : nat;
  responseTimeouts : list string;       (* request ids with a 10 s timer armed *)
  dispatched : list WebSocketMessage
}.

Definition with_ws (w : option nat) (s : Service) : Service :=
  mkService (config s) w (state s) (reconnectAttempts s) (reconnectTimer s)
    (heartbeatTimer s) (connectionTimer s) (messageQueue s) (requestCallbacks s)
    (transmitted s) (socketsCreated s) (responseTimeouts s) (dispatched s).
Definition with_reconnectAttempts (n : nat) (s : Service) : Service :=
  mkService (config s) (ws s) (state s) n (reconnectTimer s)
    (heartbeatTimer s) (connectionTimer s) (messageQueue s) (requestCallbacks s)
    (transmitted s) (socketsCreated s) (responseTimeouts s) (dispatched s).
Definition with_reconnectTimer (t : option Z) (s : Service) : Service :=
  mkService (config s) (ws s) (state s) (reconnectAttempts s) t
    (heartbeatTimer s) (connectionTimer s) (messageQueue s) (requestCallbacks s)
    (transmitted s) (socketsCreated s) (responseTimeouts s) (dispatched s).
Definition with_heartbeatTimer (b : bool) (s : Service) : Service :=
  mkService (config s) (ws s) (state s) (reconnectAttempts s) (reconnectTimer s)
    b (connectionTimer s) (messageQueue s) (requestCallbacks s)
    (transmitted s) (socketsCreated s) (responseTimeouts s) (dispatched s).
Definition with_connectionTimer (b : bool) (s : Service) : Service :=
  mkService (config s) (ws s) (state s) (reconnectAttempts s) (reconnectTimer s)
    (heartbeatTimer s) b (messageQueue s) (requestCallbacks s)
    (transmitted s) (socketsCreated s) (responseTimeouts s) (dispatched s).
Definition with_messageQueue (q : list WebSocketMessage) (s : Service) : Service :=
  mkService (config s) (ws s) (state s) (reconnectAttempts s) (reconnectTimer s)
    (heartbeatTimer s) (connectionTimer s) q (requestCallbacks s)
    (transmitted s) (socketsCreated s) (responseTimeouts s) (dispatched s).
Definition with_requestCallbacks (c : gset string) (s : Service) : Service :=
  mkService (config s) (ws s) (state s) (reconnectAttempts s) (reconnectTimer s)
    (heartbeatTimer s) (connectionTimer s) (messageQueue s) c
    (transmitted s) (socketsCreated s) (responseTimeouts s) (dispatched s).
Definition ws_send (m : WebSocketMessage) (s : Service) : Service :=
  mkService (config s) (ws s) (state s) (reconnectAttempts s) (reconnectTimer s)
    (heartbeatTimer s) (connectionTimer s) (messageQueue s) (requestCallbacks s)
    (transmitted s ++ [m]) (socketsCreated s) (responseTimeouts s) (dispatched s).
Definition new_WebSocket (s : Service) : Service :=
  mkService (config s) (Some (socketsCreated s)) (state s) (reconnectAttempts s)
    (reconnectTimer s) (heartbeatTimer s) (connectionTimer s) (messageQueue s)
    (requestCallbacks s) (transmitted s) (S (socketsCreated s))
    (responseTimeouts s) (dispatched s).
Definition arm_response_timeout (rid : string) (s : Service) : Service :=
  mkService (config s) (ws s) (state s) (reconnectAttempts s) (reconnectTimer s)
    (heartbeatTimer s) (connectionTimer s) (messageQueue s) (requestCallbacks s)
    (transmitted s) (socketsCreated s) (responseTimeouts s ++ [rid]) (dispatched s).
Definition dispatch (m : WebSocketMessage) (s : Service) : Service :=
  mkService (config s) (ws s) (state s) (reconnectAttempts s) (reconnectTimer s)
    (heartbeatTimer s) (connectionTimer s) (messageQueue s) (requestCallbacks s)
    (transmitted s) (socketsCreated s) (responseTimeouts s) (dispatched s ++ [m]).

(** [setState] *)
Definition setState (newState : WebSocketState) (s : Service) : Service :=
  mkService (config s) (ws s) newState (reconnectAttempts s) (reconnectTimer s)
    (heartbeatTimer s) (connectionTimer s) (messageQueue s) (requestCallbacks s)
    (transmitted s) (socketsCreated s) (responseTimeouts s) (dispatched s).

Definition state_eqb (a b : WebSocketState) : bool :=
  match a, b with
  | CONNECTING, CONNECTING | CONNECTED, CONNECTED | DISCONNECTED, DISCONNECTED
  | RECONNECTING, RECONNECTING | ERROR, ERROR => true
  | _, _ => false
  end.

(** The constructor. *)
Definition new (wsUrl : string) : Service :=
  {| config := mkConfig wsUrl 5000 5 30000 10000;
     ws := None;
     state := DISCONNECTED;
     reconnectAttempts := 0;
     reconnectTimer := None;
     heartbeatTimer := false;
     connectionTimer := false;
     messageQueue := [];
     requestCallbacks := ∅;
     transmitted := [];
     socketsCreated := 0;
     responseTimeouts := [];
     dispatched := [] |}.

(** [clearTimers] *)
Definition clearTimers (s : Service) : Service :=
  with_heartbeatTimer false (with_reconnectTimer None (with_connectionTimer false s)).

(** [needsResponse] *)
Definition needsResponse (_event : WebSocketEvent) : bool := false.

(** [attemptReconnect] *)
Definition attemptReconnect (env : Env) (s : Service) : Service :=
  if (maxReconnectAttempts (config s) <=? reconnectAttempts s)%nat
  then setState ERROR s
  else if negb (authenticated env) || negb (online env) then s
  else
    let s := with_reconnectAttempts (S (reconnectAttempts s)) s in
    let s := setState RECONNECTING s in
    let delay :=
      Z.min (reconnectInterval (config s)
             * 2 ^ (Z.of_nat (reconnectAttempts s) - 1)) 30000 in
    with_reconnectTimer (Some delay) s.

(** [handleConnectionError] *)
Definition handleConnectionError (env : Env) (s : Service) : Service :=
  attemptReconnect env (setState ERROR (clearTimers s)).

(** [handleConnectionTimeout] *)
Definition handleConnectionTimeout (env : Env) (s : Service) : Service :=
  handleConnectionError env s.

(** [handleNetworkDisconnect] *)
Definition handleNetworkDisconnect (s : Service) : Service :=
  setState DISCONNECTED (clearTimers s).

(** [connect] *)
Definition connect (env : Env) (s : Service) : Service :=
  if state_eqb (state s) CONNECTING || state_eqb (state s) CONNECTED then s
  else if negb (authenticated env) then s
  else if negb (online env) then s
  else
    let s := setState CONNECTING s in
    if socketThrows env then handleConnectionError env s
    else with_connectionTimer true (new_WebSocket s).

(** [disconnect] *)
Definition disconnect (s : Service) : Service :=
  let s := clearTimers s in
  let s := with_reconnectAttempts 0 s in
  let s := with_ws None s in
  setState DISCONNECTED s.

(** [send], for the request id drawn by [generateRequestId]. *)
Definition send (env : Env) (rid : string) (message : WebSocketMessage)
    (s : Service) : Service * SendResult :=
  let fullMessage :=
    mkMessage (type message) (event message) (data message) (Some rid) in
  if state_eqb (state s) CONNECTED && bool_decide (is_Some (ws s)) then
    if transmits env fullMessage then
      let s := ws_send fullMessage s in
      if needsResponse (event message) then
        (arm_response_timeout rid
           (with_requestCallbacks ({[ rid ]} ∪ requestCallbacks s) s),
         AwaitsResponse rid)
      else (s, ResolvesUndefined)
    else (s, Rejects)
  else (with_messageQueue (messageQueue s ++ [fullMessage]) s, ResolvesUndefined).

(** [sendHeartbeat] *)
Definition sendHeartbeat (env : Env) (rid : string) (timestamp : string)
    (s : Service) : Service :=
  fst (send env rid (mkMessage "heartbeat" HEARTBEAT timestamp None) s).

(** [sendQueuedMessages] *)
Definition sendQueuedMessages (env : Env) (s : Service) : Service :=
  let messages := messageQueue s in
  fold_left
    (fun s message =>
       if bool_decide (is_Some (ws s)) && state_eqb (state s) CONNECTED then
         if transmits env message then ws_send message s
         else with_messageQueue (messageQueue s ++ [message]) s
       else s)
    messages (with_messageQueue [] s).

(** The [onopen] handler. *)
Definition onopen (env : Env) (s : Service) : Service :=
  let s := clearTimers s in
  let s := setState CONNECTED s in
  let s := with_reconnectAttempts 0 s in
  let s := sendQueuedMessages env s in
  with_heartbeatTimer true s.

(** The [onclose] handler. *)
Definition onclose (env : Env) (code : Z) (s : Service) : Service :=
  let s := setState DISCONNECTED (clearTimers s) in
  if negb (code =? 1000)%Z then attemptReconnect env s else s.

(** The [onerror] handler. *)
Definition onerror (env : Env) (s : Service) : Service :=
  handleConnectionError env s.

(** [handleMessage], for a frame that parsed ([Some]) or did not. *)
Definition handleMessage (frame : option WebSocketMessage) (s : Service) : Service :=
  match frame with
  | None => s
  | Some message =>
      match requestId message with
      | Some rid =>
          if negb (String.eqb rid "") && bool_decide (rid ∈ requestCallbacks s)
          then with_requestCallbacks (requestCallbacks s ∖ {[ rid ]}) s
          else dispatch message s
      | None => dispatch message s
      end
  end.

(** The listener registered with the NetworkManager. *)
Definition networkListener (env : Env) (isConnected : bool) (s : Service) : Service :=
  if negb isConnected && state_eqb (state s) CONNECTED then handleNetworkDisconnect s
  else if isConnected && state_eqb (state s) DISCONNECTED then connect env s
  else s.

(** What the environment can deliver to the transport. *)
Inductive Input :=
| CallConnect
| CallDisconnect
| CallSend (rid : string) (message : WebSocketMessage)
| SocketOpen
| SocketClose (code : Z)
| SocketError
| SocketMessage (frame : option WebSocketMessage)
| ConnectionTimerFires
| ReconnectTimerFires
| HeartbeatTimerFires (rid timestamp : string)
| ResponseTimeoutFires (rid : string)
| NetworkChange (isConnected : bool)
| AuthLogout.

Definition step (env : Env) (i : Input) (s : Service) : Service :=
  match i with
  | CallConnect => connect env s
  | CallDisconnect | AuthLogout => disconnect s
  | CallSend rid message => fst (send env rid message s)
  | SocketOpen => onopen env s
  | SocketClose code => onclose env code s
  | SocketError => onerror env s
  | SocketMessage frame => handleMessage frame s
  | ConnectionTimerFires =>
      if connectionTimer s then
        let s := with_connectionTimer false s in
        if state_eqb (state s) CONNECTING then handleConnectionTimeout env s else s
      else s
  | ReconnectTimerFires =>
      match reconnectTimer s with
      | Some _ => connect env (with_reconnectTimer None s)
      | None => s
      end
  | HeartbeatTimerFires rid timestamp =>
      if heartbeatTimer s then sendHeartbeat env rid timestamp s else s
  | ResponseTimeoutFires rid =>
      if bool_decide (rid ∈ requestCallbacks s)
      then with_requestCallbacks (requestCallbacks s ∖ {[ rid ]}) s
      else s
  | NetworkChange isConnected => networkListener env isConnected s
  end.

(** A run: each input is handled under the environment of its moment. *)
Definition run (inputs : list (Env * Input)) (s : Service) : Service :=
  fold_left (fun s ei => step (fst ei) (snd ei) s) inputs s.








(** ** Auxiliary definitions for the properties below *)

(** No handler registers a response callback or arms a response timeout. *)
Definition no_pending (s : Service) : Prop :=
  requestCallbacks s = ∅ /\ responseTimeouts s = [].

Definition online_env : Env := mkEnv true true false (fun _ => true).

Definition connected : Service :=
  run [(online_env, CallConnect); (online_env, SocketOpen)] (new "wss://ws.xiaoxiang.com").

Definition typing_frame : WebSocketMessage := mkMessage "typing" TYPING "chat-1" None.







End WebSocket.

(* ===================================================================== *)
(** * Offline-first sync engine *)
(* ===================================================================== *)

Module Sync.

(** [enum SyncDataType], [enum SyncAction], [enum ConflictType] *)
Inductive SyncDataType := MESSAGES | CHATS | USERS | DEPARTMENTS.
Inductive SyncAction := CREATE | UPDATE | DELETE.
Inductive ConflictType := VERSION_CONFLICT | DELETED_ON_SERVER | PERMISSION_DENIED.

(** The [data: any] of a change: the [id] the database keys its rows by,
    and the rest of the record as opaque text. *)
Record Entity := mkEntity {
  entity_id : string;
  entity_body : string
}.

(** [interface LocalChange] *)
Module LocalChange.
Record t := mk {
  type : SyncDataType;
  action : SyncAction;
  data : Entity;
  clientId : string;
  timestamp : string
}.
End LocalChange.

(** [interface SyncChange] *)
Module SyncChange.
Record t := mk {
  type : SyncDataType;
  action : SyncAction;
  data : Entity;
  id : string;
  timestamp : string;
  version : Z
}.
End SyncChange.

(** [interface SyncConflict] *)
Module SyncConflict.
Record t := mk {
  clientId : string;
  type : ConflictType;
  serverData : Entity;
  localData : Entity
}.
End SyncConflict.

(** [interface UploadChangesResponse], [interface SyncChangesResponse] *)
Record UploadChangesResponse := mkUploadResponse {
  conflicts : list SyncConflict.t;
  processed : list string
}.

Record SyncChangesResponse := mkChangesResponse {
  changes : list SyncChange.t;
  hasMore : bool;
  nextToken : option string
}.

(** What [await this.apiClient.post/get(...)] yields. *)
Record ApiResponse (T : Type) := mkApiResponse {
  success : bool;
  data : option T
}.
Arguments mkApiResponse {T}.
Arguments success {T}.
Arguments data {T}.

Inductive Reply (T : Type) :=
| Resolves (r : ApiResponse T)
| Throws (e : ApiClient.ApiError).
Arguments Resolves {T}.
Arguments Throws {T}.

(** The remote authority: its reply to the [k]-th POST /sync/upload of the
    run, and to the [k]-th GET /sync/changes. *)
Record Remote := mkRemote {
  upload : nat -> list LocalChange.t -> Reply UploadChangesResponse;
  download : nat -> Z -> option string -> Reply SyncChangesResponse
}.

(** What StorageService keeps under a key of AsyncStorage. *)
Inductive StoredValue :=
| VChange (c : LocalChange.t)       (* written by [saveLocalChange] *)
| VNumber (n : Z)                   (* ['last_sync_time'] *)
| VConflict (c : SyncConflict.t)    (* written by [saveConflictForManualResolution] *)
| VCorrupt (text : string)          (* text that does not parse *).

(** The tables of DatabaseService the engine writes to ([INSERT OR REPLACE]
    by [id]). *)
Record Database := mkDatabase {
  messages : gmap string Entity;
  chats : gmap string Entity;
  users : gmap string Entity
}.

Inductive ErrorType := upload_error | download_error | conflict_error.

(** [interface SyncError], without [id], [timestamp] and [data]. *)
Record SyncError := mkSyncError {
  error_type : ErrorType;
  error_message : string
}.

(** [interface SyncState] *)
Record SyncState := mkSyncState {
  isOnline : bool;
  isSyncing : bool;
  lastSyncTime : Z;
  pendingChanges : nat;
  conflictCount : nat;
  errors : list SyncError
}.

(** [enum ConflictResolutionStrategy] *)
Inductive ConflictResolutionStrategy := SERVER_WINS | CLIENT_WINS | MANUAL | MERGE.

(** [interface SyncConfig] *)
Record SyncConfig := mkSyncConfig {
  batchSize : nat;
  syncInterval : Z;
  retryAttempts : nat;
  retryDelay : Z;
  conflictResolution : ConflictResolutionStrategy
}.

(** [enum SyncEvent] *)
Inductive SyncEvent :=
| SYNC_STARTED | SYNC_COMPLETED | SYNC_FAILED
| CONFLICT_DETECTED | DATA_CHANGED | ONLINE_STATUS_CHANGED.

(** The fields of [class OfflineFirstSyncService] with its collaborators'
    contents, the emitted events, the batches posted to /sync/upload, the
    number of GET /sync/changes issued, the delays slept and the pending
    [setTimeout(() => this.startSync(), ...)] timers. *)
Record Service := mkService {
  storage : gmap string StoredValue;
  db : Database;
  syncState : SyncState;
  config : SyncConfig;
  emitted : list SyncEvent;
  uploads : list (list LocalChange.t);
  downloads : nat;
  slept : list Z;
  timers : list Z
}.

Definition with_storage (st : gmap string StoredValue) (s : Service) : Service :=
  mkService st (db s) (syncState s) (config s) (emitted s) (uploads s)
            (downloads s) (slept s) (timers s).
Definition with_db (d : Database) (s : Service) : Service :=
  mkService (storage s) d (syncState s) (config s) (emitted s) (uploads s)
            (downloads s) (slept s) (timers s).
Definition with_syncState (y : SyncState) (s : Service) : Service :=
  mkService (storage s) (db s) y (config s) (emitted s) (uploads s)
            (downloads s) (slept s) (timers s).
Definition with_config (c : SyncConfig) (s : Service) : Service :=
  mkService (storage s) (db s) (syncState s) c (emitted s) (uploads s)
            (downloads s) (slept s) (timers s).
Definition emitEvent (e : SyncEvent) (s : Service) : Service :=
  mkService (storage s) (db s) (syncState s) (config s) (emitted s ++ [e])
            (uploads s) (downloads s) (slept s) (timers s).
Definition post_upload (batch : list LocalChange.t) (s : Service) : Service :=
  mkService (storage s) (db s) (syncState s) (config s) (emitted s)
            (uploads s ++ [batch]) (downloads s) (slept s) (timers s).
Definition get_changes (s : Service) : Service :=
  mkService (storage s) (db s) (syncState s) (config s) (emitted s)
            (uploads s) (S (downloads s)) (slept s) (timers s).
Definition sleep (ms : Z) (s : Service) : Service :=
  mkService (storage s) (db s) (syncState s) (config s) (emitted s)
            (uploads s) (downloads s) (slept s ++ [ms]) (timers s).
Definition setTimeout_startSync (ms : Z) (s : Service) : Service :=
  mkService (storage s) (db s) (syncState s) (config s) (emitted s)
            (uploads s) (downloads s) (slept s) (timers s ++ [ms]).

Definition set_isOnline (b : bool) (y : SyncState) : SyncState :=
  mkSyncState b (isSyncing y) (lastSyncTime y) (pendingChanges y)
              (conflictCount y) (errors y).
Definition set_isSyncing (b : bool) (y : SyncState) : SyncState :=
  mkSyncState (isOnline y) b (lastSyncTime y) (pendingChanges y)
              (conflictCount y) (errors y).
Definition set_lastSyncTime (t : Z) (y : SyncState) : SyncState :=
  mkSyncState (isOnline y) (isSyncing y) t (pendingChanges y)
              (conflictCount y) (errors y).
Definition set_pendingChanges (n : nat) (y : SyncState) : SyncState :=
  mkSyncState (isOnline y) (isSyncing y) (lastSyncTime y) n
              (conflictCount y) (errors y).
Definition set_conflictCount (n : nat) (y : SyncState) : SyncState :=
  mkSyncState (isOnline y) (isSyncing y) (lastSyncTime y) (pendingChanges y)
              n (errors y).
Definition set_errors (e : list SyncError) (y : SyncState) : SyncState :=
  mkSyncState (isOnline y) (isSyncing y) (lastSyncTime y) (pendingChanges y)
              (conflictCount y) e.

(** The constructor. *)
Definition default_config : SyncConfig :=
  {| batchSize := 50;
     syncInterval := 30000;
     retryAttempts := 3;
     retryDelay := 5000;
     conflictResolution := SERVER_WINS |}.

Definition new : Service :=
  {| storage := ∅;
     db := mkDatabase ∅ ∅ ∅;
     syncState := mkSyncState true false 0 0 0 [];
     config := default_config;
     emitted := [];
     uploads := [];
     downloads := 0;
     slept := [];
     timers := [] |}.

(** The key [`local_change_${clientId}`]. *)
Definition journal_prefix : string := "local_change_".
Definition journal_key (clientId : string) : string := journal_prefix +:+ clientId.

(** [saveLocalChange] *)
Definition saveLocalChange (change : LocalChange.t) (s : Service) : Service :=
  with_storage (<[journal_key (LocalChange.clientId change) := VChange change]> (storage s)) s.

(** [a.timestamp.localeCompare(b.timestamp) <= 0], by code unit; the two
    orders agree on the texts [toISOString] produces. *)
Definition timestamp_le (a b : LocalChange.t) : bool :=
  String.leb (LocalChange.timestamp a) (LocalChange.timestamp b).

(** [Array.prototype.sort] with that comparator: a stable sort. *)
Fixpoint insert_sorted (c : LocalChange.t) (l : list LocalChange.t) : list LocalChange.t :=
  match l with
  | [] => [c]
  | x :: rest =>
      if timestamp_le c x then c :: x :: rest else x :: insert_sorted c rest
  end.

Definition sort_changes (l : list LocalChange.t) : list LocalChange.t :=
  fold_right insert_sorted [] l.

(** What the loop of [getLocalChanges] pushes for one key: the change that
    the stored text parses to, if it does.  (The service itself stores
    nothing but changes under a journal key.) *)
Definition read_change (st : gmap string StoredValue) (key : string)
    : option LocalChange.t :=
  match st !! key with
  | Some (VChange change) => Some change
  | _ => None
  end.

(** [getLocalChanges]: the keys are read in the order the store lists
    them; the result is sorted. *)
Definition getLocalChanges (st : gmap string StoredValue) : list LocalChange.t :=
  let keys := (map_to_list st).*1 in
  let changeKeys := List.filter (String.prefix journal_prefix) keys in
  sort_changes (omap (read_change st) changeKeys).

(** [removeLocalChange] *)
Definition removeLocalChange (clientId : string) (s : Service) : Service :=
  with_storage (delete (journal_key clientId) (storage s)) s.

(** [removeProcessedChanges] *)
Definition removeProcessedChanges (clientIds : list string) (s : Service) : Service :=
  fold_left (fun s clientId => removeLocalChange clientId s) clientIds s.

(** [updateLocalChange] *)
Definition updateLocalChange (clientId : string) (newData : Entity) (s : Service)
    : Service :=
  match storage s !! journal_key clientId with
  | Some (VChange change) =>
      let change' :=
        LocalChange.mk (LocalChange.type change) (LocalChange.action change)
                       newData (LocalChange.clientId change)
                       (LocalChange.timestamp change) in
      with_storage (<[journal_key clientId := VChange change']> (storage s)) s
  | _ => s
  end.

(** [updatePendingChangesCount] *)
Definition updatePendingChangesCount (s : Service) : Service :=
  with_syncState
    (set_pendingChanges (List.length (getLocalChanges (storage s))) (syncState s)) s.

(** [generateClientId] *)
Definition generateClientId (now : Z) (random : string) : string :=
  "local_" +:+ pretty now +:+ "_" +:+ random.

(** [chunkArray]: the [for (let i = 0; i < array.length; i += size)] loop,
    one iteration per unit of [fuel]. *)
Fixpoint chunkArray_from {T : Type} (fuel : nat) (array : list T) (size i : nat)
    : option (list (list T)) :=
  if (i <? List.length array)%nat then
    match fuel with
    | O => None
    | S fuel' =>
        match chunkArray_from fuel' array size (i + size) with
        | Some chunks => Some (take size (drop i array) :: chunks)
        | None => None
        end
    end
  else Some [].

Definition chunkArray {T : Type} (fuel : nat) (array : list T) (size : nat)
    : option (list (list T)) :=
  chunkArray_from fuel array size 0.

(** [addSyncError] *)
Definition addSyncError (ty : ErrorType) (msg : string) (s : Service) : Service :=
  let errs := (errors (syncState s) ++ [mkSyncError ty msg])%list in
  let errs := if (50 <? List.length errs)%nat
              then drop (List.length errs - 50) errs else errs in
  with_syncState (set_errors errs (syncState s)) s.

(** [saveConflictForManualResolution] *)
Definition saveConflictForManualResolution (conflict : SyncConflict.t) (s : Service)
    : Service :=
  with_storage
    (<["conflict_" +:+ SyncConflict.clientId conflict := VConflict conflict]> (storage s)) s.

(** [mergeConflictData] *)
Definition mergeConflictData (serverData localData : Entity) : option Entity := None.

(** [getUnresolvedConflicts] *)
Definition getUnresolvedConflicts (s : Service) : list SyncConflict.t := [].

Definition manual_resolution (conflict : SyncConflict.t) (s : Service) : Service :=
  let s := saveConflictForManualResolution conflict s in
  let s := with_syncState
             (set_conflictCount (S (conflictCount (syncState s))) (syncState s)) s in
  emitEvent CONFLICT_DETECTED s.

(** [resolveConflict] *)
Definition resolveConflict (conflict : SyncConflict.t) (s : Service) : Service :=
  match conflictResolution (config s) with
  | SERVER_WINS => removeLocalChange (SyncConflict.clientId conflict) s
  | CLIENT_WINS => s
  | MANUAL => manual_resolution conflict s
  | MERGE =>
      match mergeConflictData (SyncConflict.serverData conflict)
                              (SyncConflict.localData conflict) with
      | Some mergedData =>
          updateLocalChange (SyncConflict.clientId conflict) mergedData s
      | None => manual_resolution conflict s
      end
  end.

(** [handleUploadConflicts] *)
Definition handleUploadConflicts (cs : list SyncConflict.t) (s : Service) : Service :=
  fold_left (fun s conflict => resolveConflict conflict s) cs s.

(** [resolveConflicts] *)
Definition resolveConflicts (s : Service) : Service :=
  fold_left (fun s conflict => resolveConflict conflict s) (getUnresolvedConflicts s) s.

(** How an [async] method ends: it returns, or it throws. *)
Inductive Outcome :=
| Returns (s : Service)
| Raises (error : ApiClient.ApiError) (s : Service).

(** [uploadBatch]: the [while (attempt < this.config.retryAttempts)] loop;
    [remaining] counts the passes still allowed. *)
Fixpoint uploadBatch_loop (remote : Remote) (batch : list LocalChange.t)
    (remaining attempt : nat) (s : Service) : Outcome :=
  match remaining with
  | O => Returns s
  | S remaining' =>
      let reply := upload remote (List.length (uploads s)) batch in
      let s := post_upload batch s in
      match reply with
      | Resolves response =>
          match success response, data response with
          | true, Some d =>
              let s := if (0 <? List.length (conflicts d))%nat
                       then handleUploadConflicts (conflicts d) s else s in
              Returns (removeProcessedChanges (processed d) s)
          | _, _ => Returns s
          end
      | Throws error =>
          let attempt' := S attempt in
          if (retryAttempts (config s) <=? attempt')%nat then Raises error s
          else uploadBatch_loop remote batch remaining' attempt'
                 (sleep (retryDelay (config s) * Z.of_nat attempt') s)
      end
  end.

Definition uploadBatch (remote : Remote) (batch : list LocalChange.t) (s : Service)
    : Outcome :=
  uploadBatch_loop remote batch (retryAttempts (config s)) 0 s.

(** The [for (const batch of batches)] loop of [uploadLocalChanges]. *)
Fixpoint upload_batches (remote : Remote) (batches : list (list LocalChange.t))
    (s : Service) : Outcome :=
  match batches with
  | [] => Returns s
  | batch :: rest =>
      match uploadBatch remote batch s with
      | Returns s' => upload_batches remote rest s'
      | Raises e s' => Raises e s'
      end
  end.

(** [uploadLocalChanges]; [None] when [fuel] does not cover [chunkArray]. *)
Definition uploadLocalChanges (fuel : nat) (remote : Remote) (s : Service)
    : option Outcome :=
  let localChanges := getLocalChanges (storage s) in
  if (List.length localChanges =? 0)%nat then Some (Returns s)
  else
    match chunkArray fuel localChanges (batchSize (config s)) with
    | Some batches => Some (upload_batches remote batches s)
    | None => None
    end.

Definition save_row (table : gmap string Entity) (row : Entity) : gmap string Entity :=
  <[entity_id row := row]> table.

(** [applyMessageChange], [applyChatChange], [applyUserChange],
    [applyDepartmentChange] *)
Definition applyMessageChange (action : SyncAction) (row : Entity) (d : Database)
    : Database :=
  match action with
  | CREATE | UPDATE => mkDatabase (save_row (messages d) row) (chats d) (users d)
  | DELETE => d
  end.

Definition applyChatChange (action : SyncAction) (row : Entity) (d : Database)
    : Database :=
  match action with
  | CREATE | UPDATE => mkDatabase (messages d) (save_row (chats d) row) (users d)
  | DELETE => d
  end.

Definition applyUserChange (action : SyncAction) (row : Entity) (d : Database)
    : Database :=
  match action with
  | CREATE | UPDATE => mkDatabase (messages d) (chats d) (save_row (users d) row)
  | DELETE => d
  end.

Definition applyDepartmentChange (action : SyncAction) (row : Entity) (d : Database)
    : Database := d.

(** [applyServerChange] *)
Definition applyServerChange (change : SyncChange.t) (d : Database) : Database :=
  match SyncChange.type change with
  | MESSAGES => applyMessageChange (SyncChange.action change) (SyncChange.data change) d
  | CHATS => applyChatChange (SyncChange.action change) (SyncChange.data change) d
  | USERS => applyUserChange (SyncChange.action change) (SyncChange.data change) d
  | DEPARTMENTS =>
      applyDepartmentChange (SyncChange.action change) (SyncChange.data change) d
  end.

(** [applyServerChanges] *)
Definition applyServerChanges (cs : list SyncChange.t) (s : Service) : Service :=
  fold_left
    (fun s change => emitEvent DATA_CHANGED (with_db (applyServerChange change (db s)) s))
    cs s.

(** [downloadServerChanges]: the [while (hasMore)] loop, one page per unit
    of [fuel]; [None] when the fuel runs out before a last page. *)
Fixpoint download_loop (fuel : nat) (remote : Remote) (since : Z)
    (token : option string) (s : Service) : option Outcome :=
  match fuel with
  | O => None
  | S fuel' =>
      let reply := download remote (downloads s) since token in
      let s := get_changes s in
      match reply with
      | Throws error => Some (Raises error s)
      | Resolves response =>
          match success response, data response with
          | true, Some d =>
              let s := if (0 <? List.length (changes d))%nat
                       then applyServerChanges (changes d) s else s in
              if hasMore d then download_loop fuel' remote since (nextToken d) s
              else Some (Returns s)
          | _, _ => Some (Returns s)
          end
      end
  end.

Definition downloadServerChanges (fuel : nat) (remote : Remote) (s : Service)
    : option Outcome :=
  download_loop fuel remote (lastSyncTime (syncState s)) None s.

(** The [catch] and [finally] of [startSync]. *)
Definition sync_failed (error : ApiClient.ApiError) (s : Service) : Service :=
  let s := addSyncError upload_error
             (ApiClient.or_else (ApiClient.api_message error) "Unknown sync error") s in
  emitEvent SYNC_FAILED s.

Definition sync_finally (s : Service) : Service :=
  with_syncState (set_isSyncing false (syncState s)) s.

(** [startSync]; [None] when [fuel] does not cover its loops. *)
Definition startSync (fuel : nat) (force : bool) (remote : Remote) (now : Z)
    (s : Service) : option Service :=
  if isSyncing (syncState s) && negb force then Some s
  else if negb (isOnline (syncState s)) then Some s
  else
    let s := with_syncState (set_isSyncing true (syncState s)) s in
    let s := emitEvent SYNC_STARTED s in
    match uploadLocalChanges fuel remote s with
    | None => None
    | Some (Raises e s) => Some (sync_finally (sync_failed e s))
    | Some (Returns s) =>
        match downloadServerChanges fuel remote s with
        | None => None
        | Some (Raises e s) => Some (sync_finally (sync_failed e s))
        | Some (Returns s) =>
            let s := resolveConflicts s in
            let s := with_syncState (set_lastSyncTime now (syncState s)) s in
            let s := with_storage (<["last_sync_time" := VNumber now]> (storage s)) s in
            let s := updatePendingChangesCount s in
            let s := emitEvent SYNC_COMPLETED s in
            Some (sync_finally s)
        end
    end.

(** The arguments of one call of [recordLocalChange], with the clock
    reading (in milliseconds and as ISO text) and the random suffix it
    draws. *)
Record RecordCall := mkRecordCall {
  call_type : SyncDataType;
  call_action : SyncAction;
  call_data : Entity;
  call_id : option string;
  call_now : Z;
  call_iso : string;
  call_random : string
}.

(** [id || this.generateClientId()] *)
Definition clientId_of (c : RecordCall) : string :=
  match call_id c with
  | Some i => if String.eqb i "" then generateClientId (call_now c) (call_random c) else i
  | None => generateClientId (call_now c) (call_random c)
  end.

Definition change_of (c : RecordCall) : LocalChange.t :=
  LocalChange.mk (call_type c) (call_action c) (call_data c) (clientId_of c) (call_iso c).

(** [recordLocalChange] *)
Definition recordLocalChange (c : RecordCall) (s : Service) : Service * string :=
  let localChange := change_of c in
  let s := saveLocalChange localChange s in
  let s := updatePendingChangesCount s in
  let s := if isOnline (syncState s) && negb (isSyncing (syncState s))
           then setTimeout_startSync 1000 s else s in
  (s, LocalChange.clientId localChange).

(** A sequence of [recordLocalChange] calls. *)
Definition record_all (calls : list RecordCall) (s : Service) : Service :=
  fold_left (fun s c => fst (recordLocalChange c s)) calls s.

(** What the application and the timers ask of the engine: a recording,
    or a pass of [startSync]. *)
Inductive Operation :=
| Record_change (c : RecordCall)
| Sync_pass (fuel : nat) (force : bool) (remote : Remote) (now : Z).

(** A sequence of operations; [None] when the fuel of a pass does not
    cover its loops. *)
Fixpoint run (ops : list Operation) (s : Service) : option Service :=
  match ops with
  | [] => Some s
  | Record_change c :: rest => run rest (fst (recordLocalChange c s))
  | Sync_pass fuel force remote now :: rest =>
      match startSync fuel force remote now s with
      | Some s' => run rest s'
      | None => None
      end
  end.

(** The journal is well keyed: a change found under a journal key sits
    under the key of its own [clientId]. *)
Definition journal_wf (st : gmap string StoredValue) : Prop :=
  forall key c,
    st !! key = Some (VChange c) ->
    String.prefix journal_prefix key = true ->
    key = journal_key (LocalChange.clientId c).




(** The state an outcome leaves. *)
Definition state_of (o : Outcome) : Service :=
  match o with Returns s | Raises _ s => s end.

(** The changes posted to /sync/upload since the state [s0], batch by batch. *)
Definition uploaded_since (s0 s : Service) : list (list LocalChange.t) :=
  drop (List.length (uploads s0)) (uploads s).

(** ** Auxiliary definitions for the properties below *)

(** What a pair of the store contributes to the journal. *)
Definition entry (kv : string * StoredValue) : option LocalChange.t :=
  if String.prefix journal_prefix kv.1 then
    match kv.2 with VChange c => Some c | _ => None end
  else None.

Definition entries (st : gmap string StoredValue) : list LocalChange.t :=
  omap entry (map_to_list st).

Definition first_edit : RecordCall :=
  mkRecordCall MESSAGES CREATE (mkEntity "m1" "hi") (Some "draft-1") 1000
               "2026-01-01T00:00:01.000Z" "abc1234".

Definition second_edit : RecordCall :=
  mkRecordCall MESSAGES UPDATE (mkEntity "m1" "hi there") (Some "draft-1") 2000
               "2026-01-01T00:00:02.000Z" "def5678".

Definition delete_all (ids : list string) (st : gmap string StoredValue)
    : gmap string StoredValue :=
  fold_left (fun st i => delete (journal_key i) st) ids st.



(** No change appears in the store, or is altered, between two states. *)
Definition no_new_changes (st st' : gmap string StoredValue) : Prop :=
  forall k c, st' !! k = Some (VChange c) -> st !! k = Some (VChange c).

(** The upload step between two states: no change appears in the store,
    the database and the configuration are untouched, and the batches
    posted are among [allowed]. *)
Definition upload_rel (allowed : list (list LocalChange.t)) (s s' : Service) : Prop :=
  no_new_changes (storage s) (storage s')
  /\ db s' = db s /\ config s' = config s
  /\ exists posts, uploads s' = (uploads s ++ posts)%list
                   /\ forall p, p ∈ posts -> p ∈ allowed.

(** A remote that reports a conflict on ["draft-1"], with its own version
    of the message, acknowledges nothing else and has no change to send. *)
Definition server_version : Entity := mkEntity "m1" "edited on the server".

Definition conflicting_remote : Remote :=
  {| upload := fun _ _ =>
       Resolves (mkApiResponse true
         (Some (mkUploadResponse
                  [SyncConflict.mk "draft-1" VERSION_CONFLICT server_version
                                   (mkEntity "m1" "hi")]
                  [])));
     download := fun _ _ _ =>
       Resolves (mkApiResponse true (Some (mkChangesResponse [] false None))) |}.

Definition one_draft : Service := record_all [first_edit] new.

End Sync.

(* ===================================================================== *)
(** * Auth session manager: start-up and the remaining accessors *)
(* ===================================================================== *)

Module JWTAuthSession.
Import JWTAuth.

(** [SecureStorageService.getAuthTokens], on the item the session keeps:
    tokens whose [expiresAt] is not in the future are removed and [null]
    is returned. *)
Definition getAuthTokens (now : Z) (s : Service) : Service * option AuthTokens :=
  match secureStorage s with
  | Some tokens =>
      if (now <? stored_expiresAt tokens)%Z then (s, Some tokens)
      else (with_secureStorage None s, None)
  | None => (s, None)
  end.

(** [loadTokenFromStorage] *)
Definition loadTokenFromStorage (now : Z) (s : Service)
    : Service * option JWTTokenInfo.t :=
  let '(s, authTokens) := getAuthTokens now s in
  (s,
   match authTokens with
   | Some t =>
       Some (JWTTokenInfo.mk (stored_accessToken t) (stored_refreshToken t)
               ((stored_expiresAt t - now) / 1000)%Z (stored_expiresAt t) "Bearer")
   | None => None
   end).

(** [refreshTokenSilently], run without interruption: [refreshToken()]
    does not throw, so the [catch] is never entered; [None] when the call
    can only wait for a refresh started elsewhere. *)
Definition refreshTokenSilently (now : Z) (outcome : PostOutcome) (s : Service)
    : option Service :=
  match refreshToken now outcome s with
  | Some (s', _) => Some s'
  | None => None
  end.

(** [initialize].  The token read from the store is put into [authState]
    only on the branch that finds it valid. *)
Definition initialize (now : Z) (outcome : PostOutcome) (s : Service) : option Service :=
  let '(s, loaded) := loadTokenFromStorage now s in
  match loaded with
  | Some tokenInfo =>
      if isTokenValid now tokenInfo then
        let a := authState s in
        let s := with_authState
                   (AuthState.mk true (AuthState.user a) (Some tokenInfo)
                                 (AuthState.lastRefreshTime a)) s in
        Some (scheduleTokenRefresh now s)
      else refreshTokenSilently now outcome s
  | None => Some s
  end.

(** [getCurrentUser] *)
Definition getCurrentUser (s : Service) : option string :=
  AuthState.user (authState s).

(** [getTokenRemainingTime] *)
Definition getTokenRemainingTime (now : Z) (s : Service) : Z :=
  match AuthState.tokenInfo (authState s) with
  | Some tokenInfo => Z.max 0 ((JWTTokenInfo.expiresAt tokenInfo - now) / 1000)
  | None => 0
  end.

(** [destroy] *)
Definition destroy (s : Service) : Service :=
  with_refreshPromise None (with_refreshTimer None s).

(** A service just constructed, over a secure store that holds [stored]. *)
Definition started_over (stored : option AuthTokens) : Service :=
  with_secureStorage stored new.

End JWTAuthSession.

(* ===================================================================== *)
(** * Realtime transport: runs and their observables *)
(* ===================================================================== *)

Module WebSocketRuns.
Import WebSocket.

(** The message [send] hands to the socket or to the queue. *)
Definition fullMessage (rid : string) (message : WebSocketMessage) : WebSocketMessage :=
  mkMessage (type message) (event message) (data message) (Some rid).

(** A series of [send] calls, as inputs of a run. *)
Definition sends (env : Env) (calls : list (string * WebSocketMessage))
    : list (Env * Input) :=
  map (fun c => (env, CallSend (fst c) (snd c))) calls.

(** The frames of a run that parsed, in the order they arrived. *)
Definition received (inputs : list (Env * Input)) : list WebSocketMessage :=
  omap (fun ei => match snd ei with
                  | SocketMessage (Some m) => Some m
                  | _ => None
                  end) inputs.

(** The delay [attemptReconnect] computes for the attempt numbered [n]. *)
Definition reconnectDelay (cfg : WebSocketConfig) (n : nat) : Z :=
  Z.min (reconnectInterval cfg * 2 ^ (Z.of_nat n - 1)) 30000.

(** Timers and state agree: the heartbeat runs only while connected, the
    connection timeout only while connecting, a reconnect timer only while
    an attempt is scheduled or under way, with the delay computed for the
    attempt counter, which stays within the cap. *)
Definition timers_consistent (s : Service) : Prop :=
  (heartbeatTimer s = true -> state s = CONNECTED)
  /\ (connectionTimer s = true -> state s = CONNECTING)
  /\ (forall d, reconnectTimer s = Some d ->
        (state s = RECONNECTING \/ state s = CONNECTING)
        /\ (1 <= reconnectAttempts s)%nat
        /\ d = reconnectDelay (config s) (reconnectAttempts s))
  /\ (reconnectAttempts s <= maxReconnectAttempts (config s))%nat.


End WebSocketRuns.

(* ===================================================================== *)
(** * Offline-first sync engine: what a pass leaves alone *)
(* ===================================================================== *)

Module SyncPass.
Import Sync.






(** A remote whose every POST /sync/upload fails with [error]. *)
Definition unreachable_upload (error : ApiClient.ApiError) (remote : Remote) : Prop :=
  forall k batch, upload remote k batch = Throws error.

(** A remote that is down: every request fails with a network error. *)
Definition offline_remote : Remote :=
  {| upload := fun _ _ =>
       Throws (ApiClient.mkApiError ApiClient.NETWORK_ERROR "网络连接失败，请检查网络设置");
     download := fun _ _ _ =>
       Throws (ApiClient.mkApiError ApiClient.NETWORK_ERROR "网络连接失败，请检查网络设置") |}.

End SyncPass.

(* ===================================================================== *)
(** * Logger (utils/Logger) *)
(* ===================================================================== *)

Module Logger.

(** [enum LogLevel] with its numeric values. *)
Inductive LogLevel := DEBUG | INFO | WARN | ERROR.

Definition level_value (l : LogLevel) : Z :=
  match l with DEBUG => 0 | INFO => 1 | WARN => 2 | ERROR => 3 end.

(** [interface LogEntry]; [timestamp] is the clock reading, [data] is kept
    as text. *)
Record LogEntry := mkLogEntry {
  timestamp : Z;
  level : LogLevel;
  tag : string;
  message : string;
  data : option string
}.

(** The fields of [class Logger], with the entries handed to [console]. *)
Record t := mk {
  logs : list LogEntry;
  maxLogs : Z;
  minLevel : LogLevel;
  console : list LogEntry
}.

Definition new (IS_DEV : bool) : t :=
  {| logs := []; maxLogs := 1000; minLevel := if IS_DEV then DEBUG else INFO;
     console := [] |}.

(** [Array.prototype.slice(start)] for an integer [start]: a negative
    [start] counts from the end, and [-0] is [0]. *)
Definition slice {A : Type} (start : Z) (l : list A) : list A :=
  let len := Z.of_nat (List.length l) in
  let k := if (start <? 0)%Z then Z.max (len + start) 0 else Z.min start len in
  drop (Z.to_nat k) l.

(** [log] *)
Definition log (entry : LogEntry) (g : t) : t :=
  if (level_value (level entry) <? level_value (minLevel g))%Z then g
  else
    let logs := (logs g ++ [entry])%list in
    let logs := if (maxLogs g <? Z.of_nat (List.length logs))%Z
                then slice (- maxLogs g) logs else logs in
    {| logs := logs; maxLogs := maxLogs g; minLevel := minLevel g;
       console := (console g ++ [entry])%list |}.

(** [getLogs(level?)] *)
Definition getLogs (lv : option LogLevel) (g : t) : list LogEntry :=
  match lv with
  | Some lv => List.filter (fun e => (level_value lv <=? level_value (level e))%Z) (logs g)
  | None => logs g
  end.

(** [clearLogs], [setMinLevel], [setMaxLogs] *)
Definition clearLogs (g : t) : t :=
  {| logs := []; maxLogs := maxLogs g; minLevel := minLevel g; console := console g |}.

Definition setMinLevel (lv : LogLevel) (g : t) : t :=
  {| logs := logs g; maxLogs := maxLogs g; minLevel := lv; console := console g |}.

Definition setMaxLogs (max : Z) (g : t) : t :=
  {| logs := if (max <? Z.of_nat (List.length (logs g)))%Z then slice (- max) (logs g)
             else logs g;
     maxLogs := max; minLevel := minLevel g; console := console g |}.

(** A series of [log] calls. *)
Definition log_all (entries : list LogEntry) (g : t) : t :=
  fold_left (fun g e => log e g) entries g.

(** The entries a logger at [minLevel] accepts. *)
Definition accepted (lv : LogLevel) (entries : list LogEntry) : list LogEntry :=
  List.filter (fun e => negb (level_value (level e) <? level_value lv)%Z) entries.

End Logger.

(* ===================================================================== *)
(** * SecureStorageService and StorageService *)
(* ===================================================================== *)

Module SecureStorage.

(** [interface UserCredentials] *)
Record UserCredentials := mkUserCredentials {
  cred_email : string;
  rememberMe : bool
}.

(** The items the service keeps in SecureStore, each under its key and
    holding what its setter wrote ([auth_tokens] and [user_credentials] as
    the objects their JSON text parses to). *)
Record Store := mkStore {
  auth_tokens : option JWTAuth.AuthTokens;
  user_credentials : option UserCredentials;
  device_id : option string;
  push_token : option string;
  encryption_key : option string;
  biometric_enabled : option string
}.

Definition empty : Store := mkStore None None None None None None.

(** [saveAuthTokens], [clearAuthTokens] *)
Definition saveAuthTokens (tokens : JWTAuth.AuthTokens) (s : Store) : Store :=
  mkStore (Some tokens) (user_credentials s) (device_id s) (push_token s)
          (encryption_key s) (biometric_enabled s).

Definition clearAuthTokens (s : Store) : Store :=
  mkStore None (user_credentials s) (device_id s) (push_token s)
          (encryption_key s) (biometric_enabled s).

(** [getAuthTokens]: expired tokens are removed. *)
Definition getAuthTokens (now : Z) (s : Store) : Store * option JWTAuth.AuthTokens :=
  match auth_tokens s with
  | Some tokens =>
      if (now <? JWTAuth.stored_expiresAt tokens)%Z then (s, Some tokens)
      else (clearAuthTokens s, None)
  | None => (s, None)
  end.

(** [isTokenValid] *)
Definition isTokenValid (now : Z) (s : Store) : Store * bool :=
  let '(s, tokens) := getAuthTokens now s in
  (s, bool_decide (is_Some tokens)).

(** [saveUserCredentials], [getUserCredentials], [clearUserCredentials] *)
Definition saveUserCredentials (credentials : UserCredentials) (s : Store) : Store :=
  if rememberMe credentials
  then mkStore (auth_tokens s) (Some credentials) (device_id s) (push_token s)
               (encryption_key s) (biometric_enabled s)
  else s.

Definition getUserCredentials (s : Store) : option UserCredentials :=
  user_credentials s.

Definition clearUserCredentials (s : Store) : Store :=
  mkStore (auth_tokens s) None (device_id s) (push_token s)
          (encryption_key s) (biometric_enabled s).

(** The plain text items. *)
Definition setDeviceId (deviceId : string) (s : Store) : Store :=
  mkStore (auth_tokens s) (user_credentials s) (Some deviceId) (push_token s)
          (encryption_key s) (biometric_enabled s).

Definition setPushToken (token : string) (s : Store) : Store :=
  mkStore (auth_tokens s) (user_credentials s) (device_id s) (Some token)
          (encryption_key s) (biometric_enabled s).

Definition clearPushToken (s : Store) : Store :=
  mkStore (auth_tokens s) (user_credentials s) (device_id s) None
          (encryption_key s) (biometric_enabled s).

Definition setEncryptionKey (key : string) (s : Store) : Store :=
  mkStore (auth_tokens s) (user_credentials s) (device_id s) (push_token s)
          (Some key) (biometric_enabled s).

(** [getBiometricEnabled], [setBiometricEnabled] *)
Definition getBiometricEnabled (s : Store) : bool :=
  match biometric_enabled s with
  | Some text => String.eqb text "true"
  | None => false
  end.

Definition setBiometricEnabled (enabled : bool) (s : Store) : Store :=
  mkStore (auth_tokens s) (user_credentials s) (device_id s) (push_token s)
          (encryption_key s) (Some (if enabled then "true" else "false")).

(** [clearAllSecureData] *)
Definition clearAllSecureData (s : Store) : Store := empty.

(** [if (value)] on the text of an item: absent and empty are skipped. *)
Definition truthy (value : option string) : option string :=
  match value with
  | Some text => if String.eqb text "" then None else Some text
  | None => None
  end.

(** The object [backupSecureData] returns: the five keys it lists, each
    present when its item is a non-empty text. *)
Record Backup := mkBackup {
  b_auth_tokens : option JWTAuth.AuthTokens;
  b_user_credentials : option UserCredentials;
  b_device_id : option string;
  b_push_token : option string;
  b_biometric_enabled : option string
}.

(** [backupSecureData] *)
Definition backupSecureData (s : Store) : Backup :=
  mkBackup (auth_tokens s) (user_credentials s) (truthy (device_id s))
           (truthy (push_token s)) (truthy (biometric_enabled s)).

(** [restoreSecureData], for a backup [backupSecureData] made. *)
Definition restoreSecureData (backup : Backup) (s : Store) : Store :=
  let or_keep {A : Type} (b : option A) (old : option A) : option A :=
    match b with Some v => Some v | None => old end in
  mkStore (or_keep (b_auth_tokens backup) (auth_tokens s))
          (or_keep (b_user_credentials backup) (user_credentials s))
          (or_keep (b_device_id backup) (device_id s))
          (or_keep (b_push_token backup) (push_token s))
          (encryption_key s)
          (or_keep (b_biometric_enabled backup) (biometric_enabled s)).

End SecureStorage.

Module Storage.

(** An entry of the offline queue: the message as text, with the
    [timestamp] that [addOfflineMessage] stamps on it. *)
Record OfflineMessage := mkOfflineMessage {
  om_message : string;
  om_timestamp : Z
}.

(** [type NetworkStatus = 'online' | 'offline'] *)
Inductive NetworkStatus := online | offline.

(** The items the service keeps in AsyncStorage that are modelled here,
    each under its key and holding what its setter wrote; drafts sit under
    [`draft_${chatId}`]. *)
Record Store := mkStore {
  current_user_id : option string;
  active_chats : option (list string);
  drafts : gmap string string;
  network_status : option NetworkStatus;
  offline_messages : option (list OfflineMessage)
}.

Definition empty : Store := mkStore None None ∅ None None.

(** [getCurrentUserId], [setCurrentUserId], [removeCurrentUserId] *)
Definition getCurrentUserId (s : Store) : option string := current_user_id s.

Definition setCurrentUserId (userId : string) (s : Store) : Store :=
  mkStore (Some userId) (active_chats s) (drafts s) (network_status s)
          (offline_messages s).

Definition removeCurrentUserId (s : Store) : Store :=
  mkStore None (active_chats s) (drafts s) (network_status s) (offline_messages s).

(** [getActiveChats], [setActiveChats] *)
Definition getActiveChats (s : Store) : list string :=
  default [] (active_chats s).

Definition setActiveChats (chatIds : list string) (s : Store) : Store :=
  mkStore (current_user_id s) (Some chatIds) (drafts s) (network_status s)
          (offline_messages s).

(** [activeChats.includes(chatId)] *)
Definition includes (chatId : string) (l : list string) : bool :=
  existsb (String.eqb chatId) l.

(** [addActiveChat] *)
Definition addActiveChat (chatId : string) (s : Store) : Store :=
  let activeChats := getActiveChats s in
  if negb (includes chatId activeChats)
  then setActiveChats (take 10 (chatId :: activeChats)) s
  else s.

(** [message.trim()] is falsy: the text is empty or white space only
    (ASCII white space, as for [\s] in the e-mail pattern). *)
Fixpoint blank (text : string) : bool :=
  match text with
  | "" => true
  | String a rest => JWTAuth.is_space a && blank rest
  end.

(** [getDraftMessage], [setDraftMessage], [removeDraftMessage] *)
Definition getDraftMessage (chatId : string) (s : Store) : option string :=
  drafts s !! chatId.

Definition removeDraftMessage (chatId : string) (s : Store) : Store :=
  mkStore (current_user_id s) (active_chats s) (delete chatId (drafts s))
          (network_status s) (offline_messages s).

Definition setDraftMessage (chatId message : string) (s : Store) : Store :=
  if negb (blank message)
  then mkStore (current_user_id s) (active_chats s) (<[chatId := message]> (drafts s))
               (network_status s) (offline_messages s)
  else removeDraftMessage chatId s.

(** [getNetworkStatus], [setNetworkStatus] *)
Definition getNetworkStatus (s : Store) : NetworkStatus :=
  default online (network_status s).

Definition setNetworkStatus (status : NetworkStatus) (s : Store) : Store :=
  mkStore (current_user_id s) (active_chats s) (drafts s) (Some status)
          (offline_messages s).

(** [getOfflineMessages], [addOfflineMessage], [clearOfflineMessages] *)
Definition getOfflineMessages (s : Store) : list OfflineMessage :=
  default [] (offline_messages s).

Definition addOfflineMessage (now : Z) (message : string) (s : Store) : Store :=
  mkStore (current_user_id s) (active_chats s) (drafts s) (network_status s)
          (Some (getOfflineMessages s ++ [mkOfflineMessage message now])%list).

Definition clearOfflineMessages (s : Store) : Store :=
  mkStore (current_user_id s) (active_chats s) (drafts s) (network_status s) None.

(** A series of [addOfflineMessage] calls, each with its clock reading. *)
Definition queue_all (messages : list (Z * string)) (s : Store) : Store :=
  fold_left (fun s m => addOfflineMessage (fst m) (snd m) s) messages s.

(** A series of [addActiveChat] calls. *)
Definition open_chats (chatIds : list string) (s : Store) : Store :=
  fold_left (fun s c => addActiveChat c s) chatIds s.

End Storage.

(* ===================================================================== *)
(** * DataService: offline support *)
(* ===================================================================== *)

Module DataService.

(** [syncOfflineData]: the queue is cleared; nothing is sent. *)
Definition syncOfflineData (s : Storage.Store) : Storage.Store :=
  if (0 <? List.length (Storage.getOfflineMessages s))%nat
  then Storage.clearOfflineMessages s
  else s.

(** [setNetworkStatus] *)
Definition setNetworkStatus (status : Storage.NetworkStatus) (s : Storage.Store)
    : Storage.Store :=
  let s := Storage.setNetworkStatus status s in
  match status with
  | Storage.online => syncOfflineData s
  | Storage.offline => s
  end.

End DataService.

(* ===================================================================== *)
(** * Properties of the request client *)
(* ===================================================================== *)

Module ApiClientFacts.
Import ApiClient.

Lemma pow2_step (k : Z) : (0 <= k)%Z -> (2 ^ (k + 1) = 2 * 2 ^ k)%Z.
Proof. intros Hk. rewrite Z.pow_add_r by lia. lia. Qed.

(** The retry loop always leaves a result when given [maxRetries + 1]
    passes. *)
Lemma request_loop_total c net rc fuel attempt delays :
  (0 < fuel)%nat -> (maxRetries (config c) < fuel + attempt)%nat ->
  is_Some (request_loop c net rc fuel attempt delays).
Proof.
  revert attempt delays.
  induction fuel as [|fuel IH]; intros attempt delays Hpos Hfuel; [lia|].
  cbn [request_loop]. destruct (try_once c net attempt rc) as [e|r]; [|eauto].
  destruct (Nat.leb_spec (S attempt) (maxRetries (config c))) as [Hle|Hgt];
    cbn [andb]; [|eauto].
  destruct (retryCondition (config c) e); [|eauto].
  apply IH; lia.
Qed.

Lemma request_total c net options : is_Some (request c net options).
Proof.
  unfold request.
  match goal with
  | |- context [request_loop ?c ?n ?rc ?f ?a ?d] =>
      destruct (request_loop_total c n rc f a d) as [lr ->]; [lia|lia|]
  end.
  destruct (result lr); eauto.
Qed.

(** The delays a request sleeps are [calculateRetryDelay 1],
    [calculateRetryDelay 2], ... in this order, one before each retry, and
    there are at most [maxRetries] of them. *)
Lemma request_loop_slept c net rc fuel attempt delays lr :
  request_loop c net rc fuel attempt delays = Some lr ->
  exists k,
    slept lr =
      (delays ++ map (fun n => calculateRetryDelay (config c) (Z.of_nat n))
                     (seq (S attempt) k))%list
    /\ attempts lr = S (attempt + k)
    /\ (k = 0 \/ attempt + k <= maxRetries (config c))%nat.
Proof.
  revert attempt delays.
  induction fuel as [|fuel IH]; intros attempt delays; cbn [request_loop];
    [discriminate|].
  destruct (try_once c net attempt rc) as [e|r].
  - destruct (Nat.leb_spec (S attempt) (maxRetries (config c))) as [Hle|Hgt];
      cbn [andb].
    + destruct (retryCondition (config c) e).
      * intros H. destruct (IH _ _ H) as (k & Hk & Ha & Hb). exists (S k).
        rewrite Hk, <- app_assoc. split; [reflexivity|]. split; [lia|]. lia.
      * intros [= <-]. exists 0%nat. cbn. rewrite app_nil_r, Nat.add_0_r. auto.
    + intros [= <-]. exists 0%nat. cbn. rewrite app_nil_r, Nat.add_0_r. auto.
  - intros [= <-]. exists 0%nat. cbn. rewrite app_nil_r, Nat.add_0_r. auto.
Qed.

Lemma request_slept c net options r :
  request c net options = Some r ->
  exists k,
    run_slept r = map (fun n => calculateRetryDelay (config c) (Z.of_nat n)) (seq 1 k)
    /\ run_attempts r = S k
    /\ (k <= maxRetries (config c))%nat.
Proof.
  unfold request.
  match goal with
  | |- context [request_loop ?c ?n ?rc ?f ?a ?d] =>
      destruct (request_loop c n rc f a d) as [lr|] eqn:Hloop; [|done]
  end.
  destruct (request_loop_slept _ _ _ _ _ _ _ Hloop) as (k & Hs & Ha & Hk).
  cbn in Hs, Ha.
  assert (k <= maxRetries (config c))%nat by lia.
  destruct (result lr); intros [= <-]; exists k; cbn; auto.
Qed.

(** Every error [performRequest] can throw satisfies the default retry
    condition, whatever the status: none of them carries a [response]. *)
Lemma performRequest_error_is_retried o e :
  performRequest o = inl e -> default_retryCondition e = true.
Proof.
  unfold performRequest, default_retryCondition.
  destruct o as [msg| |status text body]; simpl.
  - intros [= <-]. reflexivity.
  - intros [= <-]. reflexivity.
  - destruct (ok status).
    + destruct body; intros [= <-]. reflexivity.
    + intros [= <-]. reflexivity.
Qed.

(** C2 (the code departs from the claim): with the default configuration a
    GET that is answered 404 every time is sent four times, with sleeps of
    1 s, 2 s and 4 s in between, before the error reaches the caller; the
    claim has it surface on the first attempt.  The error that surfaces is
    SERVER_ERROR, because the status pattern of [normalizeError] never
    matches. *)
Theorem request_retries_http_404 :
  get_user_1 =
    Some {| settled := Rejected (mkApiError SERVER_ERROR "服务器内部错误");
            run_attempts := 4;
            run_slept := [1000; 2000; 4000]%Z |}.
Proof. vm_compute. reflexivity. Qed.

(** C8: for every attempt number [n >= 1] and non-negative base delay, the
    delay is [min (retryDelay * 2^(n-1)) 30000]; it never exceeds 30000 ms,
    the next delay is at least as long, and it is exactly twice as long
    while the doubled value stays within the cap.  These are the delays a
    request sleeps: the one before its [n]-th retry is the delay for
    attempt number [n]. *)
Theorem calculateRetryDelay_backoff (cfg : ApiClientConfig) (n : Z) :
  (1 <= n)%Z -> (0 <= retryDelay cfg)%Z ->
  calculateRetryDelay cfg n = Z.min (retryDelay cfg * 2 ^ (n - 1)) 30000
  /\ (calculateRetryDelay cfg n <= 30000)%Z
  /\ (calculateRetryDelay cfg n <= calculateRetryDelay cfg (n + 1))%Z
  /\ ((retryDelay cfg * 2 ^ n <= 30000)%Z ->
      calculateRetryDelay cfg (n + 1) = (2 * calculateRetryDelay cfg n)%Z)
  /\ (forall c net options r,
        config c = cfg -> request c net options = Some r ->
        exists k,
          (k <= maxRetries cfg)%nat
          /\ run_slept r =
               map (fun i => Z.min (retryDelay cfg * 2 ^ (Z.of_nat i - 1)) 30000)
                   (seq 1 k)).
Proof.
  intros Hn Hd. unfold calculateRetryDelay.
  replace (n + 1 - 1)%Z with ((n - 1) + 1)%Z by lia.
  rewrite pow2_step by lia.
  assert (0 <= 2 ^ (n - 1))%Z by (apply Z.pow_nonneg; lia).
  assert (0 <= retryDelay cfg * 2 ^ (n - 1))%Z by lia.
  split; [reflexivity|]. split; [lia|]. split; [lia|]. split.
  - replace n with ((n - 1) + 1)%Z at 1 by lia.
    rewrite pow2_step by lia. lia.
  - intros c net options r <- Hr.
    destruct (request_slept c net options r Hr) as (k & Hs & _ & Hk).
    exists k. split; [done|]. exact Hs.
Qed.

Lemma calculateRetryDelay_backoff_witness :
  let cfg := DEFAULT_CONFIG "https://api.xiaoxiang.com" in
  calculateRetryDelay cfg 3 = Z.min (retryDelay cfg * 2 ^ (3 - 1)) 30000
  /\ (calculateRetryDelay cfg 3 <= 30000)%Z
  /\ (calculateRetryDelay cfg 3 <= calculateRetryDelay cfg (3 + 1))%Z
  /\ ((retryDelay cfg * 2 ^ 3 <= 30000)%Z ->
      calculateRetryDelay cfg (3 + 1) = (2 * calculateRetryDelay cfg 3)%Z)
  /\ (forall c net options r,
        config c = cfg -> request c net options = Some r ->
        exists k,
          (k <= maxRetries cfg)%nat
          /\ run_slept r =
               map (fun i => Z.min (retryDelay cfg * 2 ^ (Z.of_nat i - 1)) 30000)
                   (seq 1 k)).
Proof.
  intros cfg. apply (calculateRetryDelay_backoff cfg 3); simpl; lia.
Defined.

End ApiClientFacts.

(* ===================================================================== *)
(** * Properties of the auth session manager *)
(* ===================================================================== *)

Module JWTAuthFacts.
Import JWTAuth.

(** While a refresh is in flight a call of [refreshToken()] changes
    nothing and hands back the stored promise. *)
Lemma refreshToken_begin_in_flight s p :
  refreshPromise s = Some p -> refreshToken_begin s = (s, Joined p).
Proof. intros H. unfold refreshToken_begin. by rewrite H. Qed.

Lemma refresh_calls_in_flight n s p :
  refreshPromise s = Some p -> refresh_calls n s = (s, repeat (Joined p) n).
Proof.
  intros H. induction n as [|n IH]; simpl; [done|].
  by rewrite (refreshToken_begin_in_flight s p H), IH.
Qed.

(** While a refresh is in flight, scheduling the next one posts nothing:
    an immediate silent refresh joins the one in flight. *)
Lemma scheduleTokenRefresh_in_flight now s p :
  refreshPromise s = Some p -> posted (scheduleTokenRefresh now s) = posted s.
Proof.
  intros H. unfold scheduleTokenRefresh.
  destruct (AuthState.tokenInfo (authState (with_refreshTimer None s))); [|done].
  case_match; [done|].
  by rewrite (refreshToken_begin_in_flight (with_refreshTimer None s) p H).
Qed.

(** The call that finds no refresh in flight starts one: it posts one
    request and stores the promise. *)
Lemma refreshToken_begin_idle s ti :
  refreshPromise s = None ->
  AuthState.tokenInfo (authState s) = Some ti ->
  JWTTokenInfo.refreshToken ti ≠ "" ->
  exists s1 p,
    refreshToken_begin s = (s1, Started p)
    /\ refreshPromise s1 = Some p
    /\ awaitsPost p = true
    /\ posted s1 = (posted s ++ [JWTTokenInfo.refreshToken ti])%list.
Proof.
  intros Hidle Hti Hne.
  unfold refreshToken_begin, performTokenRefresh_begin. rewrite Hidle, Hti.
  destruct (String.eqb_spec (JWTTokenInfo.refreshToken ti) "") as [?|_]; [done|].
  eexists _, _. split; [reflexivity|]. simpl. done.
Qed.

(** C3: a call of [refreshToken()] that finds no refresh in flight posts
    one request to /auth/refresh; [n] further calls made before it settles
    post nothing and all await the promise of that refresh, so each
    resolves with its outcome, whatever [n] is. *)
Theorem refresh_single_flight (n : nat) (s : Service) (ti : JWTTokenInfo.t) :
  refreshPromise s = None ->
  AuthState.tokenInfo (authState s) = Some ti ->
  JWTTokenInfo.refreshToken ti ≠ "" ->
  exists s1 p,
    refreshToken_begin s = (s1, Started p)
    /\ posted s1 = (posted s ++ [JWTTokenInfo.refreshToken ti])%list
    /\ exists calls,
         refresh_calls n s1 = (s1, calls)
         /\ List.length calls = n
         /\ Forall (fun c => c = Joined p /\ awaited c = p) calls
         /\ forall now outcome,
              posted (fst (refreshToken_settle now p outcome s1)) = posted s1
              /\ refreshPromise (fst (refreshToken_settle now p outcome s1)) = None.
Proof.
  intros Hidle Hti Hne.
  destruct (refreshToken_begin_idle s ti Hidle Hti Hne) as (s1 & p & Hb & Hp & Hw & Hposted).
  exists s1, p. split; [done|]. split; [done|].
  exists (repeat (Joined p) n). split; [by apply refresh_calls_in_flight|].
  split; [by rewrite repeat_length|].
  split.
  { apply Forall_forall. intros c Hc. apply list_elem_of_In, repeat_spec in Hc.
    by subst. }
  intros now outcome. unfold refreshToken_settle. rewrite Hw.
  destruct outcome as [r|e]; cbn [performTokenRefresh_end].
  - destruct (success r); [|done]. destruct (data r) as [d|]; [|done].
    cbn [fst posted refreshPromise with_refreshPromise emitEvent].
    split; [|done]. by rewrite (scheduleTokenRefresh_in_flight now _ p).
  - unfold refresh_failed. cbn [from_option]. by destruct (isAuthError e).
Qed.

Lemma refresh_single_flight_witness :
  exists s1 p,
    refreshToken_begin signed_in = (s1, Started p)
    /\ posted s1 = (posted signed_in ++ ["refresh-1"])%list
    /\ exists calls,
         refresh_calls 7 s1 = (s1, calls)
         /\ List.length calls = 7%nat
         /\ Forall (fun c => c = Joined p /\ awaited c = p) calls
         /\ forall now outcome,
              posted (fst (refreshToken_settle now p outcome s1)) = posted s1
              /\ refreshPromise (fst (refreshToken_settle now p outcome s1)) = None.
Proof.
  apply (refresh_single_flight 7 signed_in
           (JWTTokenInfo.mk "access-1" "refresh-1" 3600 3600000 "Bearer"));
    [reflexivity | reflexivity | discriminate].
Defined.

(** C6, as the code has it: [isAuthenticated()] is true exactly when the
    [isAuthenticated] flag of the state is set and a credential is held
    whose [expiresAt] lies more than five minutes after now;
    [getAccessToken()] returns a token exactly when, in addition, the
    stored access token is that token and is not empty, and [null]
    otherwise. *)
Theorem authenticated_iff_flag_and_valid_token (now : Z) (s : Service) :
  bufferTime = 300000%Z
  /\ (isAuthenticated now s = true <->
      AuthState.isAuthenticated (authState s) = true
      /\ exists ti, AuthState.tokenInfo (authState s) = Some ti
                    /\ (now + bufferTime < JWTTokenInfo.expiresAt ti)%Z)
  /\ (forall tok, getAccessToken now s = Some tok <->
      AuthState.isAuthenticated (authState s) = true
      /\ exists ti, AuthState.tokenInfo (authState s) = Some ti
                    /\ (now + bufferTime < JWTTokenInfo.expiresAt ti)%Z
                    /\ JWTTokenInfo.accessToken ti = tok /\ tok ≠ "")
  /\ (getAccessToken now s = None \/
      exists ti, AuthState.tokenInfo (authState s) = Some ti
                 /\ getAccessToken now s = Some (JWTTokenInfo.accessToken ti)).
Proof.
  split; [reflexivity|].
  assert (Hauth : isAuthenticated now s = true <->
      AuthState.isAuthenticated (authState s) = true
      /\ exists ti, AuthState.tokenInfo (authState s) = Some ti
                    /\ (now + bufferTime < JWTTokenInfo.expiresAt ti)%Z).
  { unfold isAuthenticated, isCurrentTokenValid, isTokenValid.
    rewrite andb_true_iff.
    destruct (AuthState.tokenInfo (authState s)) as [ti|].
    - rewrite Z.ltb_lt. split.
      + intros [? ?]. eauto.
      + intros [? (ti' & [= <-] & ?)]. done.
    - split; [intros [_ [=]] | intros [_ (? & [=] & _)]]. }
  split; [exact Hauth|]. split.
  - intros tok. unfold getAccessToken.
    destruct (isAuthenticated now s) eqn:Ha; simpl.
    + destruct Hauth as [Hauth _].
      destruct (Hauth eq_refl) as [Hflag (ti & Hti & Hvalid)]. rewrite Hti.
      destruct (String.eqb_spec (JWTTokenInfo.accessToken ti) "") as [He|Hne].
      * split; [done|]. intros [_ (ti' & [= <-] & _ & Htok & Hnot)]. congruence.
      * split.
        -- intros [= <-]. eauto 10.
        -- intros [_ (ti' & [= <-] & _ & Htok & _)]. by subst.
    + split; [done|]. intros [Hflag (ti & Hti & Hvalid & _)].
      destruct Hauth as [_ Hauth]. discriminate Hauth. eauto.
  - unfold getAccessToken.
    destruct (negb (isAuthenticated now s)); [by left|].
    destruct (AuthState.tokenInfo (authState s)) as [ti|]; [|by left].
    destruct (String.eqb (JWTTokenInfo.accessToken ti) ""); [by left|].
    right. eauto.
Qed.

(** C6 as stated fails in that session: a credential is held whose
    [expiresAt] lies more than five minutes ahead, yet [isAuthenticated()]
    is false and [getAccessToken()] is [null], because the flag is clear. *)
Lemma valid_token_not_authenticated :
  exists ti,
    AuthState.tokenInfo (authState refreshed_after_logout) = Some ti
    /\ (2000 + 5 * 60 * 1000 < JWTTokenInfo.expiresAt ti)%Z
    /\ JWTTokenInfo.accessToken ti = "access-2"
    /\ isAuthenticated 2000 refreshed_after_logout = false
    /\ getAccessToken 2000 refreshed_after_logout = None.
Proof.
  eexists. split; [reflexivity|]. vm_compute. repeat split; congruence.
Qed.



End JWTAuthFacts.

(* ===================================================================== *)
(** * Properties of the realtime transport *)
(* ===================================================================== *)

Module WebSocketFacts.
Import WebSocket.

Lemma attemptReconnect_pending env s :
  requestCallbacks (attemptReconnect env s) = requestCallbacks s
  /\ responseTimeouts (attemptReconnect env s) = responseTimeouts s.
Proof. unfold attemptReconnect. repeat case_match; done. Qed.

Lemma connect_pending env s :
  requestCallbacks (connect env s) = requestCallbacks s
  /\ responseTimeouts (connect env s) = responseTimeouts s.
Proof.
  unfold connect, handleConnectionError.
  repeat case_match; try done.
  by destruct (attemptReconnect_pending env (setState ERROR (clearTimers (setState CONNECTING s)))).
Qed.

Lemma send_pending env rid m s :
  requestCallbacks (fst (send env rid m s)) = requestCallbacks s
  /\ responseTimeouts (fst (send env rid m s)) = responseTimeouts s.
Proof. unfold send, needsResponse. repeat case_match; done. Qed.

Lemma sendQueuedMessages_pending env s :
  requestCallbacks (sendQueuedMessages env s) = requestCallbacks s
  /\ responseTimeouts (sendQueuedMessages env s) = responseTimeouts s.
Proof.
  unfold sendQueuedMessages.
  change (requestCallbacks s) with (requestCallbacks (with_messageQueue [] s)).
  change (responseTimeouts s) with (responseTimeouts (with_messageQueue [] s)).
  generalize (with_messageQueue [] s). generalize (messageQueue s).
  induction l as [|m l IH]; intros s0; simpl; [done|].
  destruct (IH (if bool_decide (is_Some (ws s0)) && state_eqb (state s0) CONNECTED
                then if transmits env m then ws_send m s0
                     else with_messageQueue (messageQueue s0 ++ [m]) s0
                else s0)) as [-> ->].
  repeat case_match; done.
Qed.

Lemma step_no_pending env i s : no_pending s -> no_pending (step env i s).
Proof.
  intros [Hc Ht]. unfold no_pending.
  destruct i; cbn [step].
  - destruct (connect_pending env s) as [-> ->]. done.
  - done.
  - destruct (send_pending env rid message s) as [-> ->]. done.
  - unfold onopen. cbn [requestCallbacks responseTimeouts with_heartbeatTimer].
    destruct (sendQueuedMessages_pending env
      (with_reconnectAttempts 0 (setState CONNECTED (clearTimers s)))) as [-> ->].
    done.
  - unfold onclose. case_match; [|done].
    destruct (attemptReconnect_pending env (setState DISCONNECTED (clearTimers s)))
      as [-> ->]. done.
  - unfold onerror, handleConnectionError.
    destruct (attemptReconnect_pending env (setState ERROR (clearTimers s)))
      as [-> ->]. done.
  - unfold handleMessage. destruct frame as [w|]; [|done].
    destruct (requestId w) as [rid|]; [|done].
    rewrite Hc, (bool_decide_eq_false_2 (rid ∈ ∅)) by apply not_elem_of_empty.
    rewrite andb_false_r. done.
  - unfold handleConnectionTimeout, handleConnectionError. repeat case_match; try done.
    destruct (attemptReconnect_pending env
      (setState ERROR (clearTimers (with_connectionTimer false s)))) as [-> ->].
    done.
  - case_match; [|done].
    destruct (connect_pending env (with_reconnectTimer None s)) as [-> ->]. done.
  - unfold sendHeartbeat. case_match; [|done].
    destruct (send_pending env rid (mkMessage "heartbeat" HEARTBEAT timestamp None) s)
      as [-> ->]. done.
  - rewrite Hc. case_bool_decide; [set_solver|done].
  - unfold networkListener, handleNetworkDisconnect. repeat case_match; try done.
    destruct (connect_pending env s) as [-> ->]. done.
  - done.
Qed.

Lemma run_no_pending inputs s : no_pending s -> no_pending (run inputs s).
Proof.
  revert s. induction inputs as [|[env i] inputs IH]; intros s Hs; [done|].
  apply IH. by apply step_no_pending.
Qed.

(** C10: a frame sent while the transport is CONNECTED is handed to the
    socket and [send] resolves at once with no data; it registers no
    response callback and arms no response timeout, [needsResponse] being
    false for every event.  Hence in every run of the transport the map of
    pending callbacks stays empty and no response timeout is ever armed:
    the rejection after ten seconds cannot happen and no call of [send]
    is ever resolved with the data of a response. *)
Theorem send_connected_resolves_without_data (env : Env) (rid : string)
    (m : WebSocketMessage) (s : Service) :
  state s = CONNECTED ->
  is_Some (ws s) ->
  transmits env (mkMessage (type m) (event m) (data m) (Some rid)) = true ->
  (forall e, needsResponse e = false)
  /\ snd (send env rid m s) = ResolvesUndefined
  /\ transmitted (fst (send env rid m s)) =
       (transmitted s ++ [mkMessage (type m) (event m) (data m) (Some rid)])%list
  /\ requestCallbacks (fst (send env rid m s)) = requestCallbacks s
  /\ responseTimeouts (fst (send env rid m s)) = responseTimeouts s
  /\ (forall env' rid' m' s', snd (send env' rid' m' s') ≠ AwaitsResponse rid')
  /\ (forall wsUrl inputs,
        requestCallbacks (run inputs (new wsUrl)) = ∅
        /\ responseTimeouts (run inputs (new wsUrl)) = []).
Proof.
  intros Hstate Hws Htx.
  split; [done|].
  unfold send at 1 2. rewrite Hstate, Htx. cbn [state_eqb andb].
  rewrite (bool_decide_eq_true_2 _ Hws). cbn [needsResponse snd fst].
  split; [done|]. split; [done|].
  destruct (send_pending env rid m s) as [-> ->].
  split; [done|]. split; [done|]. split.
  - intros env' rid' m' s'. unfold send, needsResponse. repeat case_match; done.
  - intros wsUrl inputs. by apply run_no_pending.
Qed.

Lemma send_connected_resolves_without_data_witness :
  (forall e, needsResponse e = false)
  /\ snd (send online_env "ws_1_a" typing_frame connected) = ResolvesUndefined
  /\ transmitted (fst (send online_env "ws_1_a" typing_frame connected)) =
       (transmitted connected ++ [mkMessage "typing" TYPING "chat-1" (Some "ws_1_a")])%list
  /\ requestCallbacks (fst (send online_env "ws_1_a" typing_frame connected)) =
       requestCallbacks connected
  /\ responseTimeouts (fst (send online_env "ws_1_a" typing_frame connected)) =
       responseTimeouts connected
  /\ (forall env' rid' m' s', snd (send env' rid' m' s') ≠ AwaitsResponse rid')
  /\ (forall wsUrl inputs,
        requestCallbacks (run inputs (new wsUrl)) = ∅
        /\ responseTimeouts (run inputs (new wsUrl)) = []).
Proof.
  apply (send_connected_resolves_without_data online_env "ws_1_a" typing_frame connected);
    [reflexivity | vm_compute; eauto | reflexivity].
Defined.










End WebSocketFacts.

(* ===================================================================== *)
(** * Properties of the sync engine *)
(* ===================================================================== *)

Module SyncFacts.
Import Sync.

(** ** Keys *)

Lemma journal_key_inj a b : journal_key a = journal_key b -> a = b.
Proof.
  unfold journal_key, journal_prefix, String.append. intros H. by simplify_eq.
Qed.

Lemma journal_key_prefix a : String.prefix journal_prefix (journal_key a) = true.
Proof. destruct a; reflexivity. Qed.

Lemma last_sync_time_not_journal : String.prefix journal_prefix "last_sync_time" = false.
Proof. reflexivity. Qed.

Lemma conflict_key_not_journal a :
  String.prefix journal_prefix ("conflict_" +:+ a) = false.
Proof. reflexivity. Qed.

(** ** Sorting *)

Lemma insert_sorted_perm c l : insert_sorted c l ≡ₚ c :: l.
Proof.
  induction l as [|x l IH]; simpl; [done|].
  destruct (timestamp_le c x); [done|].
  rewrite IH. apply Permutation_swap.
Qed.

Lemma sort_changes_perm l : sort_changes l ≡ₚ l.
Proof.
  induction l as [|x l IH]; simpl; [done|].
  by rewrite insert_sorted_perm, IH.
Qed.

(** ** The journal as the list of its entries *)

Lemma read_keys_entries st (l : list (string * StoredValue)) :
  (forall k v, (k, v) ∈ l -> st !! k = Some v) ->
  omap (read_change st) (List.filter (String.prefix journal_prefix) l.*1) = omap entry l.
Proof.
  induction l as [|[k v] l IH]; intros Hl; [done|].
  assert (Hk : st !! k = Some v) by (apply Hl; left).
  assert (IH' : omap (read_change st) (List.filter (String.prefix journal_prefix) l.*1)
                = omap entry l) by (apply IH; intros; apply Hl; by right).
  cbn [fmap list_fmap fst List.filter omap list_omap]. unfold entry at 1. cbn [fst snd].
  destruct (String.prefix journal_prefix k).
  - cbn [omap list_omap]. unfold read_change at 1. rewrite Hk.
    destruct v; by rewrite IH'.
  - exact IH'.
Qed.

Lemma getLocalChanges_entries st : getLocalChanges st ≡ₚ entries st.
Proof.
  unfold getLocalChanges, entries. rewrite sort_changes_perm.
  rewrite read_keys_entries; [done|].
  intros k v. apply elem_of_map_to_list.
Qed.

Lemma elem_of_entries st c :
  c ∈ entries st <->
  exists key, String.prefix journal_prefix key = true /\ st !! key = Some (VChange c).
Proof.
  unfold entries. rewrite list_elem_of_omap. split.
  - intros ([k v] & Hin & He). apply elem_of_map_to_list in Hin.
    unfold entry in He. cbn [fst snd] in He.
    destruct (String.prefix journal_prefix k) eqn:Hp; [|done].
    destruct v; try done. injection He as ->. eauto.
  - intros (k & Hp & Hk). exists (k, VChange c). split.
    + by apply elem_of_map_to_list.
    + unfold entry. cbn [fst snd]. by rewrite Hp.
Qed.

Lemma elem_of_getLocalChanges st c :
  c ∈ getLocalChanges st <->
  exists key, String.prefix journal_prefix key = true /\ st !! key = Some (VChange c).
Proof. rewrite getLocalChanges_entries. apply elem_of_entries. Qed.

Lemma elem_of_getLocalChanges_wf st c :
  journal_wf st ->
  c ∈ getLocalChanges st <->
  st !! journal_key (LocalChange.clientId c) = Some (VChange c).
Proof.
  intros Hwf. rewrite elem_of_getLocalChanges. split.
  - intros (k & Hp & Hk). by rewrite <- (Hwf k c Hk Hp).
  - intros Hk. exists (journal_key (LocalChange.clientId c)).
    split; [apply journal_key_prefix | done].
Qed.

(** Taking a key out of the store takes its entry out of the journal. *)
Lemma entries_delete st k :
  entries st ≡ₚ
    (option_list (st !! k ≫= fun v => entry (k, v)) ++ entries (delete k st))%list.
Proof.
  unfold entries. destruct (st !! k) as [v|] eqn:Hk.
  - rewrite <- (map_to_list_delete st k v Hk). cbn [omap list_omap mbind option_bind].
    by destruct (entry (k, v)).
  - by rewrite delete_id.
Qed.

Lemma entries_insert st k v :
  entries (<[k:=v]> st) ≡ₚ (option_list (entry (k, v)) ++ entries (delete k st))%list.
Proof.
  rewrite <- (insert_delete_eq st k v). unfold entries.
  rewrite map_to_list_insert by apply lookup_delete_eq.
  cbn [omap list_omap]. by destruct (entry (k, v)).
Qed.



(** In a well-keyed journal no two entries share a [clientId]. *)
Lemma entries_NoDup_clientId st :
  journal_wf st -> NoDup (LocalChange.clientId <$> entries st).
Proof.
  intros Hwf. unfold entries.
  assert (Hl : forall k v, (k, v) ∈ map_to_list st -> st !! k = Some v)
    by (intros k v; apply elem_of_map_to_list).
  pose proof (NoDup_fst_map_to_list st) as Hnd.
  induction (map_to_list st) as [|[k v] l IH]; [constructor|].
  cbn [fmap list_fmap fst] in Hnd. apply NoDup_cons in Hnd as [Hk Hnd].
  assert (IH' : NoDup (LocalChange.clientId <$> omap entry l))
    by (apply IH; [intros; apply Hl; by right | done]).
  cbn [omap list_omap]. destruct (entry (k, v)) as [c|] eqn:He; [|done].
  cbn [fmap list_fmap]. apply NoDup_cons. split; [|done].
  intros Hin. apply list_elem_of_fmap in Hin as (c' & Hid & Hc').
  apply list_elem_of_omap in Hc' as ([k' v'] & Hin' & He').
  unfold entry in He, He'. cbn [fst snd] in He, He'.
  destruct (String.prefix journal_prefix k) eqn:Hp; [|done].
  destruct (String.prefix journal_prefix k') eqn:Hp'; [|done].
  destruct v; try done. destruct v'; try done.
  injection He as ->. injection He' as ->.
  assert (k = journal_key (LocalChange.clientId c))
    by (apply Hwf; [apply Hl; left | done]).
  assert (k' = journal_key (LocalChange.clientId c'))
    by (apply Hwf; [apply Hl; by right | done]).
  apply Hk. apply list_elem_of_fmap. exists (k', VChange c'). split; [|done].
  cbn [fst]. congruence.
Qed.

Lemma getLocalChanges_NoDup_clientId st :
  journal_wf st -> NoDup (LocalChange.clientId <$> getLocalChanges st).
Proof.
  intros Hwf. rewrite getLocalChanges_entries. by apply entries_NoDup_clientId.
Qed.

(** ** The invariant is kept *)

Lemma journal_wf_empty : journal_wf ∅.
Proof. intros k c Hk. by rewrite lookup_empty in Hk. Qed.

Lemma journal_wf_insert_change st c :
  journal_wf st -> journal_wf (<[journal_key (LocalChange.clientId c) := VChange c]> st).
Proof.
  intros Hwf k c' Hk Hp.
  destruct (decide (journal_key (LocalChange.clientId c) = k)) as [<-|Hne].
  - rewrite lookup_insert_eq in Hk. by injection Hk as <-.
  - rewrite lookup_insert_ne in Hk by done. by apply Hwf.
Qed.

Lemma journal_wf_insert_other st k v :
  (forall c, v ≠ VChange c) -> journal_wf st -> journal_wf (<[k := v]> st).
Proof.
  intros Hv Hwf k' c' Hk Hp.
  destruct (decide (k = k')) as [<-|Hne].
  - rewrite lookup_insert_eq in Hk. injection Hk as ->. by destruct (Hv c').
  - rewrite lookup_insert_ne in Hk by done. by apply Hwf.
Qed.

Lemma journal_wf_delete st k : journal_wf st -> journal_wf (delete k st).
Proof.
  intros Hwf k' c' Hk Hp.
  destruct (decide (k = k')) as [<-|Hne].
  - by rewrite lookup_delete_eq in Hk.
  - rewrite lookup_delete_ne in Hk by done. by apply Hwf.
Qed.

Lemma recordLocalChange_storage c s :
  storage (fst (recordLocalChange c s)) =
    <[journal_key (clientId_of c) := VChange (change_of c)]> (storage s).
Proof. unfold recordLocalChange. cbn. by case_match. Qed.

Lemma recordLocalChange_pending c s :
  pendingChanges (syncState (fst (recordLocalChange c s))) =
    List.length (getLocalChanges (storage (fst (recordLocalChange c s)))).
Proof. unfold recordLocalChange. cbn. by case_match. Qed.

Lemma recordLocalChange_wf c s :
  journal_wf (storage s) -> journal_wf (storage (fst (recordLocalChange c s))).
Proof.
  intros Hwf. rewrite recordLocalChange_storage.
  apply (journal_wf_insert_change (storage s) (change_of c) Hwf).
Qed.

Lemma record_all_wf calls s :
  journal_wf (storage s) -> journal_wf (storage (record_all calls s)).
Proof.
  revert s. induction calls as [|c calls IH]; intros s Hwf; [done|].
  apply IH. by apply recordLocalChange_wf.
Qed.

(** ** Recording *)







(** ** Removing acknowledged entries *)

Lemma removeProcessedChanges_eq ids s :
  removeProcessedChanges ids s = with_storage (delete_all ids (storage s)) s.
Proof.
  revert s. induction ids as [|i ids IH]; intros s; [by destruct s|].
  cbn [removeProcessedChanges fold_left delete_all].
  fold (removeProcessedChanges ids (removeLocalChange i s)).
  fold (delete_all ids (delete (journal_key i) (storage s))).
  rewrite IH. by destruct s.
Qed.


Lemma delete_all_lookup ids st k :
  delete_all ids st !! k = None \/ delete_all ids st !! k = st !! k.
Proof.
  revert st. induction ids as [|i ids IH]; intros st; [by right|].
  cbn [delete_all fold_left]. fold (delete_all ids (delete (journal_key i) st)).
  destruct (IH (delete (journal_key i) st)) as [H|H]; [by left|].
  rewrite H. destruct (decide (journal_key i = k)) as [<-|Hne].
  - left. apply lookup_delete_eq.
  - right. by apply lookup_delete_ne.
Qed.

Lemma delete_all_lookup_in ids st i :
  i ∈ ids -> delete_all ids st !! journal_key i = None.
Proof.
  revert st. induction ids as [|j ids IH]; intros st Hin; [by inversion Hin|].
  cbn [delete_all fold_left]. fold (delete_all ids (delete (journal_key j) st)).
  apply elem_of_cons in Hin as [->|Hin]; [|by apply IH].
  destruct (delete_all_lookup ids (delete (journal_key j) st) (journal_key j)) as [H|H];
    [done|].
  rewrite H. apply lookup_delete_eq.
Qed.

Lemma journal_wf_delete_all ids st : journal_wf st -> journal_wf (delete_all ids st).
Proof.
  revert st. induction ids as [|i ids IH]; intros st Hwf; [done|].
  apply IH. by apply journal_wf_delete.
Qed.


(** ** Batches *)

Lemma chunkArray_from_total {T : Type} (fuel : nat) (array : list T) (size i : nat) :
  (0 < size)%nat -> (List.length array <= i + fuel)%nat ->
  exists chunks,
    chunkArray_from fuel array size i = Some chunks /\ concat chunks = drop i array.
Proof.
  intros Hsize. revert i.
  induction fuel as [|fuel IH]; intros i Hlen.
  - exists []. cbn [chunkArray_from].
    destruct (Nat.ltb_spec i (List.length array)); [lia|].
    split; [done|]. cbn. symmetry. apply drop_ge. lia.
  - cbn [chunkArray_from].
    destruct (Nat.ltb_spec i (List.length array)) as [Hlt|Hge].
    + destruct (IH (i + size)%nat) as (chunks & -> & Hc); [lia|].
      eexists. split; [done|]. cbn [concat]. rewrite Hc.
      rewrite <- drop_drop. apply take_drop.
    + exists []. split; [done|]. cbn. symmetry. apply drop_ge. lia.
Qed.

Lemma chunkArray_total {T : Type} (fuel : nat) (array : list T) (size : nat) :
  (0 < size)%nat -> (List.length array <= fuel)%nat ->
  exists chunks, chunkArray fuel array size = Some chunks /\ concat chunks = array.
Proof.
  intros Hsize Hlen.
  destruct (chunkArray_from_total fuel array size 0 Hsize) as (chunks & H & Hc); [lia|].
  exists chunks. split; [done|]. by rewrite Hc, drop_0.
Qed.

(** Whatever the fuel and the size, a chunk holds elements of the array. *)
Lemma chunkArray_from_elem {T : Type} (fuel : nat) (array : list T) (size i : nat)
    chunks b x :
  chunkArray_from fuel array size i = Some chunks -> b ∈ chunks -> x ∈ b -> x ∈ array.
Proof.
  revert i chunks. induction fuel as [|fuel IH]; intros i chunks; cbn [chunkArray_from].
  - destruct (i <? List.length array)%nat; [done|]. intros [= <-] Hb. by inversion Hb.
  - destruct (i <? List.length array)%nat.
    + destruct (chunkArray_from fuel array size (i + size)) as [rest|] eqn:Hr; [|done].
      intros [= <-] Hb Hx. apply elem_of_cons in Hb as [->|Hb].
      * eapply subseteq_drop, subseteq_take, Hx.
      * by eapply IH.
    + intros [= <-] Hb. by inversion Hb.
Qed.

(** ** Uploading to a remote that acknowledges everything *)



(** ** Downloading *)

Lemma applyServerChanges_frame cs s :
  let s' := applyServerChanges cs s in
  storage s' = storage s /\ uploads s' = uploads s /\ syncState s' = syncState s
  /\ config s' = config s /\ downloads s' = downloads s.
Proof.
  revert s. induction cs as [|c cs IH]; intros s; [done|].
  change (applyServerChanges (c :: cs) s)
    with (applyServerChanges cs
            (emitEvent DATA_CHANGED (with_db (applyServerChange c (db s)) s))).
  cbn zeta in *.
  destruct (IH (emitEvent DATA_CHANGED (with_db (applyServerChange c (db s)) s)))
    as (-> & -> & -> & -> & ->).
  done.
Qed.

Lemma download_loop_frame fuel remote since token s o :
  download_loop fuel remote since token s = Some o ->
  storage (state_of o) = storage s /\ uploads (state_of o) = uploads s
  /\ syncState (state_of o) = syncState s /\ config (state_of o) = config s.
Proof.
  revert token s. induction fuel as [|fuel IH]; intros token s; [done|].
  cbn [download_loop].
  destruct (download remote (downloads s) since token) as [r|e]; [|by intros [= <-]].
  destruct (success r); [|by intros [= <-]].
  destruct (data r) as [d|]; [|by intros [= <-]].
  set (s1 := if (0 <? List.length (changes d))%nat then _ else _).
  assert (H1 : storage s1 = storage s /\ uploads s1 = uploads s
               /\ syncState s1 = syncState s /\ config s1 = config s).
  { subst s1. case_match; [|done].
    destruct (applyServerChanges_frame (changes d) (get_changes s)) as (-> & -> & -> & -> & _).
    done. }
  destruct H1 as (<- & <- & <- & <-).
  destruct (hasMore d); [apply IH | by intros [= <-]].
Qed.


(** ** A pass against a remote that acknowledges everything *)







(** ** What any pass does to the journal *)

Lemma no_new_changes_refl st : no_new_changes st st.
Proof. by intros k c. Qed.

Lemma no_new_changes_trans a b c :
  no_new_changes a b -> no_new_changes b c -> no_new_changes a c.
Proof. intros Hab Hbc k x Hk. by apply Hab, Hbc. Qed.

Lemma no_new_changes_delete st k : no_new_changes st (delete k st).
Proof.
  intros k' c Hk. destruct (decide (k = k')) as [<-|Hne].
  - by rewrite lookup_delete_eq in Hk.
  - by rewrite lookup_delete_ne in Hk.
Qed.

Lemma no_new_changes_insert st k v :
  (forall c, v ≠ VChange c) -> no_new_changes st (<[k := v]> st).
Proof.
  intros Hv k' c Hk. destruct (decide (k = k')) as [<-|Hne].
  - rewrite lookup_insert_eq in Hk. injection Hk as ->. by destruct (Hv c).
  - by rewrite lookup_insert_ne in Hk.
Qed.

Lemma no_new_changes_wf st st' : no_new_changes st st' -> journal_wf st -> journal_wf st'.
Proof. intros Hn Hwf k c Hk Hp. apply Hwf; [by apply Hn | done]. Qed.

Lemma no_new_changes_journal st st' c :
  no_new_changes st st' -> c ∈ getLocalChanges st' -> c ∈ getLocalChanges st.
Proof.
  intros Hn Hc. apply elem_of_getLocalChanges in Hc as (k & Hp & Hk).
  apply elem_of_getLocalChanges. exists k. split; [done|]. by apply Hn.
Qed.

Lemma upload_rel_refl allowed s : upload_rel allowed s s.
Proof.
  split; [apply no_new_changes_refl|]. split; [done|]. split; [done|].
  exists []. split; [by rewrite app_nil_r|]. intros p Hp. by inversion Hp.
Qed.

Lemma upload_rel_trans allowed a b c :
  upload_rel allowed a b -> upload_rel allowed b c -> upload_rel allowed a c.
Proof.
  intros (Hn1 & Hd1 & Hc1 & p1 & Hu1 & Hp1) (Hn2 & Hd2 & Hc2 & p2 & Hu2 & Hp2).
  split; [by eapply no_new_changes_trans|]. split; [congruence|]. split; [congruence|].
  exists (p1 ++ p2)%list. split; [by rewrite Hu2, Hu1, app_assoc|].
  intros p Hp. apply elem_of_app in Hp as [?|?]; auto.
Qed.

Lemma upload_rel_mono allowed allowed' s s' :
  (forall p, p ∈ allowed -> p ∈ allowed') ->
  upload_rel allowed s s' -> upload_rel allowed' s s'.
Proof.
  intros Hsub (Hn & Hd & Hc & posts & Hu & Hp).
  split; [done|]. split; [done|]. split; [done|]. exists posts. split; [done|]. auto.
Qed.

Lemma removeLocalChange_rel allowed i s : upload_rel allowed s (removeLocalChange i s).
Proof.
  split; [apply no_new_changes_delete|]. split; [done|]. split; [done|].
  exists []. split; [by rewrite app_nil_r|]. intros p Hp. by inversion Hp.
Qed.

Lemma resolveConflict_rel allowed c s : upload_rel allowed s (resolveConflict c s).
Proof.
  unfold resolveConflict.
  assert (Hmanual : upload_rel allowed s (manual_resolution c s)).
  { split; [by apply no_new_changes_insert|]. split; [done|]. split; [done|].
    exists []. split; [by rewrite app_nil_r|]. intros p Hp. by inversion Hp. }
  destruct (conflictResolution (config s)); cbn [mergeConflictData];
    [apply removeLocalChange_rel | apply upload_rel_refl | done | done].
Qed.

Lemma handleUploadConflicts_rel allowed cs s :
  upload_rel allowed s (handleUploadConflicts cs s).
Proof.
  revert s. induction cs as [|c cs IH]; intros s; [apply upload_rel_refl|].
  change (handleUploadConflicts (c :: cs) s)
    with (handleUploadConflicts cs (resolveConflict c s)).
  eapply upload_rel_trans; [apply resolveConflict_rel | apply IH].
Qed.

Lemma removeProcessedChanges_rel allowed ids s :
  upload_rel allowed s (removeProcessedChanges ids s).
Proof.
  revert s. induction ids as [|i ids IH]; intros s; [apply upload_rel_refl|].
  change (removeProcessedChanges (i :: ids) s)
    with (removeProcessedChanges ids (removeLocalChange i s)).
  eapply upload_rel_trans; [apply removeLocalChange_rel | apply IH].
Qed.

Lemma post_upload_rel batch s : upload_rel [batch] s (post_upload batch s).
Proof.
  split; [apply no_new_changes_refl|]. split; [done|]. split; [done|].
  exists [batch]. split; [done|]. intros p Hp. done.
Qed.

Lemma sleep_rel allowed ms s : upload_rel allowed s (sleep ms s).
Proof.
  split; [apply no_new_changes_refl|]. split; [done|]. split; [done|].
  exists []. split; [by rewrite app_nil_r|]. intros p Hp. by inversion Hp.
Qed.

Lemma uploadBatch_loop_rel remote batch remaining attempt s :
  upload_rel [batch] s (state_of (uploadBatch_loop remote batch remaining attempt s)).
Proof.
  revert attempt s. induction remaining as [|remaining IH]; intros attempt s;
    [apply upload_rel_refl|].
  cbn [uploadBatch_loop].
  pose proof (post_upload_rel batch s) as Hpost.
  destruct (upload remote (List.length (uploads s)) batch) as [r|e].
  - destruct (success r); [|done]. destruct (data r) as [d|]; [|done].
    cbn [state_of].
    eapply upload_rel_trans; [exact Hpost|].
    eapply upload_rel_trans; [|apply removeProcessedChanges_rel].
    case_match; [apply handleUploadConflicts_rel | apply upload_rel_refl].
  - case_match; [done|].
    eapply upload_rel_trans; [exact Hpost|].
    eapply upload_rel_trans; [apply sleep_rel | apply IH].
Qed.

Lemma upload_batches_rel remote batches s :
  upload_rel batches s (state_of (upload_batches remote batches s)).
Proof.
  revert s. induction batches as [|b batches IH]; intros s; [apply upload_rel_refl|].
  cbn [upload_batches].
  pose proof (uploadBatch_loop_rel remote b (retryAttempts (config s)) 0 s) as Hb.
  fold (uploadBatch remote b s) in Hb.
  apply (upload_rel_mono [b] (b :: batches)) in Hb.
  2:{ intros p Hp. apply list_elem_of_singleton in Hp as ->. left. }
  destruct (uploadBatch remote b s) as [s'|e s']; cbn [state_of] in *; [|done].
  eapply upload_rel_trans; [exact Hb|].
  eapply upload_rel_mono; [|apply IH]. intros p Hp. by right.
Qed.

(** The step uploads nothing but entries of the journal it started from,
    and leaves the database alone. *)
Lemma uploadLocalChanges_rel fuel remote s o :
  uploadLocalChanges fuel remote s = Some o ->
  no_new_changes (storage s) (storage (state_of o))
  /\ db (state_of o) = db s
  /\ exists posts, uploads (state_of o) = (uploads s ++ posts)%list
       /\ forall p ch, p ∈ posts -> ch ∈ p -> ch ∈ getLocalChanges (storage s).
Proof.
  unfold uploadLocalChanges. case_match.
  - intros [= <-]. split; [apply no_new_changes_refl|]. split; [done|].
    exists []. split; [by rewrite app_nil_r|]. intros p ch Hp. by inversion Hp.
  - destruct (chunkArray fuel (getLocalChanges (storage s)) (batchSize (config s)))
      as [batches|] eqn:Hchunk; [|done].
    intros [= <-].
    destruct (upload_batches_rel remote batches s) as (Hn & Hd & _ & posts & Hu & Hp).
    split; [done|]. split; [done|]. exists posts. split; [done|].
    intros p ch Hin Hch. eapply chunkArray_from_elem; [exact Hchunk | by apply Hp | done].
Qed.

(** A whole pass, against any remote and under any strategy. *)
Lemma startSync_pass fuel force remote now s s' :
  startSync fuel force remote now s = Some s' ->
  no_new_changes (storage s) (storage s')
  /\ exists posts, uploads s' = (uploads s ++ posts)%list
       /\ forall p ch, p ∈ posts -> ch ∈ p -> ch ∈ getLocalChanges (storage s).
Proof.
  assert (Hnone : no_new_changes (storage s) (storage s)
    /\ exists posts, uploads s = (uploads s ++ posts)%list
         /\ forall p ch, p ∈ posts -> ch ∈ p -> ch ∈ getLocalChanges (storage s)).
  { split; [apply no_new_changes_refl|]. exists []. split; [by rewrite app_nil_r|].
    intros p ch Hp. by inversion Hp. }
  unfold startSync.
  destruct (isSyncing (syncState s) && negb force); [by intros [= <-]|].
  destruct (negb (isOnline (syncState s))); [by intros [= <-]|].
  set (sa := emitEvent SYNC_STARTED _).
  destruct (uploadLocalChanges fuel remote sa) as [o|] eqn:Hup; [|done].
  destruct (uploadLocalChanges_rel _ _ _ _ Hup) as (Hn & _ & posts & Hu & Hp).
  change (storage sa) with (storage s) in Hn, Hp.
  change (uploads sa) with (uploads s) in Hu.
  destruct o as [sb|e sb]; cbn [state_of] in *.
  - unfold downloadServerChanges.
    destruct (download_loop fuel remote (lastSyncTime (syncState sb)) None sb)
      as [o|] eqn:Hdown; [|done].
    destruct (download_loop_frame _ _ _ _ _ _ Hdown) as (Hst & Hupl & _ & _).
    destruct o as [sc|e sc]; cbn [state_of] in *; intros [= <-].
    + split.
      * eapply no_new_changes_trans; [exact Hn|].
        cbn. rewrite <- Hst. by apply no_new_changes_insert.
      * exists posts. split; [|done]. cbn. by rewrite Hupl.
    + split.
      * cbn. by rewrite Hst.
      * exists posts. split; [|done]. cbn. by rewrite Hupl.
  - intros [= <-]. split; [done|]. exists posts. split; [|done]. done.
Qed.

(** Every operation keeps the journal well keyed. *)
Lemma run_wf ops s t :
  journal_wf (storage s) -> run ops s = Some t -> journal_wf (storage t).
Proof.
  revert s. induction ops as [|op ops IH]; intros s Hwf; cbn [run].
  - by intros [= <-].
  - destruct op as [c|fuel force remote now].
    + apply IH. by apply recordLocalChange_wf.
    + destruct (startSync fuel force remote now s) as [s'|] eqn:Hpass; [|done].
      apply IH. destruct (startSync_pass _ _ _ _ _ _ Hpass) as [Hn _].
      by eapply no_new_changes_wf.
Qed.

(** C9: recording under the [clientId] of an entry that is still in the
    journal stores the new change under the same key,
    [local_change_<clientId>]: the old entry is gone, the new one is
    there, the journal has as many entries as before, and [pendingChanges]
    is that number, the number of distinct [clientId]s in the journal.
    Whatever recordings and passes follow, the journal stays well keyed
    and no two of its entries share a [clientId]. *)
Theorem record_overwrites_same_clientId (c : RecordCall) (s : Service)
    (old : LocalChange.t) :
  journal_wf (storage s) ->
  old ∈ getLocalChanges (storage s) ->
  clientId_of c = LocalChange.clientId old ->
  let s' := fst (recordLocalChange c s) in
  snd (recordLocalChange c s) = LocalChange.clientId old
  /\ storage s' !! journal_key (LocalChange.clientId old) = Some (VChange (change_of c))
  /\ change_of c ∈ getLocalChanges (storage s')
  /\ (old ≠ change_of c -> old ∉ getLocalChanges (storage s'))
  /\ List.length (getLocalChanges (storage s')) = List.length (getLocalChanges (storage s))
  /\ pendingChanges (syncState s') = List.length (getLocalChanges (storage s))
  /\ pendingChanges (syncState s') =
       size (list_to_set (LocalChange.clientId <$> getLocalChanges (storage s'))
             : gset string)
  /\ (forall ops t, run ops s = Some t ->
         journal_wf (storage t)
         /\ NoDup (LocalChange.clientId <$> getLocalChanges (storage t))).
Proof.
  intros Hwf Hold Hid s'.
  assert (Hwf' : journal_wf (storage s')) by by apply recordLocalChange_wf.
  assert (Hst : storage s' =
            <[journal_key (LocalChange.clientId old) := VChange (change_of c)]> (storage s))
    by (subst s'; rewrite recordLocalChange_storage; by rewrite Hid).
  assert (Hlen : List.length (getLocalChanges (storage s'))
                 = List.length (getLocalChanges (storage s))).
  { apply (elem_of_getLocalChanges_wf _ _ Hwf) in Hold.
    rewrite !getLocalChanges_entries, Hst, entries_insert.
    rewrite (entries_delete (storage s) (journal_key (LocalChange.clientId old))), Hold.
    unfold entry. cbn [fst snd mbind option_bind].
    rewrite journal_key_prefix. done. }
  assert (Hpending : pendingChanges (syncState s')
                     = List.length (getLocalChanges (storage s')))
    by (subst s'; by rewrite recordLocalChange_pending).
  split; [exact Hid|]. split; [by rewrite Hst, lookup_insert_eq|].
  split.
  { apply (elem_of_getLocalChanges_wf _ _ Hwf'). cbn [change_of LocalChange.clientId].
    rewrite Hid, Hst. apply lookup_insert_eq. }
  split.
  { intros Hne Hin. apply (elem_of_getLocalChanges_wf _ _ Hwf') in Hin.
    rewrite Hst, lookup_insert_eq in Hin. congruence. }
  split; [done|]. split; [congruence|]. split.
  { rewrite Hpending, size_list_to_set, length_fmap; [done|].
    by apply getLocalChanges_NoDup_clientId. }
  intros ops t Hrun.
  assert (journal_wf (storage t)) by apply (run_wf ops s t Hwf Hrun).
  split; [done|]. by apply getLocalChanges_NoDup_clientId.
Qed.

Lemma record_overwrites_same_clientId_witness :
  let s := fst (recordLocalChange first_edit new) in
  let s' := fst (recordLocalChange second_edit s) in
  snd (recordLocalChange second_edit s) = "draft-1"
  /\ storage s' !! journal_key "draft-1" = Some (VChange (change_of second_edit))
  /\ change_of second_edit ∈ getLocalChanges (storage s')
  /\ (change_of first_edit ≠ change_of second_edit ->
      change_of first_edit ∉ getLocalChanges (storage s'))
  /\ List.length (getLocalChanges (storage s')) = List.length (getLocalChanges (storage s))
  /\ pendingChanges (syncState s') = List.length (getLocalChanges (storage s))
  /\ pendingChanges (syncState s') =
       size (list_to_set (LocalChange.clientId <$> getLocalChanges (storage s'))
             : gset string)
  /\ (forall ops t, run ops s = Some t ->
         journal_wf (storage t)
         /\ NoDup (LocalChange.clientId <$> getLocalChanges (storage t))).
Proof.
  intros s s'.
  apply (record_overwrites_same_clientId second_edit s (change_of first_edit)).
  - apply recordLocalChange_wf, journal_wf_empty.
  - vm_compute. left.
  - reflexivity.
Defined.

(** C4, as the code has it: under the server-wins strategy a batch whose
    reply reports a conflict is posted once, and afterwards no entry of the
    journal carries the [clientId] of the conflict; as long as nothing is
    recorded under that [clientId] again, no later pass posts a change with
    it, whatever the remote answers.  Resolving a conflict and uploading
    leave the local database as it was: the [serverData] of a conflict is
    not written to it. *)
Theorem server_wins_discards_conflicting_entry (remote : Remote) (s : Service)
    (batch : list LocalChange.t) (d : UploadChangesResponse) (c : SyncConflict.t) :
  conflictResolution (config s) = SERVER_WINS ->
  journal_wf (storage s) ->
  (0 < retryAttempts (config s))%nat ->
  upload remote (List.length (uploads s)) batch = Resolves (mkApiResponse true (Some d)) ->
  c ∈ conflicts d ->
  exists s1,
    uploadBatch remote batch s = Returns s1
    /\ uploads s1 = (uploads s ++ [batch])%list
    /\ storage s1 !! journal_key (SyncConflict.clientId c) = None
    /\ (SyncConflict.clientId c ∉ (LocalChange.clientId <$> getLocalChanges (storage s1)))
    /\ journal_wf (storage s1)
    /\ db s1 = db s
    /\ (forall t fuel force remote' now t',
          journal_wf (storage t) ->
          (SyncConflict.clientId c ∉ (LocalChange.clientId <$> getLocalChanges (storage t))) ->
          startSync fuel force remote' now t = Some t' ->
          journal_wf (storage t')
          /\ (SyncConflict.clientId c ∉ (LocalChange.clientId <$> getLocalChanges (storage t')))
          /\ forall b ch, b ∈ uploaded_since t t' -> ch ∈ b ->
               LocalChange.clientId ch ≠ SyncConflict.clientId c)
    /\ (forall conflict t, db (resolveConflict conflict t) = db t)
    /\ (forall fuel remote' t o,
          uploadLocalChanges fuel remote' t = Some o -> db (state_of o) = db t).
Proof.
  intros Hstrategy Hwf Hretry Hreply Hc.
  unfold uploadBatch. destruct (retryAttempts (config s)) as [|r]; [lia|].
  cbn [uploadBatch_loop]. rewrite Hreply. cbn [success data].
  assert (Hnonempty : (0 <? List.length (conflicts d))%nat = true).
  { apply Nat.ltb_lt. destruct (conflicts d); [by inversion Hc | cbn; lia]. }
  rewrite Hnonempty.
  assert (Hresolve : forall cs t, conflictResolution (config t) = SERVER_WINS ->
            handleUploadConflicts cs t
            = removeProcessedChanges (SyncConflict.clientId <$> cs) t).
  { induction cs as [|x cs IH]; intros t Ht; [done|].
    change (handleUploadConflicts (x :: cs) t)
      with (handleUploadConflicts cs (resolveConflict x t)).
    unfold resolveConflict. rewrite Ht. by rewrite IH. }
  rewrite Hresolve by done. rewrite !removeProcessedChanges_eq.
  eexists. split; [done|].
  cbn [uploads storage db with_storage post_upload].
  assert (Hgone : delete_all (processed d)
                    (delete_all (SyncConflict.clientId <$> conflicts d) (storage s))
                  !! journal_key (SyncConflict.clientId c) = None).
  { destruct (delete_all_lookup (processed d)
                (delete_all (SyncConflict.clientId <$> conflicts d) (storage s))
                (journal_key (SyncConflict.clientId c))) as [H|H]; [done|].
    rewrite H. apply delete_all_lookup_in. by apply list_elem_of_fmap_2. }
  assert (Hwf1 : journal_wf (delete_all (processed d)
                    (delete_all (SyncConflict.clientId <$> conflicts d) (storage s))))
    by by do 2 apply journal_wf_delete_all.
  split; [done|]. split; [done|]. split.
  { intros Hin. apply list_elem_of_fmap in Hin as (ch & Hid & Hch).
    apply (elem_of_getLocalChanges_wf _ _ Hwf1) in Hch.
    rewrite <- Hid in Hch. congruence. }
  split; [done|]. split; [done|]. split; [|split].
  - intros t fuel force remote' now t' Hwft Hnotin Hpass.
    destruct (startSync_pass _ _ _ _ _ _ Hpass) as (Hn & posts & Hu & Hposts).
    split; [by eapply no_new_changes_wf|]. split.
    + intros Hin. apply Hnotin.
      apply list_elem_of_fmap in Hin as (ch & Hid & Hch).
      apply list_elem_of_fmap. exists ch. split; [done|].
      by eapply no_new_changes_journal.
    + intros b ch Hb Hch Hid. apply Hnotin.
      unfold uploaded_since in Hb. rewrite Hu, drop_app_length in Hb.
      apply list_elem_of_fmap. exists ch. split; [done|]. by eapply Hposts.
  - intros conflict t. by destruct (resolveConflict_rel [] conflict t) as (_ & ? & _).
  - intros fuel remote' t o Hup. by destruct (uploadLocalChanges_rel _ _ _ _ Hup) as (_ & ? & _).
Qed.

Lemma server_wins_discards_conflicting_entry_witness :
  let c := SyncConflict.mk "draft-1" VERSION_CONFLICT server_version (mkEntity "m1" "hi") in
  let batch := getLocalChanges (storage one_draft) in
  exists s1,
    uploadBatch conflicting_remote batch one_draft = Returns s1
    /\ uploads s1 = (uploads one_draft ++ [batch])%list
    /\ storage s1 !! journal_key (SyncConflict.clientId c) = None
    /\ (SyncConflict.clientId c ∉ (LocalChange.clientId <$> getLocalChanges (storage s1)))
    /\ journal_wf (storage s1)
    /\ db s1 = db one_draft
    /\ (forall t fuel force remote' now t',
          journal_wf (storage t) ->
          (SyncConflict.clientId c ∉ (LocalChange.clientId <$> getLocalChanges (storage t))) ->
          startSync fuel force remote' now t = Some t' ->
          journal_wf (storage t')
          /\ (SyncConflict.clientId c ∉ (LocalChange.clientId <$> getLocalChanges (storage t')))
          /\ forall b ch, b ∈ uploaded_since t t' -> ch ∈ b ->
               LocalChange.clientId ch ≠ SyncConflict.clientId c)
    /\ (forall conflict t, db (resolveConflict conflict t) = db t)
    /\ (forall fuel remote' t o,
          uploadLocalChanges fuel remote' t = Some o -> db (state_of o) = db t).
Proof.
  intros c batch.
  apply (server_wins_discards_conflicting_entry conflicting_remote one_draft batch
           (mkUploadResponse [c] []) c).
  - reflexivity.
  - apply record_all_wf, journal_wf_empty.
  - simpl. lia.
  - reflexivity.
  - left.
Defined.

(** C4 as stated fails on its last part: after a server-wins pass in which
    the reply reports a conflict for message [m1] with the server's
    version, the entry has left the journal, but the local database holds
    no row for [m1], and none of its tables holds the server's version. *)
Lemma server_payload_is_not_stored :
  (fun s2 => (getLocalChanges (storage s2), uploaded_since one_draft s2,
              messages (db s2) !! "m1", db s2))
    <$> startSync 5 false conflicting_remote 4000 one_draft
  = Some ([], [[change_of first_edit]], None, mkDatabase ∅ ∅ ∅)
  /\ conflictResolution (config one_draft) = SERVER_WINS
  /\ (∅ : gmap string Entity) !! entity_id server_version ≠ Some server_version.
Proof.
  split; [vm_compute; reflexivity|]. split; [reflexivity|].
  rewrite lookup_empty. discriminate.
Qed.

End SyncFacts.

(* ===================================================================== *)
(** * Further properties *)
(* ===================================================================== *)

Module ApiClientErrorFacts.
Import ApiClient.

(** The capture of the status pattern, when there is one, begins with the
    backslash the pattern spells. *)
Lemma match_http_status_capture m cap :
  match_http_status m = Some cap -> exists ds, cap = String "\" ds.
Proof.
  induction m as [|a m IH]; cbn [match_http_status]; [discriminate|].
  destruct (String.prefix "HTTP \d" (String a m)).
  - intros [= <-]. unfold String.append. eauto.
  - exact IH.
Qed.

Lemma parseInt_backslash ds : parseInt (String "\" ds) = None.
Proof. reflexivity. Qed.

Lemma http_message_not_builtin m :
  String.prefix "HTTP " m = true ->
  String.eqb m "Request timeout" = false /\ String.eqb m "Failed to fetch" = false.
Proof.
  destruct m as [|a m]; [discriminate|].
  cbn [String.prefix]. destruct (ascii_dec "H" a) as [<-|]; [|discriminate].
  intros _. split; reflexivity.
Qed.

Lemma http_prefix rest : String.prefix "HTTP " ("HTTP " +:+ rest) = true.
Proof. unfold String.append. destruct rest; reflexivity. Qed.

Lemma normalizeError_http m :
  String.prefix "HTTP " m = true ->
  normalizeError (mkJsError None "" m) = mkApiError SERVER_ERROR "服务器内部错误".
Proof.
  intros Hp. unfold normalizeError. cbn [code message].
  destruct (http_message_not_builtin m Hp) as [-> ->]. rewrite Hp. cbn.
  destruct (match_http_status m) as [cap|] eqn:Hm.
  - destruct (match_http_status_capture _ _ Hm) as [ds ->]. reflexivity.
  - reflexivity.
Qed.


(** When every pass through the [try] block throws the same error, that
    error is the one [request] normalises, however many retries are made. *)
Lemma request_loop_constant_failure c net rc e fuel attempt delays lr :
  (forall k, try_once c net k rc = inl e) ->
  request_loop c net rc fuel attempt delays = Some lr ->
  result lr = inl e.
Proof.
  intros Hfail. revert attempt delays.
  induction fuel as [|fuel IH]; intros attempt delays; cbn [request_loop];
    [discriminate|].
  rewrite Hfail.
  destruct ((S attempt <=? maxRetries (config c))%nat && retryCondition (config c) e).
  - apply IH.
  - intros [= <-]. reflexivity.
Qed.

Lemma request_constant_failure c net options e :
  (forall k rc, try_once c net k rc = inl e) ->
  exists r,
    request c net options = Some r
    /\ settled r =
         Rejected (fold_left (fun e f => f e) (errorInterceptors c) (normalizeError e)).
Proof.
  intros Hfail. destruct (ApiClientFacts.request_total c net options) as [r Hr].
  exists r. split; [done|]. revert Hr. unfold request.
  match goal with
  | |- context [request_loop ?c ?n ?rc ?f ?a ?d] =>
      destruct (request_loop c n rc f a d) as [lr|] eqn:Hloop; [|done]
  end.
  rewrite (request_loop_constant_failure _ _ _ e _ _ _ _ (fun k => Hfail k _) Hloop).
  intros [= <-]. reflexivity.
Qed.

Lemma try_once_fetch_fails c net k rc o e :
  (forall rc, exists rc', run_chain (requestInterceptors c) rc = inr rc') ->
  (forall k rc, net k rc = o) ->
  performRequest o = inl e ->
  try_once c net k rc = inl e.
Proof.
  intros Hreq Hnet Hperf. unfold try_once.
  destruct (Hreq rc) as [rc' ->]. rewrite Hnet, Hperf. reflexivity.
Qed.

(** X1: an HTTP error status is never told apart.  For every response whose
    status is outside 200..299, [performRequest] throws an [Error] with the
    message "HTTP <status>: <statusText>" and no [code]; [normalizeError]
    turns it into SERVER_ERROR with the text of its [default] branch,
    whatever the status: the status pattern it uses asks for a backslash
    and letters [d] after "HTTP ", so a match, if any, does not parse as a
    number, and without a match the status is taken to be 500.  A request
    that is answered this way on every attempt is rejected with that error
    (passed through the error interceptors). *)
Theorem http_status_is_never_classified (status : Z) (statusText : string) (body : Body) :
  ok status = false ->
  exists e,
    performRequest (FetchResponds status statusText body) = inl e
    /\ normalizeError e = mkApiError SERVER_ERROR "服务器内部错误"
    /\ forall c net options,
         (forall rc, exists rc', run_chain (requestInterceptors c) rc = inr rc') ->
         (forall k rc, net k rc = FetchResponds status statusText body) ->
         exists r,
           request c net options = Some r
           /\ settled r =
                Rejected (fold_left (fun e f => f e) (errorInterceptors c)
                            (mkApiError SERVER_ERROR "服务器内部错误")).
Proof.
  intros Hok. eexists. split; [cbn [performRequest]; rewrite Hok; reflexivity|].
  assert (Hnorm : normalizeError
            (mkJsError None "" ("HTTP " +:+ pretty status +:+ ": " +:+ statusText))
          = mkApiError SERVER_ERROR "服务器内部错误").
  { apply normalizeError_http, http_prefix. }
  split; [exact Hnorm|].
  intros c net options Hreq Hnet.
  rewrite <- Hnorm. apply request_constant_failure. intros k rc.
  eapply try_once_fetch_fails; [done|done|].
  cbn [performRequest]. rewrite Hok. reflexivity.
Qed.

Lemma http_status_is_never_classified_witness :
  exists e,
    performRequest (FetchResponds 404 "Not Found" BodyNotObject) = inl e
    /\ normalizeError e = mkApiError SERVER_ERROR "服务器内部错误"
    /\ forall c net options,
         (forall rc, exists rc', run_chain (requestInterceptors c) rc = inr rc') ->
         (forall k rc, net k rc = FetchResponds 404 "Not Found" BodyNotObject) ->
         exists r,
           request c net options = Some r
           /\ settled r =
                Rejected (fold_left (fun e f => f e) (errorInterceptors c)
                            (mkApiError SERVER_ERROR "服务器内部错误")).
Proof. apply (http_status_is_never_classified 404 "Not Found" BodyNotObject). reflexivity. Defined.


Lemma or_else_nonempty a b : b <> "" -> String.eqb (or_else a b) "" = false.
Proof.
  intros Hb. unfold or_else. destruct (String.eqb a "") eqn:Ha; [|done].
  apply String.eqb_neq, Hb.
Qed.

(** X2: a business error reaches the caller as the server sent it.  When
    every attempt is answered with a 2xx response whose body says
    [success: false], [request] rejects with the [code] and [message] of the
    body's [error], with SERVER_ERROR and "Unknown error" standing in for a
    missing or empty one; [normalizeError] leaves such an error as it is. *)
Theorem business_error_is_surfaced (c : Client)
    (net : nat -> RequestOptions -> FetchOutcome) (options : RequestOptions)
    (status : Z) (statusText : string) (payload : option string)
    (err : option ErrorEnvelope) :
  ok status = true ->
  (forall rc, exists rc', run_chain (requestInterceptors c) rc = inr rc') ->
  responseInterceptors c = [] ->
  (forall k rc,
     net k rc = FetchResponds status statusText (BodyEnvelope (Some false) payload err)) ->
  exists r,
    request c net options = Some r
    /\ settled r =
         Rejected (fold_left (fun e f => f e) (errorInterceptors c)
                     (mkApiError (or_else (from_option env_code "" err) SERVER_ERROR)
                                 (or_else (from_option env_message "" err) "Unknown error"))).
Proof.
  intros Hok Hreq Hresp Hnet.
  set (e := mkJsError None (or_else (from_option env_code "" err) SERVER_ERROR)
                      (or_else (from_option env_message "" err) "Unknown error")).
  assert (Hnorm : normalizeError e =
            mkApiError (or_else (from_option env_code "" err) SERVER_ERROR)
                       (or_else (from_option env_message "" err) "Unknown error")).
  { unfold normalizeError, e. cbn [code message].
    rewrite !or_else_nonempty by done. reflexivity. }
  rewrite <- Hnorm. apply request_constant_failure. intros k rc.
  unfold try_once. destruct (Hreq rc) as [rc' ->]. rewrite Hnet.
  cbn [performRequest]. rewrite Hok, Hresp. reflexivity.
Qed.

Lemma business_error_is_surfaced_witness :
  let c := new "https://api.xiaoxiang.com" in
  let net := fun (_ : nat) (_ : RequestOptions) =>
    FetchResponds 200 "OK"
      (BodyEnvelope (Some false) None (Some (mkErrorEnvelope "VALIDATION_ERROR" ""))) in
  exists r,
    request c net (mkRequestOptions POST "/messages" (Some "{}") ∅ 0) = Some r
    /\ settled r = Rejected (mkApiError "VALIDATION_ERROR" "Unknown error").
Proof.
  intros c net.
  apply (business_error_is_surfaced c net (mkRequestOptions POST "/messages" (Some "{}") ∅ 0)
           200 "OK" None (Some (mkErrorEnvelope "VALIDATION_ERROR" ""))).
  - reflexivity.
  - intros rc. exists rc. reflexivity.
  - reflexivity.
  - reflexivity.
Defined.

(** X3: failures below HTTP are classified by their message.  A request
    whose every attempt is aborted by the timeout is rejected with
    TIMEOUT_ERROR; one whose [fetch] fails with "Failed to fetch" is
    rejected with NETWORK_ERROR; one whose 2xx body is not an object is
    rejected with SERVER_ERROR and the message "Invalid response format". *)
Theorem transport_failures_are_classified (c : Client) (options : RequestOptions) :
  (forall rc, exists rc', run_chain (requestInterceptors c) rc = inr rc') ->
  (exists r,
     request c (fun _ _ => FetchAborted) options = Some r
     /\ settled r =
          Rejected (fold_left (fun e f => f e) (errorInterceptors c)
                      (mkApiError TIMEOUT_ERROR "请求超时，请检查网络连接")))
  /\ (exists r,
        request c (fun _ _ => FetchRejects "Failed to fetch") options = Some r
        /\ settled r =
             Rejected (fold_left (fun e f => f e) (errorInterceptors c)
                         (mkApiError NETWORK_ERROR "网络连接失败，请检查网络设置")))
  /\ (responseInterceptors c = [] ->
      exists r,
        request c (fun _ _ => FetchResponds 200 "OK" BodyNotObject) options = Some r
        /\ settled r =
             Rejected (fold_left (fun e f => f e) (errorInterceptors c)
                         (mkApiError SERVER_ERROR "Invalid response format"))).
Proof.
  intros Hreq. split; [|split].
  - change (mkApiError TIMEOUT_ERROR "请求超时，请检查网络连接")
      with (normalizeError (mkJsError None "" "Request timeout")).
    apply request_constant_failure. intros k rc.
    by eapply try_once_fetch_fails.
  - change (mkApiError NETWORK_ERROR "网络连接失败，请检查网络设置")
      with (normalizeError (mkJsError None "" "Failed to fetch")).
    apply request_constant_failure. intros k rc.
    by eapply try_once_fetch_fails.
  - intros Hresp.
    change (mkApiError SERVER_ERROR "Invalid response format")
      with (normalizeError (mkJsError None "" "Invalid response format")).
    apply request_constant_failure. intros k rc.
    unfold try_once. destruct (Hreq rc) as [rc' ->].
    cbn [performRequest]. rewrite Hresp. reflexivity.
Qed.

Lemma transport_failures_are_classified_witness :
  let c := new "https://api.xiaoxiang.com" in
  let options := mkRequestOptions GET "/chats" None ∅ 0 in
  (exists r,
     request c (fun _ _ => FetchAborted) options = Some r
     /\ settled r =
          Rejected (fold_left (fun e f => f e) (errorInterceptors c)
                      (mkApiError TIMEOUT_ERROR "请求超时，请检查网络连接")))
  /\ (exists r,
        request c (fun _ _ => FetchRejects "Failed to fetch") options = Some r
        /\ settled r =
             Rejected (fold_left (fun e f => f e) (errorInterceptors c)
                         (mkApiError NETWORK_ERROR "网络连接失败，请检查网络设置")))
  /\ (responseInterceptors c = [] ->
      exists r,
        request c (fun _ _ => FetchResponds 200 "OK" BodyNotObject) options = Some r
        /\ settled r =
             Rejected (fold_left (fun e f => f e) (errorInterceptors c)
                         (mkApiError SERVER_ERROR "Invalid response format"))).
Proof.
  intros c options. apply (transport_failures_are_classified c options).
  intros rc. exists rc. reflexivity.
Defined.


End ApiClientErrorFacts.

Module JWTAuthSessionFacts.
Import JWTAuth JWTAuthSession.

(** Starting a refresh touches neither the auth state, the secure store
    nor the events. *)
Lemma refreshToken_begin_frame s :
  let s' := fst (refreshToken_begin s) in
  authState s' = authState s /\ secureStorage s' = secureStorage s
  /\ emitted s' = emitted s /\ refreshTimer s' = refreshTimer s.
Proof.
  unfold refreshToken_begin, performTokenRefresh_begin.
  destruct (refreshPromise s); [done|].
  destruct (AuthState.tokenInfo (authState s)) as [ti|]; [|done].
  destruct (String.eqb (JWTTokenInfo.refreshToken ti) ""); done.
Qed.

Lemma scheduleTokenRefresh_frame now s :
  let s' := scheduleTokenRefresh now s in
  authState s' = authState s /\ secureStorage s' = secureStorage s
  /\ emitted s' = emitted s.
Proof.
  unfold scheduleTokenRefresh. cbn [with_refreshTimer authState].
  destruct (AuthState.tokenInfo (authState s)) as [ti|]; [|done].
  destruct (0 <? _)%Z; [done|].
  destruct (refreshToken_begin_frame (with_refreshTimer None s)) as (-> & -> & -> & _).
  done.
Qed.


(** X5: what [initialize] does on a freshly constructed service, for any
    content of the secure store (one clock reading [now]).  The session is
    authenticated afterwards exactly when the store holds tokens that expire
    more than the 5-minute buffer after [now].  Tokens that have expired are
    removed from the store; tokens that expire within the buffer stay in
    the store, but the session is not restored and no refresh is requested,
    because [performTokenRefresh] reads the refresh token from [authState],
    which [initialize] has not filled on that branch.  A restored session
    has no user; its refresh is scheduled ten minutes before expiry, or
    started at once when less than that is left. *)
Theorem initialize_restores_only_valid_session (now : Z) (outcome : PostOutcome)
    (stored : option AuthTokens) :
  exists s',
    initialize now outcome (started_over stored) = Some s'
    /\ (isAuthenticated now s' = true <->
        exists t, stored = Some t /\ (now + bufferTime < stored_expiresAt t)%Z)
    /\ secureStorage s' =
         match stored with
         | Some t => if (now <? stored_expiresAt t)%Z then Some t else None
         | None => None
         end
    /\ getCurrentUser s' = None
    /\ emitted s' = []
    /\ (isAuthenticated now s' = false ->
        authState s' = authState new /\ posted s' = [] /\ refreshTimer s' = None)
    /\ (forall t, stored = Some t -> isAuthenticated now s' = true ->
        AuthState.tokenInfo (authState s') =
          Some (JWTTokenInfo.mk (stored_accessToken t) (stored_refreshToken t)
                  ((stored_expiresAt t - now) / 1000)%Z (stored_expiresAt t) "Bearer")
        /\ let refreshTime := (stored_expiresAt t - now - 10 * 60 * 1000)%Z in
           if (0 <? refreshTime)%Z
           then refreshTimer s' = Some refreshTime /\ posted s' = []
           else refreshTimer s' = None
                /\ posted s' = (if String.eqb (stored_refreshToken t) "" then []
                                else [stored_refreshToken t])).
Proof.
  unfold initialize, loadTokenFromStorage, getAuthTokens, started_over.
  cbn [secureStorage with_secureStorage new].
  destruct stored as [t|].
  2: { eexists. split; [reflexivity|]. cbn.
       repeat split; try done. by intros (t & ? & _). }
  destruct (Z.ltb_spec now (stored_expiresAt t)) as [Hlive|Hdead].
  2: { eexists. split; [reflexivity|]. cbn.
       repeat split; try done.
       intros (t' & [= <-] & Hlt). unfold bufferTime in Hlt. lia. }
  unfold isTokenValid. cbn [JWTTokenInfo.expiresAt].
  destruct (Z.ltb_spec (now + bufferTime) (stored_expiresAt t)) as [Hvalid|Hsoon].
  - eexists. split; [reflexivity|].
    match goal with
    | |- context [scheduleTokenRefresh now ?s0] =>
        destruct (scheduleTokenRefresh_frame now s0) as (Ha & Hs & He);
        set (s1 := scheduleTokenRefresh now s0) in *
    end.
    assert (Hauth : isAuthenticated now s1 = true).
    { unfold isAuthenticated, isCurrentTokenValid, isTokenValid. rewrite Ha. cbn.
      apply Z.ltb_lt, Hvalid. }
    split; [split; [eauto|done]|].
    split; [by rewrite Hs|]. split; [unfold getCurrentUser; by rewrite Ha|].
    split; [by rewrite He|]. split; [congruence|].
    intros t' [= <-] _. split; [by rewrite Ha|].
    subst s1. unfold scheduleTokenRefresh. cbn.
    destruct (0 <? _)%Z; [done|].
    unfold refreshToken_begin, performTokenRefresh_begin. cbn.
    destruct (String.eqb (stored_refreshToken t) ""); done.
  - eexists. split; [reflexivity|]. cbn.
    split; [split; [done|]|].
    { intros (t' & [= <-] & Hlt). lia. }
    repeat split; try done.
Qed.








(** X9: [getTokenRemainingTime] is never negative and never grows with
    time; it is 0 exactly when there is no token or less than a full second
    is left; while [isAuthenticated()] holds it is at least 300 seconds. *)
Theorem remaining_time_bounds (now : Z) (s : Service) :
  (0 <= getTokenRemainingTime now s)%Z
  /\ (isAuthenticated now s = true -> (300 <= getTokenRemainingTime now s)%Z)
  /\ (forall later, (now <= later)%Z ->
        (getTokenRemainingTime later s <= getTokenRemainingTime now s)%Z)
  /\ (getTokenRemainingTime now s = 0%Z <->
      match AuthState.tokenInfo (authState s) with
      | Some tokenInfo => (JWTTokenInfo.expiresAt tokenInfo < now + 1000)%Z
      | None => True
      end).
Proof.
  unfold getTokenRemainingTime, isAuthenticated, isCurrentTokenValid, isTokenValid,
    bufferTime.
  destruct (AuthState.tokenInfo (authState s)) as [ti|].
  - set (e := JWTTokenInfo.expiresAt ti). split; [lia|]. split; [|split].
    + rewrite andb_true_iff, Z.ltb_lt. intros [_ H].
      assert (300 <= (e - now) / 1000)%Z by (apply Z.div_le_lower_bound; lia). lia.
    + intros later Hl.
      assert ((e - later) / 1000 <= (e - now) / 1000)%Z
        by (apply Z.div_le_mono; lia). lia.
    + split.
      * intros H. assert ((e - now) / 1000 <= 0)%Z by lia.
        destruct (Z.lt_ge_cases e (now + 1000)) as [|Hge]; [done|].
        assert (1 <= (e - now) / 1000)%Z by (apply Z.div_le_lower_bound; lia). lia.
      * intros H. assert ((e - now) / 1000 < 1)%Z
          by (apply Z.div_lt_upper_bound; lia). lia.
  - rewrite andb_false_r. repeat split; try done; lia.
Qed.

(** X10: [forceRefreshToken] gives up the single flight.  While a refresh
    is in flight, [refreshToken()] joins it and posts nothing, whereas
    [forceRefreshToken()] posts a second request with the current refresh
    token and stores a new promise. *)
Theorem forceRefreshToken_starts_a_second_request (s : Service) (p : RefreshPromise)
    (ti : JWTTokenInfo.t) :
  refreshPromise s = Some p ->
  AuthState.tokenInfo (authState s) = Some ti ->
  JWTTokenInfo.refreshToken ti <> "" ->
  refreshToken_begin s = (s, Joined p)
  /\ exists q,
       snd (forceRefreshToken_begin s) = Started q
       /\ awaitsPost q = true
       /\ pid q = nextPromise s
       /\ refreshPromise (fst (forceRefreshToken_begin s)) = Some q
       /\ posted (fst (forceRefreshToken_begin s))
          = (posted s ++ [JWTTokenInfo.refreshToken ti])%list.
Proof.
  intros Hp Hti Hne. split.
  - unfold refreshToken_begin. by rewrite Hp.
  - unfold forceRefreshToken_begin, refreshToken_begin, performTokenRefresh_begin.
    cbn [refreshPromise with_refreshPromise authState]. rewrite Hti.
    apply String.eqb_neq in Hne. rewrite Hne. cbn. eauto 10.
Qed.

Lemma forceRefreshToken_starts_a_second_request_witness :
  let s := fst (refreshToken_begin signed_in) in
  refreshToken_begin s = (s, Joined (mkRefreshPromise 0 true))
  /\ exists q,
       snd (forceRefreshToken_begin s) = Started q
       /\ awaitsPost q = true
       /\ pid q = nextPromise s
       /\ refreshPromise (fst (forceRefreshToken_begin s)) = Some q
       /\ posted (fst (forceRefreshToken_begin s)) = (posted s ++ ["refresh-1"])%list.
Proof.
  intros s.
  apply (forceRefreshToken_starts_a_second_request s (mkRefreshPromise 0 true)
           (JWTTokenInfo.mk "access-1" "refresh-1" 3600 3600000 "Bearer")).
  - reflexivity.
  - reflexivity.
  - discriminate.
Defined.









End JWTAuthSessionFacts.

Module WebSocketRunsFacts.
Import WebSocket WebSocketRuns.

(** The loop of [sendQueuedMessages] touches the queue and the frames sent,
    nothing else. *)
Lemma flush_frame env msgs s :
  let s' := fold_left
              (fun s message =>
                 if bool_decide (is_Some (ws s)) && state_eqb (state s) CONNECTED then
                   if transmits env message then ws_send message s
                   else with_messageQueue (messageQueue s ++ [message]) s
                 else s) msgs s in
  config s' = config s /\ ws s' = ws s /\ state s' = state s
  /\ reconnectAttempts s' = reconnectAttempts s
  /\ reconnectTimer s' = reconnectTimer s
  /\ heartbeatTimer s' = heartbeatTimer s
  /\ connectionTimer s' = connectionTimer s
  /\ socketsCreated s' = socketsCreated s
  /\ dispatched s' = dispatched s
  /\ requestCallbacks s' = requestCallbacks s.
Proof.
  revert s. induction msgs as [|m msgs IH]; intros s; [done|].
  cbn [fold_left].
  match goal with
  | |- context [fold_left _ msgs ?t] => destruct (IH t) as (-> & -> & -> & -> & -> & -> & -> & -> & -> & ->)
  end.
  repeat case_match; done.
Qed.

(** The loop of [sendQueuedMessages] over an open socket: accepted
    messages go out in order, refused ones go back to the queue in order. *)
Lemma flush_loop env msgs s :
  is_Some (ws s) -> state s = CONNECTED ->
  let s' := fold_left
              (fun s message =>
                 if bool_decide (is_Some (ws s)) && state_eqb (state s) CONNECTED then
                   if transmits env message then ws_send message s
                   else with_messageQueue (messageQueue s ++ [message]) s
                 else s) msgs s in
  transmitted s' = (transmitted s ++ List.filter (transmits env) msgs)%list
  /\ messageQueue s' =
       (messageQueue s ++ List.filter (fun m => negb (transmits env m)) msgs)%list
  /\ ws s' = ws s /\ state s' = state s
  /\ reconnectAttempts s' = reconnectAttempts s
  /\ reconnectTimer s' = reconnectTimer s
  /\ heartbeatTimer s' = heartbeatTimer s
  /\ connectionTimer s' = connectionTimer s.
Proof.
  revert s. induction msgs as [|m msgs IH]; intros s Hws Hst.
  - cbn. rewrite !app_nil_r. done.
  - cbn [fold_left List.filter].
    rewrite bool_decide_eq_true_2 by done. rewrite Hst. cbn [state_eqb andb].
    destruct (transmits env m); cbn [negb].
    + destruct (IH (ws_send m s)) as (Ht & Hq & Hw & Hs' & Hrest); [done|done|].
      cbn in Ht, Hq, Hw, Hs', Hrest |- *.
      rewrite Ht, Hq, Hw, Hs', <- app_assoc. done.
    + destruct (IH (with_messageQueue (messageQueue s ++ [m]) s))
        as (Ht & Hq & Hw & Hs' & Hrest); [done|done|].
      cbn in Ht, Hq, Hw, Hs', Hrest |- *.
      rewrite Ht, Hq, Hw, Hs', <- app_assoc. done.
Qed.

(** X12: when the socket opens, the queue is flushed in order: the
    messages [ws.send] accepts go out in the order they were queued, the
    ones it refuses are queued again in that order, none is lost and none
    is sent twice; the transport is CONNECTED with the attempt counter at
    0, the heartbeat running and no other timer pending. *)
Theorem queued_messages_are_flushed_on_open (env : Env) (s : Service) :
  is_Some (ws s) ->
  let s' := onopen env s in
  state s' = CONNECTED
  /\ reconnectAttempts s' = 0%nat
  /\ heartbeatTimer s' = true /\ reconnectTimer s' = None /\ connectionTimer s' = false
  /\ transmitted s' = (transmitted s ++ List.filter (transmits env) (messageQueue s))%list
  /\ messageQueue s' = List.filter (fun m => negb (transmits env m)) (messageQueue s).
Proof.
  intros Hws. unfold onopen, sendQueuedMessages.
  match goal with
  | |- context [fold_left ?f ?msgs ?s0] =>
      destruct (flush_loop env msgs s0) as (Ht & Hq & Hw & Hst & Hn & Hr & Hh & Hc);
      [exact Hws|reflexivity|]
  end.
  cbn in Ht, Hq, Hw, Hst, Hn, Hr, Hh, Hc |- *.
  rewrite Ht, Hq, Hst, Hn, Hr, Hc. done.
Qed.


Lemma queued_messages_are_flushed_on_open_witness :
  let s := run (sends online_env [("r1", typing_frame)])
               (run [(online_env, CallConnect)] (new "wss://ws.xiaoxiang.com")) in
  let s' := onopen online_env s in
  state s' = CONNECTED
  /\ reconnectAttempts s' = 0%nat
  /\ heartbeatTimer s' = true /\ reconnectTimer s' = None /\ connectionTimer s' = false
  /\ transmitted s' =
       (transmitted s ++ List.filter (transmits online_env) (messageQueue s))%list
  /\ messageQueue s' =
       List.filter (fun m => negb (transmits online_env m)) (messageQueue s).
Proof.
  intros s. apply (queued_messages_are_flushed_on_open online_env s).
  vm_compute. eauto.
Defined.

Lemma filter_all {A : Type} (f : A -> bool) (l : list A) :
  (forall x, f x = true) ->
  List.filter f l = l /\ List.filter (fun x => negb (f x)) l = [].
Proof.
  intros Hall. induction l as [|x l [IH1 IH2]]; [done|].
  cbn. rewrite Hall. cbn. by rewrite IH1, IH2.
Qed.

Lemma queued_flush_all env s :
  is_Some (ws s) -> (forall m, transmits env m = true) ->
  transmitted (onopen env s) = (transmitted s ++ messageQueue s)%list
  /\ messageQueue (onopen env s) = [].
Proof.
  intros Hws Hall. unfold onopen, sendQueuedMessages.
  match goal with
  | |- context [fold_left ?f ?msgs ?s0] =>
      destruct (flush_loop env msgs s0) as (Ht & Hq & _); [exact Hws|reflexivity|]
  end.
  cbn in Ht, Hq |- *.
  destruct (filter_all (transmits env) (messageQueue s) Hall) as [H1 H2].
  rewrite Ht, Hq, H1, H2. done.
Qed.

Lemma sends_while_not_connected env calls s :
  state s <> CONNECTED ->
  let s' := run (sends env calls) s in
  transmitted s' = transmitted s
  /\ messageQueue s' =
       (messageQueue s ++ map (fun c => fullMessage (fst c) (snd c)) calls)%list
  /\ state s' = state s /\ ws s' = ws s.
Proof.
  revert s. induction calls as [|[rid m] calls IH]; intros s Hst.
  - cbn. by rewrite app_nil_r.
  - unfold sends, run. cbn [map fold_left fst snd step].
    assert (Hsend : fst (send env rid m s)
                    = with_messageQueue (messageQueue s ++ [fullMessage rid m]) s).
    { unfold send. destruct (state s); done. }
    rewrite Hsend.
    destruct (IH (with_messageQueue (messageQueue s ++ [fullMessage rid m]) s))
      as (Ht & Hq & Hs' & Hw); [done|].
    unfold sends, run in Ht, Hq, Hs', Hw. cbn in Ht, Hq, Hs', Hw |- *.
    rewrite Ht, Hq, Hs', Hw, <- app_assoc. done.
Qed.

(** X13: a [send] while the transport is not connected resolves at once
    with no value and queues the message with its request id; a series of
    them transmits nothing, and when the socket then opens and accepts
    every frame, the messages queued before and the new ones go out in
    the order of the calls and the queue is empty. *)
Theorem messages_sent_while_not_connected_go_out_on_open (env : Env)
    (calls : list (string * WebSocketMessage)) (s : Service) :
  state s <> CONNECTED ->
  is_Some (ws s) ->
  (forall m, transmits env m = true) ->
  (forall rid m, send env rid m s
                 = (with_messageQueue (messageQueue s ++ [fullMessage rid m]) s,
                    ResolvesUndefined))
  /\ let queued := run (sends env calls) s in
     transmitted queued = transmitted s
     /\ messageQueue queued =
          (messageQueue s ++ map (fun c => fullMessage (fst c) (snd c)) calls)%list
     /\ let opened := step env SocketOpen queued in
        transmitted opened =
          (transmitted s ++ messageQueue s
             ++ map (fun c => fullMessage (fst c) (snd c)) calls)%list
        /\ messageQueue opened = [].
Proof.
  intros Hst Hws Hall. split.
  { intros rid m. unfold send. destruct (state s); done. }
  destruct (sends_while_not_connected env calls s Hst) as (Ht & Hq & Hs' & Hw).
  cbn zeta in Ht, Hq, Hs', Hw |- *.
  split; [done|]. split; [done|]. cbn [step].
  destruct (queued_flush_all env (run (sends env calls) s)) as [Hout Hempty];
    [by rewrite Hw|done|].
  rewrite Hout, Hempty, Ht, Hq. done.
Qed.


Lemma messages_sent_while_not_connected_go_out_on_open_witness :
  let s := run [(online_env, CallConnect)] (new "wss://ws.xiaoxiang.com") in
  let calls := [("r1", typing_frame); ("r2", typing_frame)] in
  (forall rid m, send online_env rid m s
                 = (with_messageQueue (messageQueue s ++ [fullMessage rid m]) s,
                    ResolvesUndefined))
  /\ let queued := run (sends online_env calls) s in
     transmitted queued = transmitted s
     /\ messageQueue queued =
          (messageQueue s ++ map (fun c => fullMessage (fst c) (snd c)) calls)%list
     /\ let opened := step online_env SocketOpen queued in
        transmitted opened =
          (transmitted s ++ messageQueue s
             ++ map (fun c => fullMessage (fst c) (snd c)) calls)%list
        /\ messageQueue opened = [].
Proof.
  intros s calls.
  apply (messages_sent_while_not_connected_go_out_on_open online_env calls s).
  - vm_compute. discriminate.
  - vm_compute. eauto.
  - reflexivity.
Defined.






Lemma flush_consistent env msgs s :
  timers_consistent s ->
  timers_consistent
    (fold_left
       (fun s message =>
          if bool_decide (is_Some (ws s)) && state_eqb (state s) CONNECTED then
            if transmits env message then ws_send message s
            else with_messageQueue (messageQueue s ++ [message]) s
          else s) msgs s).
Proof.
  revert s. induction msgs as [|m msgs IH]; intros s Hs; [done|].
  cbn [fold_left]. apply IH. repeat case_match; done.
Qed.





Lemma step_dispatched env i s :
  no_pending s ->
  dispatched (step env i s) =
    (dispatched s ++ match i with SocketMessage (Some m) => [m] | _ => [] end)%list.
Proof.
  intros [Hcb _].
  destruct i; cbn [step]; rewrite ?app_nil_r;
    try (unfold networkListener, onerror, onclose, disconnect,
           handleConnectionTimeout, handleConnectionError, handleNetworkDisconnect,
           sendHeartbeat, send, connect, handleConnectionError, attemptReconnect;
         repeat case_match; done).
  - unfold onopen, sendQueuedMessages.
    match goal with
    | |- context [fold_left ?f ?msgs ?s0] =>
        destruct (flush_frame env msgs s0) as (_ & _ & _ & _ & _ & _ & _ & _ & Hd & _)
    end.
    cbn in Hd |- *. by rewrite Hd.
  - unfold handleMessage. destruct frame as [m|]; [|by rewrite app_nil_r].
    destruct (requestId m) as [rid|]; [|done].
    rewrite Hcb, bool_decide_eq_false_2, andb_false_r by set_solver. done.
Qed.

(** X16: in every run from the constructor, the frames dispatched to the
    event listeners are exactly the incoming frames that parsed, in the
    order they arrived: none is taken for the response to a request, and a
    frame that does not parse is dropped. *)
Theorem every_incoming_frame_reaches_the_listeners (inputs : list (Env * Input))
    (wsUrl : string) :
  dispatched (run inputs (new wsUrl)) = received inputs.
Proof.
  assert (Hrun : forall inputs s,
            no_pending s ->
            dispatched (run inputs s) = (dispatched s ++ received inputs)%list).
  { clear. induction inputs as [|[env i] inputs IH]; intros s Hs.
    - cbn. by rewrite app_nil_r.
    - unfold run. cbn [fold_left fst snd].
      pose proof (IH (step env i s) (WebSocketFacts.step_no_pending env i s Hs)) as H.
      unfold run in H. rewrite H, (step_dispatched env i s Hs), <- app_assoc.
      f_equal. unfold received. cbn [omap snd].
      destruct i as [| | | | | |[m|]| | | | | |]; done. }
  apply (Hrun inputs (new wsUrl)). done.
Qed.


End WebSocketRunsFacts.

Module SyncEngineFacts.
Import Sync SyncPass.

(** ** Batching *)

Lemma chunkArray_from_slices {T : Type} (fuel : nat) (array : list T) (size i : nat)
    chunks :
  (0 < size)%nat ->
  chunkArray_from fuel array size i = Some chunks ->
  (forall j c, chunks !! j = Some c ->
     c = take size (drop (i + j * size) array)
     /\ (i + j * size < List.length array)%nat)
  /\ (List.length array <= i + List.length chunks * size)%nat.
Proof.
  intros Hsize. revert i chunks.
  induction fuel as [|fuel IH]; intros i chunks; cbn [chunkArray_from].
  - destruct (Nat.ltb_spec i (List.length array)); [done|].
    intros [= <-]. split; [done|]. cbn. lia.
  - destruct (Nat.ltb_spec i (List.length array)) as [Hlt|Hge].
    + destruct (chunkArray_from fuel array size (i + size)) as [rest|] eqn:Hr; [|done].
      intros [= <-]. destruct (IH _ _ Hr) as [Hslice Hlen]. split.
      * intros [|j] c Hc.
        -- injection Hc as <-. rewrite Nat.add_0_r. done.
        -- destruct (Hslice j c Hc) as [-> Hj].
           replace (i + S j * size)%nat with (i + size + j * size)%nat by lia. done.
      * cbn [List.length]. lia.
    + intros [= <-]. split; [done|]. cbn. lia.
Qed.

(** X18: for a positive [size], [chunkArray] returns the consecutive
    slices of the array: chunk [j] is [array.slice(j * size, (j + 1) * size)],
    every chunk is non-empty, all but the last have [size] elements, put
    end to end they give the array back, and there are
    [ceil (length / size)] of them. *)
Theorem chunkArray_cuts_consecutive_slices {T : Type} (fuel : nat) (array : list T)
    (size : nat) :
  (0 < size)%nat -> (List.length array <= fuel)%nat ->
  exists chunks,
    chunkArray fuel array size = Some chunks
    /\ concat chunks = array
    /\ (forall j c, chunks !! j = Some c ->
          c = take size (drop (j * size) array)
          /\ (1 <= List.length c <= size)%nat
          /\ (S j < List.length chunks -> List.length c = size))
    /\ (List.length array <= List.length chunks * size)%nat
    /\ (List.length chunks * size < List.length array + size)%nat.
Proof.
  intros Hsize Hfuel.
  destruct (SyncFacts.chunkArray_total fuel array size Hsize Hfuel) as (chunks & Hc & Hcat).
  exists chunks. split; [done|]. split; [done|].
  destruct (chunkArray_from_slices fuel array size 0 chunks Hsize Hc) as [Hslice Hlen].
  assert (Hshape : forall j c, chunks !! j = Some c ->
            c = take size (drop (j * size) array)
            /\ (1 <= List.length c <= size)%nat
            /\ (S j < List.length chunks -> List.length c = size)).
  { intros j c Hj. destruct (Hslice j c Hj) as [-> Hpos]. cbn in Hpos.
    split; [done|]. rewrite length_take, length_drop. split; [lia|].
    intros Hnext. destruct (lookup_lt_is_Some_2 chunks (S j) Hnext) as [c' Hc'].
    destruct (Hslice (S j) c' Hc') as [_ Hpos']. cbn in Hpos'. lia. }
  split; [done|]. split; [lia|].
  destruct (List.length chunks) as [|j] eqn:Hn; [cbn; lia|].
  destruct (lookup_lt_is_Some_2 chunks j) as [c Hj]; [lia|].
  destruct (Hslice j c Hj) as [_ Hlast]. cbn in Hlast. lia.
Qed.


Lemma chunkArray_cuts_consecutive_slices_witness :
  let array := [1; 2; 3; 4; 5]%nat in
  exists chunks,
    chunkArray 5 array 2 = Some chunks
    /\ concat chunks = array
    /\ (forall j c, chunks !! j = Some c ->
          c = take 2 (drop (j * 2) array)
          /\ (1 <= List.length c <= 2)%nat
          /\ (S j < List.length chunks -> List.length c = 2%nat))
    /\ (List.length array <= List.length chunks * 2)%nat
    /\ (List.length chunks * 2 < List.length array + 2)%nat.
Proof.
  intros array. apply (chunkArray_cuts_consecutive_slices 5 array 2); cbn; lia.
Defined.

Lemma chunkArray_from_stuck {T : Type} (fuel : nat) (array : list T) (i : nat) :
  (i < List.length array)%nat -> chunkArray_from fuel array 0 i = None.
Proof.
  intros Hi. induction fuel as [|fuel IH]; cbn [chunkArray_from];
    destruct (Nat.ltb_spec i (List.length array)); try lia; [done|].
  by rewrite Nat.add_0_r, IH.
Qed.

(** X19: with [batchSize = 0] the loop of [chunkArray] does not advance:
    on a non-empty array it never returns, and so a pass that has a
    journal entry to upload never completes. *)
Theorem zero_batch_size_never_completes (s : Service) (force : bool) :
  batchSize (config s) = 0%nat ->
  getLocalChanges (storage s) <> [] ->
  isOnline (syncState s) = true ->
  isSyncing (syncState s) = false \/ force = true ->
  (forall (T : Type) (array : list T) fuel,
     array <> [] -> chunkArray fuel array 0 = None)
  /\ forall fuel remote now, startSync fuel force remote now s = None.
Proof.
  intros Hsize Hjournal Honline Hidle.
  assert (Hstuck : forall (T : Type) (array : list T) fuel,
            array <> [] -> chunkArray fuel array 0 = None).
  { intros T array fuel Hne. apply chunkArray_from_stuck.
    destruct array; [done|cbn; lia]. }
  split; [exact Hstuck|]. intros fuel remote now. unfold startSync.
  assert (Hgate : isSyncing (syncState s) && negb force = false).
  { destruct Hidle as [-> | ->]; [done|]. apply andb_false_r. }
  rewrite Hgate, Honline. cbn [negb].
  unfold uploadLocalChanges. cbn [storage emitEvent with_syncState config].
  destruct (getLocalChanges (storage s)) as [|c l] eqn:Hl; [done|].
  cbn [List.length Nat.eqb]. rewrite Hsize, Hstuck; done.
Qed.

Lemma zero_batch_size_never_completes_witness :
  let s := with_config (mkSyncConfig 0 30000 3 5000 SERVER_WINS) one_draft in
  (forall (T : Type) (array : list T) fuel,
     array <> [] -> chunkArray fuel array 0 = None)
  /\ forall fuel remote now, startSync fuel false remote now s = None.
Proof.
  intros s. apply (zero_batch_size_never_completes s false).
  - reflexivity.
  - vm_compute. discriminate.
  - reflexivity.
  - left. reflexivity.
Defined.


Lemma last_drop_lt {A : Type} (n : nat) (l : list A) :
  (n < List.length l)%nat -> last (drop n l) = last l.
Proof.
  revert n. induction l as [|x l IH]; intros [|n] Hn; cbn in Hn |- *; try lia; [done|].
  rewrite IH by lia. destruct l; [cbn in Hn; lia|done].
Qed.

(** ** A batch the remote never accepts *)

Lemma uploadBatch_loop_unreachable error remote batch remaining attempt s :
  unreachable_upload error remote ->
  (0 < remaining)%nat ->
  (attempt + remaining = retryAttempts (config s))%nat ->
  uploadBatch_loop remote batch remaining attempt s =
    Raises error
      (mkService (storage s) (db s) (syncState s) (config s) (emitted s)
         (uploads s ++ repeat batch remaining) (downloads s)
         (slept s ++ map (fun k => retryDelay (config s) * Z.of_nat k)%Z
                         (seq (S attempt) (remaining - 1)))
         (timers s)).
Proof.
  intros Hdown. revert attempt s.
  induction remaining as [|remaining IH]; intros attempt s Hpos Hsum; [lia|].
  cbn [uploadBatch_loop]. rewrite Hdown. cbn [post_upload config].
  destruct (Nat.leb_spec (retryAttempts (config s)) (S attempt)) as [Hlast|Hmore].
  - assert (remaining = 0)%nat as -> by lia. cbn. rewrite app_nil_r. done.
  - rewrite IH by (cbn; lia). cbn.
    replace (remaining - 0)%nat with (S (remaining - 1)) by lia.
    cbn [seq map]. rewrite <- !app_assoc. done.
Qed.

(** X20: when every POST /sync/upload fails, [uploadBatch] posts the batch
    [retryAttempts] times, sleeps [retryDelay * 1], [retryDelay * 2], ...
    between two attempts, and throws the error; the journal, the database,
    the sync state and the events are as before. *)
Theorem uploadBatch_gives_up_after_retryAttempts (error : ApiClient.ApiError)
    (remote : Remote) (batch : list LocalChange.t) (s : Service) :
  unreachable_upload error remote ->
  (0 < retryAttempts (config s))%nat ->
  exists s',
    uploadBatch remote batch s = Raises error s'
    /\ uploads s' = (uploads s ++ repeat batch (retryAttempts (config s)))%list
    /\ slept s' =
         (slept s ++ map (fun k => retryDelay (config s) * Z.of_nat k)%Z
                         (seq 1 (retryAttempts (config s) - 1)))%list
    /\ storage s' = storage s /\ db s' = db s /\ syncState s' = syncState s
    /\ emitted s' = emitted s.
Proof.
  intros Hdown Hpos. unfold uploadBatch.
  rewrite (uploadBatch_loop_unreachable error) by (done || lia).
  eexists. split; [reflexivity|]. done.
Qed.

Lemma uploadBatch_gives_up_after_retryAttempts_witness :
  let error := ApiClient.mkApiError ApiClient.NETWORK_ERROR "网络连接失败，请检查网络设置" in
  let batch := [change_of first_edit] in
  exists s',
    uploadBatch offline_remote batch one_draft = Raises error s'
    /\ uploads s' = [batch; batch; batch]
    /\ slept s' = [5000; 10000]%Z
    /\ storage s' = storage one_draft /\ db s' = db one_draft
    /\ syncState s' = syncState one_draft
    /\ emitted s' = emitted one_draft.
Proof.
  intros error batch.
  apply (uploadBatch_gives_up_after_retryAttempts error offline_remote batch one_draft).
  - intros k b. reflexivity.
  - cbn. lia.
Defined.

(** X21: a pass whose uploads all fail ends with SYNC_FAILED: only the
    first batch was tried ([retryAttempts] times), nothing was downloaded,
    the journal and the database are as before, [lastSyncTime] and the
    pending count are unchanged, [isSyncing] is false again, and the last
    recorded error is an upload error with the message of the failure. *)
Theorem failed_upload_keeps_the_journal (error : ApiClient.ApiError) (remote : Remote)
    (s : Service) (force : bool) (now : Z) (fuel : nat) :
  unreachable_upload error remote ->
  getLocalChanges (storage s) <> [] ->
  isOnline (syncState s) = true ->
  isSyncing (syncState s) = false \/ force = true ->
  (0 < batchSize (config s))%nat -> (0 < retryAttempts (config s))%nat ->
  (List.length (getLocalChanges (storage s)) <= fuel)%nat ->
  exists s',
    startSync fuel force remote now s = Some s'
    /\ storage s' = storage s
    /\ getLocalChanges (storage s') = getLocalChanges (storage s)
    /\ db s' = db s
    /\ downloads s' = downloads s
    /\ lastSyncTime (syncState s') = lastSyncTime (syncState s)
    /\ pendingChanges (syncState s') = pendingChanges (syncState s)
    /\ isSyncing (syncState s') = false
    /\ emitted s' = (emitted s ++ [SYNC_STARTED; SYNC_FAILED])%list
    /\ uploads s' =
         (uploads s
            ++ repeat (take (batchSize (config s)) (getLocalChanges (storage s)))
                      (retryAttempts (config s)))%list
    /\ last (errors (syncState s')) =
         Some (mkSyncError upload_error
                 (ApiClient.or_else (ApiClient.api_message error) "Unknown sync error")).
Proof.
  intros Hdown Hjournal Honline Hidle Hsize Hretry Hfuel. unfold startSync.
  assert (Hgate : isSyncing (syncState s) && negb force = false).
  { destruct Hidle as [-> | ->]; [done|]. apply andb_false_r. }
  rewrite Hgate, Honline. cbn [negb].
  set (sa := emitEvent SYNC_STARTED _).
  unfold uploadLocalChanges. change (storage sa) with (storage s).
  change (config sa) with (config s).
  destruct (getLocalChanges (storage s)) as [|c0 l] eqn:Hl; [done|].
  cbn [List.length Nat.eqb].
  destruct (SyncFacts.chunkArray_total fuel (c0 :: l) (batchSize (config s)) Hsize Hfuel)
    as (chunks & Hchunks & Hcat).
  rewrite Hchunks.
  destruct (chunkArray_from_slices _ _ _ 0 chunks Hsize Hchunks) as [Hslice Hlen].
  destruct chunks as [|b chunks]; [cbn in Hlen; lia|].
  destruct (Hslice 0%nat b eq_refl) as [Hb _]. cbn in Hb.
  cbn [upload_batches]. unfold uploadBatch.
  rewrite (uploadBatch_loop_unreachable error) by (done || cbn; lia).
  eexists. split; [reflexivity|]. cbn.
  rewrite Hb. split_and!; try done.
  - by rewrite <- app_assoc.
  - unfold set_errors. cbn. case_match.
    + rewrite last_drop_lt; [by rewrite last_snoc|]. rewrite length_app. cbn. lia.
    + by rewrite last_snoc.
Qed.


Lemma failed_upload_keeps_the_journal_witness :
  let error := ApiClient.mkApiError ApiClient.NETWORK_ERROR "网络连接失败，请检查网络设置" in
  exists s',
    startSync 1 false offline_remote 9000 one_draft = Some s'
    /\ storage s' = storage one_draft
    /\ getLocalChanges (storage s') = getLocalChanges (storage one_draft)
    /\ db s' = db one_draft
    /\ downloads s' = downloads one_draft
    /\ lastSyncTime (syncState s') = lastSyncTime (syncState one_draft)
    /\ pendingChanges (syncState s') = pendingChanges (syncState one_draft)
    /\ isSyncing (syncState s') = false
    /\ emitted s' = (emitted one_draft ++ [SYNC_STARTED; SYNC_FAILED])%list
    /\ uploads s' =
         (uploads one_draft
            ++ repeat (take (batchSize (config one_draft))
                            (getLocalChanges (storage one_draft)))
                      (retryAttempts (config one_draft)))%list
    /\ last (errors (syncState s')) =
         Some (mkSyncError upload_error
                 (ApiClient.or_else (ApiClient.api_message error) "Unknown sync error")).
Proof.
  intros error.
  apply (failed_upload_keeps_the_journal error offline_remote one_draft false 9000 1).
  - intros k b. reflexivity.
  - vm_compute. discriminate.
  - reflexivity.
  - left. reflexivity.
  - cbn. lia.
  - cbn. lia.
  - vm_compute. lia.
Defined.

(** ** What the steps of a pass leave alone *)














(** ** How a pass ends *)








(** ** The local database under a pass *)










(** ** Conflicts under the other strategies *)

Lemma removeProcessedChanges_lookup ids s key :
  (forall i, i ∈ ids -> journal_key i <> key) ->
  storage (removeProcessedChanges ids s) !! key = storage s !! key.
Proof.
  revert s. induction ids as [|i ids IH]; intros s Hids; [done|].
  change (removeProcessedChanges (i :: ids) s)
    with (removeProcessedChanges ids (removeLocalChange i s)).
  rewrite IH by (intros j Hj; apply Hids; by right).
  cbn. apply lookup_delete_ne, Hids. by left.
Qed.

Lemma removeProcessedChanges_frame ids s :
  syncState (removeProcessedChanges ids s) = syncState s
  /\ emitted (removeProcessedChanges ids s) = emitted s.
Proof.
  revert s. induction ids as [|i ids IH]; intros s; [done|].
  change (removeProcessedChanges (i :: ids) s)
    with (removeProcessedChanges ids (removeLocalChange i s)).
  by destruct (IH (removeLocalChange i s)) as [-> ->].
Qed.

Lemma conflict_key_inj a b : "conflict_" +:+ a = "conflict_" +:+ b -> a = b.
Proof. unfold String.append. by intros [= ->]. Qed.

Lemma conflict_key_journal a b : "conflict_" +:+ a <> journal_key b.
Proof. unfold journal_key, journal_prefix, String.append. done. Qed.

Lemma kept_conflicts cs s :
  conflictResolution (config s) <> SERVER_WINS ->
  let s' := handleUploadConflicts cs s in
  config s' = config s
  /\ (forall i, storage s' !! journal_key i = storage s !! journal_key i)
  /\ (conflictResolution (config s) = CLIENT_WINS -> s' = s)
  /\ (conflictResolution (config s) = MANUAL \/ conflictResolution (config s) = MERGE ->
      conflictCount (syncState s')
        = (conflictCount (syncState s) + List.length cs)%nat
      /\ emitted s' = (emitted s ++ repeat CONFLICT_DETECTED (List.length cs))%list
      /\ forall c, c ∈ cs ->
           exists c', c' ∈ cs
             /\ SyncConflict.clientId c' = SyncConflict.clientId c
             /\ storage s' !! ("conflict_" +:+ SyncConflict.clientId c)
                = Some (VConflict c')).
Proof.
  revert s. induction cs as [|c cs IH] using rev_ind; intros s Hstrategy.
  { cbn. split_and!; try done. intros _. rewrite Nat.add_0_r, app_nil_r.
    split_and!; try done. intros c Hc. by inversion Hc. }
  unfold handleUploadConflicts. rewrite fold_left_app. cbn [fold_left].
  fold (handleUploadConflicts cs s).
  destruct (IH s Hstrategy) as (Hcfg & Hkeys & Hclient & Hmanual).
  set (s1 := handleUploadConflicts cs s) in *. clearbody s1.
  assert (Hm : conflictResolution (config s) = MANUAL
               \/ conflictResolution (config s) = MERGE ->
               resolveConflict c s1 = manual_resolution c s1).
  { unfold resolveConflict. rewrite Hcfg. by intros [-> | ->]. }
  split; [|split; [|split]].
  - unfold resolveConflict, manual_resolution. rewrite Hcfg.
    destruct (conflictResolution (config s)); done.
  - intros i. rewrite <- Hkeys. unfold resolveConflict. rewrite Hcfg.
    destruct (conflictResolution (config s)); try done; cbn;
      apply lookup_insert_ne, conflict_key_journal.
  - intros Hcw. rewrite (Hclient Hcw). unfold resolveConflict. by rewrite Hcw.
  - intros Hmm. destruct (Hmanual Hmm) as (Hcount & Hev & Hstored).
    rewrite (Hm Hmm). unfold manual_resolution. cbn.
    rewrite Hcount, Hev, length_app. cbn [List.length].
    split; [lia|]. split.
    { rewrite repeat_app. cbn [repeat]. by rewrite app_assoc. }
    intros c0 Hc0.
    destruct (decide (SyncConflict.clientId c = SyncConflict.clientId c0)) as [Heq|Hne].
    + exists c. rewrite <- Heq, lookup_insert_eq. split_and!; try done.
      apply elem_of_app. right. by left.
    + apply elem_of_app in Hc0 as [Hc0|Hc0].
      * destruct (Hstored c0 Hc0) as (c' & Hin & Hid & Hk). exists c'.
        split; [apply elem_of_app; by left|]. split; [done|].
        rewrite lookup_insert_ne; [done|]. intros Hkey. by apply conflict_key_inj in Hkey.
      * apply list_elem_of_singleton in Hc0 as ->. done.
Qed.

(** X25: under the strategies other than server-wins, a conflict reported
    for a batch leaves the journal entry of its [clientId] where it is
    (unless the same reply lists it as processed), so that it is uploaded
    again.  Client-wins does nothing else.  Manual and merge (whose merge
    always fails) store the conflict under [conflict_<clientId>], count it
    and emit CONFLICT_DETECTED, once per reported conflict. *)
Theorem other_strategies_keep_the_conflicting_change (remote : Remote) (s : Service)
    (batch : list LocalChange.t) (d : UploadChangesResponse) (c : SyncConflict.t) :
  conflictResolution (config s) <> SERVER_WINS ->
  (0 < retryAttempts (config s))%nat ->
  upload remote (List.length (uploads s)) batch = Resolves (mkApiResponse true (Some d)) ->
  c ∈ conflicts d ->
  SyncConflict.clientId c ∉ processed d ->
  exists s1,
    uploadBatch remote batch s = Returns s1
    /\ storage s1 !! journal_key (SyncConflict.clientId c)
       = storage s !! journal_key (SyncConflict.clientId c)
    /\ (conflictResolution (config s) = CLIENT_WINS ->
        conflictCount (syncState s1) = conflictCount (syncState s)
        /\ emitted s1 = emitted s)
    /\ (conflictResolution (config s) = MANUAL \/ conflictResolution (config s) = MERGE ->
        conflictCount (syncState s1)
          = (conflictCount (syncState s) + List.length (conflicts d))%nat
        /\ emitted s1
           = (emitted s ++ repeat CONFLICT_DETECTED (List.length (conflicts d)))%list
        /\ exists c', c' ∈ conflicts d
             /\ SyncConflict.clientId c' = SyncConflict.clientId c
             /\ storage s1 !! ("conflict_" +:+ SyncConflict.clientId c)
                = Some (VConflict c')).
Proof.
  intros Hstrategy Hretry Hreply Hc Hnot.
  unfold uploadBatch. destruct (retryAttempts (config s)) as [|r]; [lia|].
  cbn [uploadBatch_loop]. rewrite Hreply. cbn [success data].
  assert (Hnonempty : (0 <? List.length (conflicts d))%nat = true).
  { apply Nat.ltb_lt. destruct (conflicts d); [by inversion Hc | cbn; lia]. }
  rewrite Hnonempty.
  destruct (kept_conflicts (conflicts d) (post_upload batch s) Hstrategy)
    as (Hcfg & Hkeys & Hclient & Hmanual).
  set (s1 := handleUploadConflicts (conflicts d) (post_upload batch s)) in *.
  clearbody s1. cbn in Hcfg, Hkeys, Hclient, Hmanual.
  destruct (removeProcessedChanges_frame (processed d) s1) as [Hsync Hev].
  eexists. split; [reflexivity|].
  assert (Hother : forall i, i ∈ processed d ->
            journal_key i <> journal_key (SyncConflict.clientId c)).
  { intros i Hi Heq. apply SyncFacts.journal_key_inj in Heq. by subst. }
  split; [by rewrite removeProcessedChanges_lookup, Hkeys|].
  rewrite Hsync, Hev. split.
  - intros Hcw. by rewrite (Hclient Hcw).
  - intros Hmm. destruct (Hmanual Hmm) as (Hcount & Hemit & Hstored).
    split; [done|]. split; [done|].
    destruct (Hstored c Hc) as (c' & Hin & Hid & Hk). exists c'.
    split; [done|]. split; [done|].
    rewrite removeProcessedChanges_lookup; [done|].
    intros i _ Heq. symmetry in Heq. by apply conflict_key_journal in Heq.
Qed.


Lemma other_strategies_keep_the_conflicting_change_witness :
  let s := with_config (mkSyncConfig 50 30000 3 5000 MANUAL) one_draft in
  let c := SyncConflict.mk "draft-1" VERSION_CONFLICT server_version (mkEntity "m1" "hi") in
  let d := mkUploadResponse [c] [] in
  exists s1,
    uploadBatch conflicting_remote [change_of first_edit] s = Returns s1
    /\ storage s1 !! journal_key "draft-1" = storage s !! journal_key "draft-1"
    /\ (conflictResolution (config s) = CLIENT_WINS ->
        conflictCount (syncState s1) = conflictCount (syncState s)
        /\ emitted s1 = emitted s)
    /\ (conflictResolution (config s) = MANUAL \/ conflictResolution (config s) = MERGE ->
        conflictCount (syncState s1)
          = (conflictCount (syncState s) + List.length (conflicts d))%nat
        /\ emitted s1
           = (emitted s ++ repeat CONFLICT_DETECTED (List.length (conflicts d)))%list
        /\ exists c', c' ∈ conflicts d
             /\ SyncConflict.clientId c' = "draft-1"
             /\ storage s1 !! ("conflict_" +:+ "draft-1") = Some (VConflict c')).
Proof.
  intros s c d.
  apply (other_strategies_keep_the_conflicting_change conflicting_remote s
           [change_of first_edit] d c).
  - discriminate.
  - cbn. lia.
  - reflexivity.
  - cbn. left.
  - cbn. intros H. inversion H.
Defined.


(** ** The order of the journal *)

Lemma insert_sorted_Sorted c l :
  Sorted (fun a b => timestamp_le a b = true) l ->
  Sorted (fun a b => timestamp_le a b = true) (insert_sorted c l).
Proof.
  induction l as [|x l IH]; intros Hl; cbn [insert_sorted].
  - repeat constructor.
  - destruct (timestamp_le c x) eqn:Hcx.
    + constructor; [done|]. by constructor.
    + apply Sorted_inv in Hl as [Hl Hhd]. constructor; [by apply IH|].
      assert (Hxc : timestamp_le x c = true).
      { unfold timestamp_le in *.
        destruct (String.leb_total (LocalChange.timestamp c) (LocalChange.timestamp x));
          congruence. }
      destruct l as [|y l]; cbn [insert_sorted].
      * by constructor.
      * destruct (timestamp_le c y); constructor; [done|]. by inversion Hhd.
Qed.

Lemma chunkArray_from_concat {T : Type} (fuel : nat) (array : list T) (size i : nat)
    chunks :
  chunkArray_from fuel array size i = Some chunks -> concat chunks = drop i array.
Proof.
  revert i chunks. induction fuel as [|fuel IH]; intros i chunks; cbn [chunkArray_from].
  - destruct (Nat.ltb_spec i (List.length array)); [done|].
    intros [= <-]. cbn. symmetry. apply drop_ge. lia.
  - destruct (Nat.ltb_spec i (List.length array)).
    + destruct (chunkArray_from fuel array size (i + size)) as [rest|] eqn:Hr; [|done].
      intros [= <-]. cbn [concat]. rewrite (IH _ _ Hr), <- drop_drop. apply take_drop.
    + intros [= <-]. cbn. symmetry. apply drop_ge. lia.
Qed.

(** X26: [getLocalChanges] returns the changes stored under the journal
    keys, and nothing else, in non-decreasing order of their timestamps;
    the batches cut from it, put end to end, are in that order too. *)
Theorem journal_is_read_oldest_first (st : gmap string StoredValue) :
  Sorted (fun a b => timestamp_le a b = true) (getLocalChanges st)
  /\ (forall c, c ∈ getLocalChanges st <->
        exists key, String.prefix journal_prefix key = true
                    /\ st !! key = Some (VChange c))
  /\ (forall fuel size chunks,
        chunkArray fuel (getLocalChanges st) size = Some chunks ->
        Sorted (fun a b => timestamp_le a b = true) (concat chunks)).
Proof.
  assert (Hsorted : forall l, Sorted (fun a b => timestamp_le a b = true) (sort_changes l)).
  { induction l as [|x l IH]; [constructor|]. cbn. by apply insert_sorted_Sorted. }
  split; [apply Hsorted|]. split; [apply SyncFacts.elem_of_getLocalChanges|].
  intros fuel size chunks Hc.
  rewrite (chunkArray_from_concat _ _ _ _ _ Hc), drop_0. apply Hsorted.
Qed.

End SyncEngineFacts.

Module LoggerFacts.
Import Logger.

Lemma slice_last {A : Type} (m : Z) (l : list A) :
  (0 < m)%Z -> slice (- m) l = drop (List.length l - Z.to_nat m) l.
Proof.
  intros Hm. unfold slice.
  destruct (Z.ltb_spec (- m) 0) as [_|]; [|lia].
  f_equal. lia.
Qed.

Lemma slice_zero {A : Type} (l : list A) : slice (- 0) l = l.
Proof. unfold slice. cbn. rewrite Z.min_l by lia. done. Qed.

Lemma accepted_snoc lv entries e :
  accepted lv (entries ++ [e])
  = (accepted lv entries
       ++ if (level_value (level e) <? level_value lv)%Z then [] else [e])%list.
Proof.
  unfold accepted. rewrite List.filter_app. cbn. by destruct (_ <? _)%Z.
Qed.

Lemma log_all_snoc entries e g : log_all (entries ++ [e]) g = log e (log_all entries g).
Proof. unfold log_all. by rewrite fold_left_app. Qed.

(** X27: after any series of [log] calls on a new logger, the buffer holds
    the last 1000 of the entries at or above the minimum level, all of
    which went to the console; [getLogs(level)] filters the buffer.  A cap
    of 0 is no cap: [setMaxLogs(0)] drops nothing, and the next accepted
    entry is appended to the whole buffer, since [slice(-0)] is
    [slice(0)]. *)
Theorem logger_keeps_the_newest_entries (IS_DEV : bool) (entries : list LogEntry) :
  let g := log_all entries (new IS_DEV) in
  let kept := accepted (minLevel (new IS_DEV)) entries in
  logs g = drop (List.length kept - 1000) kept
  /\ console g = kept
  /\ (List.length (logs g) <= 1000)%nat
  /\ (forall lv, getLogs (Some lv) g
                 = List.filter (fun e => (level_value lv <=? level_value (level e))%Z)
                               (logs g))
  /\ (forall e, logs (log e (setMaxLogs 0 g))
                = if (level_value (level e) <? level_value (minLevel g))%Z
                  then logs g else (logs g ++ [e])%list).
Proof.
  cbn zeta.
  assert (Hinv : logs (log_all entries (new IS_DEV))
                 = drop (List.length (accepted (minLevel (new IS_DEV)) entries) - 1000)
                        (accepted (minLevel (new IS_DEV)) entries)
                 /\ console (log_all entries (new IS_DEV))
                    = accepted (minLevel (new IS_DEV)) entries
                 /\ maxLogs (log_all entries (new IS_DEV)) = 1000%Z
                 /\ minLevel (log_all entries (new IS_DEV)) = minLevel (new IS_DEV)).
  { induction entries as [|e entries IH] using rev_ind; [done|].
    destruct IH as (Hl & Hc & Hm & Hv).
    rewrite log_all_snoc, accepted_snoc. unfold log. rewrite Hv.
    destruct (level_value (level e) <? level_value (minLevel (new IS_DEV)))%Z.
    { rewrite app_nil_r. done. }
    cbn [logs console maxLogs minLevel]. rewrite Hl, Hc, Hm.
    set (acc := accepted (minLevel (new IS_DEV)) entries).
    split; [|done].
    rewrite length_app, length_drop, length_app. cbn [List.length].
    destruct (Z.ltb_spec 1000 (Z.of_nat (List.length acc - (List.length acc - 1000) + 1)))
      as [Hfull|Hroom].
    - rewrite slice_last by lia. change (Z.to_nat 1000) with 1000%nat.
      rewrite length_app, length_drop. cbn [List.length].
      rewrite <- drop_app_le by lia. rewrite drop_drop. f_equal. lia.
    - rewrite <- drop_app_le by lia. f_equal. lia. }
  destruct Hinv as (Hl & Hc & Hm & Hv).
  split; [done|]. split; [done|]. split.
  { rewrite Hl, length_drop. lia. }
  split; [done|].
  intros e. unfold log, setMaxLogs. cbn [logs maxLogs minLevel].
  assert (Hkeep : forall l : list LogEntry,
            (if (0 <? Z.of_nat (List.length l))%Z then slice (- 0) l else l) = l).
  { intros l. destruct (0 <? _)%Z; [apply slice_zero|done]. }
  rewrite Hkeep. destruct (level_value (level e) <? level_value _)%Z; [done|].
  cbn [logs]. apply Hkeep.
Qed.

End LoggerFacts.

Module StorageFacts.
Import Storage.

Lemma includes_elem_of chatId l : includes chatId l = true <-> chatId ∈ l.
Proof.
  unfold includes. rewrite existsb_exists. split.
  - intros (x & Hin & Heq). apply String.eqb_eq in Heq as ->. by apply list_elem_of_In.
  - intros Hin. exists chatId. split; [by apply list_elem_of_In|apply String.eqb_refl].
Qed.

Lemma addActiveChat_spec chatId s :
  NoDup (getActiveChats s) -> (List.length (getActiveChats s) <= 10)%nat ->
  let s' := addActiveChat chatId s in
  NoDup (getActiveChats s')
  /\ (List.length (getActiveChats s') <= 10)%nat
  /\ chatId ∈ getActiveChats s'
  /\ (chatId ∈ getActiveChats s -> s' = s)
  /\ (chatId ∉ getActiveChats s ->
      getActiveChats s' = take 10 (chatId :: getActiveChats s)).
Proof.
  intros Hnd Hlen. unfold addActiveChat.
  destruct (includes chatId (getActiveChats s)) eqn:Hin; cbn [negb].
  - apply includes_elem_of in Hin. done.
  - assert (Hnot : chatId ∉ getActiveChats s).
    { intros H. apply includes_elem_of in H. congruence. }
    cbn [getActiveChats setActiveChats active_chats default].
    split; [|split; [|split; [|split]]]; try done.
    + apply (sublist_NoDup _ (chatId :: default [] (active_chats s)));
        [by constructor|apply sublist_take].
    + unfold id. rewrite length_take. lia.
    + cbn. by left.
Qed.

(** X28: after any series of [addActiveChat] calls on an empty store, the
    list of active chats has no duplicates and at most 10 entries, all of
    them chats that were added, and the chat added last is among them.
    Adding a chat that is on the list changes nothing (it is not moved to
    the front); adding another one puts it first and keeps the first 10. *)
Theorem active_chats_stay_distinct_and_capped (chatIds : list string) :
  let s := open_chats chatIds empty in
  NoDup (getActiveChats s)
  /\ (List.length (getActiveChats s) <= 10)%nat
  /\ (forall c, c ∈ getActiveChats s -> c ∈ chatIds)
  /\ (forall c, last chatIds = Some c -> c ∈ getActiveChats s)
  /\ (forall c, c ∈ getActiveChats s -> addActiveChat c s = s)
  /\ (forall c, c ∉ getActiveChats s ->
        getActiveChats (addActiveChat c s) = take 10 (c :: getActiveChats s)).
Proof.
  cbn zeta.
  assert (Hinv : NoDup (getActiveChats (open_chats chatIds empty))
                 /\ (List.length (getActiveChats (open_chats chatIds empty)) <= 10)%nat
                 /\ (forall c, c ∈ getActiveChats (open_chats chatIds empty) -> c ∈ chatIds)
                 /\ (forall c, last chatIds = Some c ->
                       c ∈ getActiveChats (open_chats chatIds empty))).
  { induction chatIds as [|x chatIds IH] using rev_ind.
    - cbn. split; [constructor|]. split; [lia|]. split; [done|]. done.
    - destruct IH as (Hnd & Hlen & Hsub & _).
      unfold open_chats. rewrite fold_left_app. cbn [fold_left].
      fold (open_chats chatIds empty).
      destruct (addActiveChat_spec x (open_chats chatIds empty) Hnd Hlen)
        as (Hnd' & Hlen' & Hin' & Hsame & Hnew).
      split; [done|]. split; [done|]. split.
      + intros c Hc. apply elem_of_app.
        destruct (decide (x ∈ getActiveChats (open_chats chatIds empty))) as [Hx|Hx].
        * rewrite (Hsame Hx) in Hc. left. by apply Hsub.
        * rewrite (Hnew Hx) in Hc. apply subseteq_take in Hc.
          apply elem_of_cons in Hc as [->|Hc]; [right; by left|left; by apply Hsub].
      + intros c. rewrite last_snoc. by intros [= <-]. }
  destruct Hinv as (Hnd & Hlen & Hsub & Hlast).
  split; [done|]. split; [done|]. split; [done|]. split; [done|]. split.
  - intros c Hc.
    by destruct (addActiveChat_spec c _ Hnd Hlen) as (_ & _ & _ & Hsame & _); auto.
  - intros c Hc.
    by destruct (addActiveChat_spec c _ Hnd Hlen) as (_ & _ & _ & _ & Hnew); auto.
Qed.


Lemma queue_all_spec messages s :
  let s' := queue_all messages s in
  getOfflineMessages s'
  = (getOfflineMessages s
       ++ map (fun m => mkOfflineMessage (snd m) (fst m)) messages)%list
  /\ current_user_id s' = current_user_id s /\ active_chats s' = active_chats s
  /\ drafts s' = drafts s /\ network_status s' = network_status s.
Proof.
  cbn zeta. revert s. induction messages as [|m messages IH]; intros s.
  - cbn. by rewrite app_nil_r.
  - change (queue_all (m :: messages) s)
      with (queue_all messages (addOfflineMessage (fst m) (snd m) s)).
    destruct (IH (addOfflineMessage (fst m) (snd m) s)) as (-> & -> & -> & -> & ->).
    cbn. by rewrite <- app_assoc.
Qed.

(** X29: [addOfflineMessage] appends to the offline queue, stamping the
    message with the clock reading.  [DataService.setNetworkStatus('online')]
    stores the status and empties the queue without sending anything;
    ['offline'] stores the status and keeps the queue.  The other items of
    the store are untouched. *)
Theorem going_online_discards_the_offline_queue (messages : list (Z * string))
    (s : Store) :
  let queued := queue_all messages s in
  getOfflineMessages queued
  = (getOfflineMessages s
       ++ map (fun m => mkOfflineMessage (snd m) (fst m)) messages)%list
  /\ (let s' := DataService.setNetworkStatus online queued in
      getOfflineMessages s' = [] /\ getNetworkStatus s' = online
      /\ current_user_id s' = current_user_id s /\ active_chats s' = active_chats s
      /\ drafts s' = drafts s)
  /\ (let s' := DataService.setNetworkStatus offline queued in
      getOfflineMessages s' = getOfflineMessages queued
      /\ getNetworkStatus s' = offline).
Proof.
  cbn zeta. destruct (queue_all_spec messages s) as (Hq & Hu & Ha & Hd & Hn).
  split; [done|]. split; [|done].
  unfold DataService.setNetworkStatus, DataService.syncOfflineData.
  case_match; cbn; [by rewrite Hu, Ha, Hd|].
  rewrite Hu, Ha, Hd. split_and!; try done.
  match goal with H : (0 <? _)%nat = false |- _ => apply Nat.ltb_ge in H; cbn in H end.
  destruct (getOfflineMessages (queue_all messages s)) eqn:Hl; [done|].
  unfold getOfflineMessages in Hl. rewrite Hl in *. cbn in *. lia.
Qed.

End StorageFacts.

Module SecureStorageFacts.
Import SecureStorage.

(** X30: restoring a backup.  [restoreSecureData(backupSecureData())] on
    an empty store gives back the tokens, the credentials and the non-empty
    text items, but not the encryption key, which [backupSecureData] does
    not list; whatever the store restored into, its encryption key is the
    one it had.  Restoring a store's own backup into it changes nothing.
    The tokens read back from a restored store are subject to the same
    expiry check. *)
Theorem backup_restores_all_but_the_encryption_key (s s0 : Store) :
  restoreSecureData (backupSecureData s) empty
  = mkStore (auth_tokens s) (user_credentials s) (truthy (device_id s))
            (truthy (push_token s)) None (truthy (biometric_enabled s))
  /\ encryption_key (restoreSecureData (backupSecureData s) s0) = encryption_key s0
  /\ restoreSecureData (backupSecureData s) s = s
  /\ (forall now,
        getAuthTokens now (restoreSecureData (backupSecureData s) empty)
        = match auth_tokens s with
          | Some tokens =>
              if (now <? JWTAuth.stored_expiresAt tokens)%Z
              then (restoreSecureData (backupSecureData s) empty, Some tokens)
              else (clearAuthTokens (restoreSecureData (backupSecureData s) empty), None)
          | None => (restoreSecureData (backupSecureData s) empty, None)
          end)
  /\ (device_id s <> Some "" -> push_token s <> Some "" ->
      biometric_enabled s <> Some "" -> encryption_key s = None ->
      restoreSecureData (backupSecureData s) empty = s).
Proof.
  assert (Htruthy : forall v, v <> Some "" -> truthy v = v).
  { intros [text|] Hv; [|done]. cbn. destruct (String.eqb_spec text ""); congruence. }
  assert (Hkeep : forall v : option string,
            match truthy v with Some x => Some x | None => v end = v).
  { intros [text|]; [|done]. cbn. by destruct (String.eqb text ""). }
  destruct s as [t c d p k b]. unfold restoreSecureData, backupSecureData. cbn.
  split; [by destruct t, c, (truthy d), (truthy p), (truthy b)|].
  split; [done|]. split.
  { rewrite !Hkeep. by destruct t, c. }
  split.
  { intros now. unfold getAuthTokens. cbn. by destruct t, c. }
  intros Hd Hp Hb ->. rewrite !Htruthy by done.
  by destruct t, c, d, p, b.
Qed.

End SecureStorageFacts.
